(** * JSAC Student Insights Dashboard: the row-normalisation and aggregation
      pipeline of [src/App.tsx]

    A shallow embedding of the pure part of the dashboard: header
    normalisation, the cell coercers, header-row detection, the row parser
    and the derived views (unique profiles, weekly activity, active
    check-ins, the category breakdowns and their chart data, the totals, the
    record preview and the details of a record), followed by the properties
    established about them.

    Conventions of the embedding.
    - A JavaScript string is a [string]: a sequence of code units below 256.
    - A JavaScript number held by a cell or a record is a [number]: a whole
      number up to 2^53 exactly, or another finite number known by the text
      that [String] gives it; [NaN] and the infinities only occur as the
      result of a conversion. Time values, and the fields of a date, are
      integers [Z].
    - A [Date] object is its time value in milliseconds since the epoch, or
      the invalid date.
    - A JavaScript object whose properties are assigned one by one, and a
      [Map], are association lists in the order of enumeration.
    - What the code takes from SheetJS, date-fns and the engine beyond the
      language itself is a parameter of the embedding, the [Host]; local
      time is UTC shifted by a fixed offset. *)

From Stdlib Require Import ZArith List Bool Ascii String Lia.
From Stdlib Require Import DecimalString Permutation Sorted.
From Stdlib Require DecimalPos DecimalN DecimalZ DecimalFacts.
Import ListNotations.

Open Scope string_scope.
Open Scope Z_scope.

(* ================================================================== *)
(** ** Strings as the engine sees them *)

Module Js.

Definition code (c : ascii) : N := N_of_ascii c.

Definition inRange (lo hi : N) (c : ascii) : bool :=
  ((lo <=? code c) && (code c <=? hi))%N.

Definition isDigit (c : ascii) : bool := inRange 48 57 c.

(** [WhiteSpace] and [LineTerminator] of the language, below 256: TAB, LF,
    VT, FF, CR, SP and NBSP. This is also the class [\s] of a regular
    expression. *)
Definition isWhiteSpace (c : ascii) : bool :=
  inRange 9 13 c || (code c =? 32)%N || (code c =? 160)%N.

(** The characters [.] does not match in a regular expression. *)
Definition isLineTerminator (c : ascii) : bool :=
  (code c =? 10)%N || (code c =? 13)%N.

(** [String.prototype.toLowerCase] on one code unit: A-Z and the Latin-1
    capitals (all of U+00C0..U+00DE but the multiplication sign). *)
Definition toLowerChar (c : ascii) : ascii :=
  if inRange 65 90 c || (inRange 192 222 c && negb (code c =? 215)%N)
  then ascii_of_N (code c + 32)
  else c.

Fixpoint toLowerCase (s : string) : string :=
  match s with
  | EmptyString => EmptyString
  | String c r => String (toLowerChar c) (toLowerCase r)
  end.

Fixpoint toUpperCaseAZ (s : string) : string :=
  match s with
  | EmptyString => EmptyString
  | String c r =>
      String (if inRange 97 122 c then ascii_of_N (code c - 32) else c)
             (toUpperCaseAZ r)
  end.

Fixpoint trimStart (s : string) : string :=
  match s with
  | EmptyString => EmptyString
  | String c r => if isWhiteSpace c then trimStart r else s
  end.

Fixpoint trimEnd (s : string) : string :=
  match s with
  | EmptyString => EmptyString
  | String c r =>
      match trimEnd r with
      | EmptyString => if isWhiteSpace c then EmptyString else String c EmptyString
      | r' => String c r'
      end
  end.

(** [String.prototype.trim]. *)
Definition trim (s : string) : string := trimEnd (trimStart s).

(** Truthiness of a string: the empty string is the only falsy one. *)
Definition nonEmpty (s : string) : bool :=
  match s with EmptyString => false | _ => true end.

(** [String(n)] for an integer. *)
Definition stringOfZ (z : Z) : string := NilZero.string_of_int (Z.to_int z).

(** [String.prototype.startsWith]. *)
Fixpoint startsWith (p s : string) : bool :=
  match p with
  | EmptyString => true
  | String a p' =>
      match s with
      | String b s' => Ascii.eqb a b && startsWith p' s'
      | EmptyString => false
      end
  end.

(** [Array.prototype.join] on strings. *)
Definition join (sep : string) (l : list string) : string := String.concat sep l.

End Js.

(* ================================================================== *)
(** ** Header normaliser (App.tsx, lines 64-95) *)

(** [.replace(/\r?\n+/g, ' ')]: every maximal run of line feeds, with the
    carriage return that may precede it, becomes one space. [inRun] tells
    that the previous code unit was consumed by the match in progress. *)
Fixpoint collapseNewlines (inRun : bool) (s : string) : string :=
  match s with
  | EmptyString => EmptyString
  | String c r =>
      if (Js.code c =? 10)%N then
        if inRun then collapseNewlines true r
        else String " " (collapseNewlines true r)
      else if (Js.code c =? 13)%N && Js.startsWith (String "010" EmptyString) r then
        String " " (collapseNewlines true r)
      else String c (collapseNewlines false r)
  end.

(** Is there a closing parenthesis ahead, with no line terminator before it?
    ([.*?] stops at the first one and does not cross a line terminator.) *)
Fixpoint hasClose (s : string) : bool :=
  match s with
  | EmptyString => false
  | String c r =>
      if (Js.code c =? 41)%N then true
      else if Js.isLineTerminator c then false
      else hasClose r
  end.

(** [.replace(/\(.*?\)/g, '')]: [skipping] is set from an opening
    parenthesis that has a match up to and including its closing one. *)
Fixpoint stripParens (skipping : bool) (s : string) : string :=
  match s with
  | EmptyString => EmptyString
  | String c r =>
      if skipping then
        if (Js.code c =? 41)%N then stripParens false r else stripParens true r
      else if (Js.code c =? 40)%N && hasClose r then stripParens true r
      else String c (stripParens false r)
  end.

(** [.replace(/&amp;/g, 'and')]: [skip] counts the code units of a match
    still to be dropped. *)
Fixpoint replaceAmp (skip : nat) (s : string) : string :=
  match s with
  | EmptyString => EmptyString
  | String c r =>
      match skip with
      | S k => replaceAmp k r
      | O =>
          if Js.startsWith "&amp;" s then "and" ++ replaceAmp 4 r
          else String c (replaceAmp 0 r)
      end
  end.

(** The class [[a-z0-9?]]. *)
Definition isKeyChar (c : ascii) : bool :=
  Js.inRange 97 122 c || Js.isDigit c || (Js.code c =? 63)%N.

(** [.replace(/[^a-z0-9?]+/g, '')]. *)
Fixpoint keepKeyChars (s : string) : string :=
  match s with
  | EmptyString => EmptyString
  | String c r => if isKeyChar c then String c (keepKeyChars r) else keepKeyChars r
  end.

Definition normalizeHeaderKey (key : string) : string :=
  Js.trim
    (keepKeyChars
       (replaceAmp 0
          (stripParens false
             (collapseNewlines false (Js.toLowerCase key))))).
(* ================================================================== *)
(** ** The column map (App.tsx, lines 62-95) *)

(** The keys of [StudentRecord]. [inheritedConstructor] is not a key of the
    interface: [columnMap] is a plain object literal, so the lookup
    [columnMap["constructor"]] finds the property every object inherits
    from [Object.prototype] and yields a truthy value (it is the only
    inherited property name made of the characters a normalised key keeps). *)
Inductive ColumnKey : Set :=
  | firstName | lastName | studentName | schoolName | homeZipCode | county
  | grade | gender | age | firstVisitDate | yearsWithJsac | heardAbout
  | siblings | parentsGuardians | careerInterest | hobbies
  | visitsPastMonth | visitsPastQuarter | visitsPastYear | checkInDates
  | isAdult | teamName | teamNumber | email | checkedIn | checkedOut
  | checkInDate | checkOutDate | elapsedTime
  | inheritedConstructor.

Scheme Equality for ColumnKey.

Definition columnMapEntries : list (string * ColumnKey) :=
  [ ("name", studentName);
    ("schoolname", schoolName);
    ("homezipcode", homeZipCode);
    ("county", county);
    ("grade", grade);
    ("gender", gender);
    ("age", age);
    ("dateoffirstvisit", firstVisitDate);
    ("numberofsiblings", siblings);
    ("numberofparentsinhousehold", parentsGuardians);
    ("careerinterest", careerInterest);
    ("hobbies", hobbies);
    ("adult?", isAdult);
    ("teamname", teamName);
    ("teamnumber", teamNumber);
    ("email", email);
    ("checkedin", checkedIn);
    ("checkedout", checkedOut);
    ("checkindate", checkInDate);
    ("checkoutdate", checkOutDate);
    ("elapsedtime", elapsedTime) ].

Fixpoint ownProperty (k : string) (l : list (string * ColumnKey)) : option ColumnKey :=
  match l with
  | [] => None
  | (k', f) :: rest => if String.eqb k k' then Some f else ownProperty k rest
  end.

(** [columnMap[normalizedKey]]: [None] is [undefined]. *)
Definition columnMap (normalizedKey : string) : option ColumnKey :=
  match ownProperty normalizedKey columnMapEntries with
  | Some f => Some f
  | None =>
      if String.eqb normalizedKey "constructor" then Some inheritedConstructor
      else None
  end.

(* ================================================================== *)
(** ** Time values and dates

    The abstract operations of the language on time values (milliseconds
    since 1970-01-01T00:00:00Z), under their names in the standard. The
    limit on the magnitude of a time value (8.64e15 ms) is not modelled. *)

Module JsDate.

Definition msPerDay : Z := 86400000.
Definition msPerHour : Z := 3600000.
Definition msPerMinute : Z := 60000.

Definition Day (t : Z) : Z := t / msPerDay.
Definition TimeWithinDay (t : Z) : Z := t mod msPerDay.

Definition isLeapYear (y : Z) : bool :=
  ((y mod 4 =? 0) && negb (y mod 100 =? 0)) || (y mod 400 =? 0).

Definition DayFromYear (y : Z) : Z :=
  365 * (y - 1970) + (y - 1969) / 4 - (y - 1901) / 100 + (y - 1601) / 400.

(** The year of a day number: the largest [y] with [DayFromYear y <= d],
    found from the mean length of a year and corrected by at most one. *)
Definition yearFromDay (d : Z) : Z :=
  let y0 := 1970 + (400 * d) / 146097 in
  if DayFromYear (y0 + 1) <=? d then y0 + 1
  else if DayFromYear y0 <=? d then y0
  else y0 - 1.

Definition YearFromTime (t : Z) : Z := yearFromDay (Day t).
Definition InLeapYear (t : Z) : Z := if isLeapYear (YearFromTime t) then 1 else 0.
Definition DayWithinYear (t : Z) : Z := Day t - DayFromYear (YearFromTime t).

(** Day within the year on which month [m] (0 to 11) starts. *)
Definition monthStart (m leap : Z) : Z :=
  if m =? 0 then 0
  else if m =? 1 then 31
  else if m =? 2 then 59 + leap
  else if m =? 3 then 90 + leap
  else if m =? 4 then 120 + leap
  else if m =? 5 then 151 + leap
  else if m =? 6 then 181 + leap
  else if m =? 7 then 212 + leap
  else if m =? 8 then 243 + leap
  else if m =? 9 then 273 + leap
  else if m =? 10 then 304 + leap
  else 334 + leap.

Definition MonthFromTime (t : Z) : Z :=
  let d := DayWithinYear t in
  let leap := InLeapYear t in
  if d <? 31 then 0
  else if d <? 59 + leap then 1
  else if d <? 90 + leap then 2
  else if d <? 120 + leap then 3
  else if d <? 151 + leap then 4
  else if d <? 181 + leap then 5
  else if d <? 212 + leap then 6
  else if d <? 243 + leap then 7
  else if d <? 273 + leap then 8
  else if d <? 304 + leap then 9
  else if d <? 334 + leap then 10
  else 11.

Definition DateFromTime (t : Z) : Z :=
  DayWithinYear t - monthStart (MonthFromTime t) (InLeapYear t) + 1.

Definition WeekDay (t : Z) : Z := (Day t + 4) mod 7.
Definition HourFromTime (t : Z) : Z := (t / msPerHour) mod 24.
Definition MinFromTime (t : Z) : Z := (t / msPerMinute) mod 60.

Definition MakeTime (hour min sec ms : Z) : Z :=
  hour * msPerHour + min * msPerMinute + sec * 1000 + ms.

Definition MakeDay (year month date : Z) : Z :=
  let ym := year + month / 12 in
  let mn := month mod 12 in
  DayFromYear ym + monthStart mn (if isLeapYear ym then 1 else 0) + date - 1.

Definition MakeDate (day time : Z) : Z := day * msPerDay + time.

(** A year from 0 to 99 given to [Date.UTC] or to the [Date] constructor
    means 1900 + year. *)
Definition fullYear (y : Z) : Z :=
  if (0 <=? y) && (y <=? 99) then 1900 + y else y.

(** [Date.UTC(year, month, date, hours, minutes, seconds, ms)]. *)
Definition UTC (year month date hours minutes seconds ms : Z) : Z :=
  MakeDate (MakeDay (fullYear year) month date) (MakeTime hours minutes seconds ms).

(** A [Date] object: a time value, or the invalid date (time value [NaN]). *)
Inductive Date : Set :=
  | ValidDate (t : Z)
  | InvalidDate.

(** [isValid] of date-fns on a [Date] object. *)
Definition isValidDate (d : Date) : bool :=
  match d with ValidDate _ => true | InvalidDate => false end.

(** [date.setUTCDate(dt)]: the new time value. *)
Definition setUTCDate (t dt : Z) : Z :=
  MakeDate (MakeDay (YearFromTime t) (MonthFromTime t) dt) (TimeWithinDay t).

(** The range of the time values of a [Date]: 100,000,000 days on either
    side of the epoch. [TimeClip] makes a time value beyond it [NaN], so
    that [Date.UTC], [new Date] and [setUTCDate] are the functions above
    as long as their results are within the range. *)
Definition maxTime : Z := 8640000000000000.

Definition timeInRange (t : Z) : Prop := - maxTime <= t <= maxTime.

End JsDate.

Export JsDate(Date, ValidDate, InvalidDate, isValidDate).

(* ================================================================== *)
(** ** Numbers

    A finite number of the language. [Int z] is the whole number [z], of
    magnitude at most 2^53: on these the language is exact and [String]
    prints the decimal numeral. [Other text] is any other finite number,
    known by the text that [String] gives it, which tells any two numbers
    apart. (The negative zero behaves as [Int 0] in everything the pipeline
    does with a number.) *)

Inductive number : Set :=
  | Int (z : Z)
  | Other (text : string).

Coercion Int : Z >-> number.

(** What [Number(...)] may give. *)
Inductive numeric : Set :=
  | NaN
  | Infinite
  | Finite (n : number).

(** [String(n)]. *)
Definition numberToString (n : number) : string :=
  match n with
  | Int z => Js.stringOfZ z
  | Other text => text
  end.

Definition maxSafeInteger : Z := 9007199254740992.

(* ================================================================== *)
(** ** The host: what the pipeline takes from its libraries and engine *)

(** - [tzOffsetMs]: the offset of local time from UTC, in milliseconds (a
      host in a fixed-offset zone);
    - [parse_date_code]: [XLSX.SSF.parse_date_code] of SheetJS, giving the
      year, month (1 to 12) and day of a serial date, or [None];
    - [parseISO]: [parseISO] of date-fns;
    - [dateParse]: [new Date(string)], whose free-form parsing is left to
      the engine;
    - [localeCompare]: [String.prototype.localeCompare];
    - [dateToString]: [Date.prototype.toString], whose text depends on the
      zone and locale of the host;
    - [numberOf]: [Number(text)] on the numerals whose value the embedding
      does not compute itself (those whose nearest number has to be found by
      rounding: more than 15 significant digits, or a magnitude of 1e21 and
      more or below 1e-6). *)
Record Host : Type := {
  tzOffsetMs : Z;
  parse_date_code : number -> option (Z * Z * Z);
  parseISO : string -> Date;
  dateParse : string -> Date;
  localeCompare : string -> string -> Z;
  dateToString : Date -> string;
  numberOf : string -> numeric
}.

Definition LocalTime (host : Host) (t : Z) : Z := t + tzOffsetMs host.

(** [new Date(year, monthIndex, day)]: local midnight of that day. *)
Definition newDateLocal (host : Host) (year monthIndex day : Z) : Date :=
  ValidDate
    (JsDate.MakeDate (JsDate.MakeDay (JsDate.fullYear year) monthIndex day) 0
     - tzOffsetMs host).

(* ================================================================== *)
(** ** Numerals: [Number(text)]

    The grammar of a string numeric literal: white space around; nothing
    (the number 0); a signed [Infinity]; a signed decimal literal with an
    optional fraction and exponent; or an unsigned binary, octal or
    hexadecimal integer literal. Every other text is [NaN]. *)

Fixpoint digitsValue (acc : Z) (s : string) : option Z :=
  match s with
  | EmptyString => Some acc
  | String c r =>
      if Js.isDigit c then digitsValue (10 * acc + (Z.of_N (Js.code c) - 48)) r
      else None
  end.

(** The digits at the head of a text, and the rest of it. *)
Fixpoint spanDigits (s : string) : string * string :=
  match s with
  | EmptyString => (EmptyString, EmptyString)
  | String c r =>
      if Js.isDigit c then let (ds, rest) := spanDigits r in (String c ds, rest)
      else (EmptyString, s)
  end.

(** The mathematical value of a text of decimal digits. *)
Fixpoint decimalValue (acc : Z) (s : string) : Z :=
  match s with
  | EmptyString => acc
  | String c r => decimalValue (10 * acc + (Z.of_N (Js.code c) - 48)) r
  end.

(** The value of a digit in a radix of 2, 8 or 16. *)
Definition radixDigit (radix : Z) (c : ascii) : option Z :=
  let n := Z.of_N (Js.code c) in
  let d := if Js.isDigit c then n - 48
           else if Js.inRange 97 102 c then n - 87
           else if Js.inRange 65 70 c then n - 55
           else radix in
  if d <? radix then Some d else None.

Fixpoint radixValue (radix acc : Z) (s : string) : option Z :=
  match s with
  | EmptyString => Some acc
  | String c r =>
      match radixDigit radix c with
      | Some d => radixValue radix (radix * acc + d) r
      | None => None
      end
  end.

(** What a trimmed text denotes: no number, an infinity, the decimal
    [mantissa * 10^exponent] with its sign, or a whole number in another
    radix. *)
Inductive literal : Set :=
  | NotNumeral
  | InfinityLiteral
  | Decimal (negative : bool) (mantissa exponent : Z)
  | Radix (v : Z).

(** The radix that the letter after a leading [0] announces; 0 when it
    announces none. *)
Definition radixOf (x : ascii) : Z :=
  if Ascii.eqb x "x" || Ascii.eqb x "X" then 16
  else if Ascii.eqb x "o" || Ascii.eqb x "O" then 8
  else if Ascii.eqb x "b" || Ascii.eqb x "B" then 2
  else 0.

(** [0x...], [0o...] and [0b...], in either case of the letter: [None]
    when the text has no such prefix. *)
Definition radixLiteral (t : string) : option literal :=
  match t with
  | String c (String x r) =>
      if Ascii.eqb c "0" && negb (radixOf x =? 0) then
        match r with
        | EmptyString => Some NotNumeral
        | _ => match radixValue (radixOf x) 0 r with
               | Some v => Some (Radix v)
               | None => Some NotNumeral
               end
        end
      else None
  | _ => None
  end.

(** An optional sign at the head of a text: whether it is [-], and the
    rest. *)
Definition signOf (t : string) : bool * string :=
  match t with
  | String c r =>
      if Ascii.eqb c "+" then (false, r)
      else if Ascii.eqb c "-" then (true, r)
      else (false, t)
  | EmptyString => (false, t)
  end.

(** The exponent part, which must end the text: absent, or [e] or [E],
    an optional sign and digits. *)
Definition exponentPart (s : string) : option Z :=
  match s with
  | EmptyString => Some 0
  | String c r =>
      if Ascii.eqb c "e" || Ascii.eqb c "E" then
        let (negative, ds) := signOf r in
        match ds with
        | EmptyString => None
        | _ => match digitsValue 0 ds with
               | Some e => Some (if negative then - e else e)
               | None => None
               end
        end
      else None
  end.

(** A decimal literal without its sign: digits, then optionally a point
    and digits, with a digit on one side of the point at least, then the
    exponent part. *)
Definition decimalLiteral (negative : bool) (body : string) : literal :=
  let (whole, rest) := spanDigits body in
  let (fraction, rest) :=
    match rest with
    | String c r => if Ascii.eqb c "." then spanDigits r else (EmptyString, rest)
    | EmptyString => (EmptyString, rest)
    end in
  if negb (Js.nonEmpty whole) && negb (Js.nonEmpty fraction) then NotNumeral
  else match exponentPart rest with
       | Some e =>
           Decimal negative (decimalValue 0 (whole ++ fraction))
             (e - Z.of_nat (String.length fraction))
       | None => NotNumeral
       end.

Definition numeralOf (t : string) : literal :=
  match t with
  | EmptyString => Decimal false 0 0
  | _ =>
      match radixLiteral t with
      | Some l => l
      | None =>
          let (negative, body) := signOf t in
          if String.eqb body "Infinity" then InfinityLiteral
          else decimalLiteral negative body
      end
  end.

(** The mantissa without its zeros at the end, below a negative exponent
    ([fuel] bounds the number of steps). *)
Fixpoint stripZeros (fuel : nat) (m e : Z) : Z * Z :=
  match fuel with
  | O => (m, e)
  | S k => if (e <? 0) && (m mod 10 =? 0) then stripZeros k (m / 10) (e + 1) else (m, e)
  end.

(** The number of significant digits of a positive whole number: its
    digits up to the last that is not 0. *)
Fixpoint significantDigits (fuel : nat) (m : Z) : Z :=
  match fuel with
  | O => Z.of_nat (String.length (Js.stringOfZ m))
  | S k => if m mod 10 =? 0 then significantDigits k (m / 10)
           else Z.of_nat (String.length (Js.stringOfZ m))
  end.

Fixpoint zeros (n : nat) : string :=
  match n with
  | O => EmptyString
  | S k => String "0" (zeros k)
  end.

(** [String] of the positive number [m * 10^e], [e < 0], [m] not a multiple
    of 10, when it is at least 1e-6: the digits with the point among them,
    or after [0.] and zeros. *)
Definition positional (m e : Z) : string :=
  let digits := Js.stringOfZ m in
  let n := Z.of_nat (String.length digits) + e in
  if 0 <? n then
    String.substring 0 (Z.to_nat n) digits ++ "."
    ++ String.substring (Z.to_nat n) (String.length digits - Z.to_nat n) digits
  else "0." ++ zeros (Z.to_nat (- n)) ++ digits.

Definition signed (negative : bool) (text : string) : string :=
  if negative then "-" ++ text else text.

(** The number of a literal. A whole number up to 2^53 is itself. A
    number of at most 15 significant digits and of magnitude from 1e-6 to
    below 1e21 is the number that [String] prints with these digits, in
    positional notation. The number nearest to any other value is left to
    the engine, which is given the trimmed text. *)
Definition numberOfLiteral (host : Host) (t : string) (l : literal) : numeric :=
  match l with
  | NotNumeral => NaN
  | InfinityLiteral => Infinite
  | Radix v => if v <=? maxSafeInteger then Finite (Int v) else numberOf host t
  | Decimal negative m e =>
      if m =? 0 then Finite (Int 0)
      else
        let fuel := String.length (Js.stringOfZ m) in
        let (m, e) := stripZeros fuel m e in
        if 0 <=? e then
          if e <=? 21 then
            let v := m * 10 ^ e in
            if v <=? maxSafeInteger then Finite (Int (if negative then - v else v))
            else if (significantDigits fuel m <=? 15) && (v <? 10 ^ 21)
            then Finite (Other (signed negative (Js.stringOfZ v)))
            else numberOf host t
          else numberOf host t
        else
          let digits := Z.of_nat (String.length (Js.stringOfZ m)) in
          if (digits <=? 15) && (-6 <? digits + e)
          then Finite (Other (signed negative (positional m e)))
          else numberOf host t
  end.

(** [Number(s)] on a string. *)
Definition stringToNumber (host : Host) (s : string) : numeric :=
  let t := Js.trim s in
  numberOfLiteral host t (numeralOf t).

(* ================================================================== *)
(** ** Cell values and the coercers (App.tsx, lines 124-173) *)

(** A raw cell value. The sheet reader, called with [raw: true] and
    without [cellDates], delivers strings, numbers, booleans and [null];
    [undefined] and [Date] objects are the other values the coercers
    provide for. *)
Inductive cell : Set :=
  | CUndefined
  | CNull
  | CBool (b : bool)
  | CNum (n : number)
  | CStr (s : string)
  | CDate (d : Date).

(** [Number(value)]. *)
Definition toNumber (host : Host) (v : cell) : numeric :=
  match v with
  | CUndefined => NaN
  | CNull => Finite 0
  | CBool true => Finite 1
  | CBool false => Finite 0
  | CNum n => Finite n
  | CStr s => stringToNumber host s
  | CDate (ValidDate t) => Finite t
  | CDate InvalidDate => NaN
  end.

(** [parseNumber]: [None] is [null]. *)
Definition parseNumber (host : Host) (value : cell) : option number :=
  match value with
  | CUndefined | CNull | CStr EmptyString => None
  | _ => match toNumber host value with
         | Finite n => Some n
         | NaN | Infinite => None
         end
  end.

Definition includes (l : list string) (s : string) : bool :=
  existsb (String.eqb s) l.

(** [parseBooleanFlag]: [None] is [null]. *)
Definition parseBooleanFlag (value : cell) : option bool :=
  match value with
  | CUndefined | CNull | CStr EmptyString => None
  | CBool b => Some b
  | CNum (Int n) => if n =? 1 then Some true else if n =? 0 then Some false else None
  | CNum (Other _) => None
  | CStr s =>
      let normalized := Js.toLowerCase (Js.trim s) in
      if negb (Js.nonEmpty normalized) then None
      else if includes ["y"; "yes"; "true"; "adult"] normalized then Some true
      else if includes ["n"; "no"; "false"; "youth"; "child"] normalized then Some false
      else None
  | CDate _ => None
  end.

Definition hasText (value : cell) : bool :=
  match value with
  | CUndefined | CNull => false
  | CStr s => (0 <? String.length (Js.trim s))%nat
  | CNum _ => true
  | CBool _ => true
  | CDate _ => true
  end.

(** [String(value)]. *)
Definition cellToString (host : Host) (v : cell) : string :=
  match v with
  | CUndefined => "undefined"
  | CNull => "null"
  | CBool true => "true"
  | CBool false => "false"
  | CNum n => numberToString n
  | CStr s => s
  | CDate d => dateToString host d
  end.

(* ================================================================== *)
(** ** Date coercion (App.tsx, lines 175-225) *)

Notation "' p <- e1 ; e2" :=
  (match e1 with Some p => e2 | None => None end)
  (at level 61, p pattern, e1 at next level, right associativity).

Definition expectChar (c : ascii) (s : string) : option string :=
  match s with
  | String c' r => if Ascii.eqb c c' then Some r else None
  | EmptyString => None
  end.

(** [\d{n}], capturing. *)
Fixpoint takeDigits (n : nat) (s : string) : option (string * string) :=
  match n with
  | O => Some (EmptyString, s)
  | S k =>
      match s with
      | String c r =>
          if Js.isDigit c then
            '(ds, rest) <- takeDigits k r ; Some (String c ds, rest)
          else None
      | EmptyString => None
      end
  end.

(** [\s+]. *)
Definition spaces1 (s : string) : option string :=
  match s with
  | String c r => if Js.isWhiteSpace c then Some (Js.trimStart r) else None
  | EmptyString => None
  end.

(** [[AP]M] under the [i] flag, capturing. *)
Definition takeAmPm (s : string) : option (string * string) :=
  match s with
  | String a (String m r) =>
      if (Ascii.eqb a "A" || Ascii.eqb a "a" || Ascii.eqb a "P" || Ascii.eqb a "p")
         && (Ascii.eqb m "M" || Ascii.eqb m "m")
      then Some (String a (String m EmptyString), r)
      else None
  | _ => None
  end.

(** [[+-]], capturing. *)
Definition takeSign (s : string) : option (string * string) :=
  match s with
  | String c r =>
      if Ascii.eqb c "+" || Ascii.eqb c "-" then Some (String c EmptyString, r)
      else None
  | EmptyString => None
  end.

(** The groups 1 to 9 of a match. *)
Record StampMatch : Set := {
  m1 : string; m2 : string; m3 : string; m4 : string; m5 : string;
  m6 : string; m7 : string; m8 : string; m9 : string
}.

(** [trimmed.match(/^(\d{4})-(\d{2})-(\d{2})\s+(\d{1,2}):(\d{2})\s*([AP]M)\s+([+-])(\d{2}):(\d{2})$/i)]. *)
Definition matchStamp (trimmed : string) : option StampMatch :=
  '(g1, s) <- takeDigits 4 trimmed ;
  's <- expectChar "-" s ;
  '(g2, s) <- takeDigits 2 s ;
  's <- expectChar "-" s ;
  '(g3, s) <- takeDigits 2 s ;
  's <- spaces1 s ;
  '(g4, s) <- match takeDigits 2 s with
              | Some r => Some r
              | None => takeDigits 1 s
              end ;
  's <- expectChar ":" s ;
  '(g5, s) <- takeDigits 2 s ;
  '(g6, s) <- takeAmPm (Js.trimStart s) ;
  's <- spaces1 s ;
  '(g7, s) <- takeSign s ;
  '(g8, s) <- takeDigits 2 s ;
  's <- expectChar ":" s ;
  '(g9, s) <- takeDigits 2 s ;
  match s with
  | EmptyString =>
      Some {| m1 := g1; m2 := g2; m3 := g3; m4 := g4; m5 := g5;
              m6 := g6; m7 := g7; m8 := g8; m9 := g9 |}
  | _ => None
  end.

(** A number that [Number] gave, when it is a whole number held exactly;
    [None] otherwise. *)
Definition wholeNumber (n : numeric) : option Z :=
  match n with
  | Finite (Int z) => Some z
  | _ => None
  end.

(** The body of [if (m) { ... }]: the time value [utcMs]; [None] is [NaN].
    (The groups are texts of one to four digits, whose numbers are whole.) *)
Definition stampUtcMs (host : Host) (m : StampMatch) : option Z :=
  'year <- wholeNumber (stringToNumber host (m1 m)) ;
  'month <- wholeNumber (stringToNumber host (m2 m)) ;
  'day <- wholeNumber (stringToNumber host (m3 m)) ;
  'hour <- wholeNumber (stringToNumber host (m4 m)) ;
  'minute <- wholeNumber (stringToNumber host (m5 m)) ;
  let ampm := Js.toUpperCaseAZ (m6 m) in
  let sign := if String.eqb (m7 m) "+" then 1 else -1 in
  'tzH <- wholeNumber (stringToNumber host (m8 m)) ;
  'tzM <- wholeNumber (stringToNumber host (m9 m)) ;
  let hour := if String.eqb ampm "AM" then hour mod 12 else hour mod 12 + 12 in
  let localUtcMs := JsDate.UTC year (month - 1) day hour minute 0 0 in
  let offsetMinutes := sign * (tzH * 60 + tzM) in
  Some (localUtcMs - offsetMinutes * 60 * 1000).

(** [parseDateValue]: [None] is [null]. *)
Definition parseDateValue (host : Host) (value : cell) : option Date :=
  match value with
  | CUndefined | CNull | CBool _ => None
  | CDate d => if isValidDate d then Some d else None
  | CNum n =>
      match parse_date_code host n with
      | Some (y, m, d) => Some (newDateLocal host y (m - 1) d)
      | None => None
      end
  | CStr s =>
      if negb (Js.nonEmpty s) then None
      else
        let trimmed := Js.trim s in
        if negb (Js.nonEmpty trimmed) then None
        else
          match matchStamp trimmed with
          | Some m =>
              match stampUtcMs host m with
              | Some utcMs => Some (ValidDate utcMs)
              | None => None
              end
          | None =>
              let isoCandidate := parseISO host trimmed in
              if isValidDate isoCandidate then Some isoCandidate
              else
                let parsed := dateParse host trimmed in
                if isValidDate parsed then Some parsed else None
          end
  end.

(* ================================================================== *)
(** ** Student records and the row parser (App.tsx, lines 231-320) *)

(** What a property of a record may hold. *)
Inductive value : Set :=
  | VUndefined
  | VNull
  | VBool (b : bool)
  | VNum (n : number)
  | VStr (s : string)
  | VDate (d : Date).

Definition truthy (v : value) : bool :=
  match v with
  | VUndefined | VNull => false
  | VBool b => b
  | VNum (Int n) => negb (n =? 0)
  | VNum (Other _) => true
  | VStr s => Js.nonEmpty s
  | VDate _ => true
  end.

Definition isNull (v : value) : bool :=
  match v with VNull => true | _ => false end.

(** A [StudentRecord] object: its own properties, in assignment order. *)
Definition StudentRecord : Set := list (ColumnKey * value).

(** [record[key]]: [VUndefined] when the property was never assigned. *)
Fixpoint getProp (record : StudentRecord) (key : ColumnKey) : value :=
  match record with
  | [] => VUndefined
  | (k, v) :: rest => if ColumnKey_beq k key then v else getProp rest key
  end.

(** [record[key] = v]. *)
Fixpoint setProp (record : StudentRecord) (key : ColumnKey) (v : value) : StudentRecord :=
  match record with
  | [] => [(key, v)]
  | (k, v') :: rest =>
      if ColumnKey_beq k key then (k, v) :: rest
      else (k, v') :: setProp rest key v
  end.

(** Typed reads of a property. *)
Definition readStr (record : StudentRecord) (key : ColumnKey) : option string :=
  match getProp record key with VStr s => Some s | _ => None end.

Definition readDate (record : StudentRecord) (key : ColumnKey) : option Date :=
  match getProp record key with VDate d => Some d | _ => None end.

(** [a || b] on strings, [a] possibly undefined. *)
Definition orString (a : option string) (b : string) : string :=
  match a with
  | Some s => if Js.nonEmpty s then s else b
  | None => b
  end.

(** [v == null]. *)
Definition isNullish (v : value) : bool :=
  match v with VUndefined | VNull => true | _ => false end.

(** [`${v ?? ''}`], and [String(v)] when [v] is not nullish, for a property
    holding text, a number or a flag. (The row parser stores a [Date] under
    the three date keys only, which are never put into a text.) *)
Definition textOrEmpty (v : value) : string :=
  match v with
  | VStr s => s
  | VNum n => numberToString n
  | VBool true => "true"
  | VBool false => "false"
  | VUndefined | VNull | VDate _ => EmptyString
  end.

Definition ofBool (b : option bool) : value :=
  match b with Some b => VBool b | None => VNull end.

Definition ofNum (n : option number) : value :=
  match n with Some z => VNum z | None => VNull end.

Definition ofDate (d : option Date) : value :=
  match d with Some d => VDate d | None => VNull end.

(** One arm of [switch (mappedKey)]: the value assigned to
    [record[mappedKey]] and whether the arm sets [hasMappedValue]. *)
Definition coerceField (host : Host) (mappedKey : ColumnKey) (rawValue : cell)
  : value * bool :=
  match mappedKey with
  | checkedIn | checkedOut =>
      let v := ofBool (parseBooleanFlag rawValue) in (v, negb (isNull v))
  | age | siblings | parentsGuardians | yearsWithJsac
  | visitsPastMonth | visitsPastQuarter | visitsPastYear =>
      let v := ofNum (parseNumber host rawValue) in (v, negb (isNull v))
  | firstVisitDate =>
      let v := ofDate (parseDateValue host rawValue) in (v, truthy v)
  | checkInDate | checkOutDate =>
      let v := ofDate (parseDateValue host rawValue) in (v, truthy v)
  | isAdult =>
      let v := ofBool (parseBooleanFlag rawValue) in (v, negb (isNull v))
  | email =>
      let v := VStr (Js.trim (cellToString host rawValue)) in (v, truthy v)
  | elapsedTime =>
      let v := ofNum (parseNumber host rawValue) in (v, negb (isNull v))
  | _ =>
      let v := match rawValue with
               | CUndefined | CNull => VUndefined
               | _ => VStr (Js.trim (cellToString host rawValue))
               end in
      (v, truthy v)
  end.

(** The body of [Object.entries(row).forEach(...)], on the pair of the
    record under construction and [hasMappedValue]. *)
Definition parseRowStep (host : Host) (acc : StudentRecord * bool)
  (entry : string * cell) : StudentRecord * bool :=
  let (record, hasMappedValue) := acc in
  let (key, rawValue) := entry in
  let normalizedKey := normalizeHeaderKey (Js.trim key) in
  if negb (Js.nonEmpty normalizedKey) then acc
  else
    match columnMap normalizedKey with
    | None => acc
    | Some mappedKey =>
        let (v, mapped) := coerceField host mappedKey rawValue in
        (setProp record mappedKey v, if mapped then true else hasMappedValue)
    end.

(** The fallback of [studentName] from [firstName] and [lastName]. *)
Definition withCompositeName (record : StudentRecord) : StudentRecord :=
  if negb (truthy (getProp record studentName)) then
    let parts := filter truthy
                   [getProp record firstName; getProp record lastName] in
    let composite := Js.trim (Js.join " " (map textOrEmpty parts)) in
    if Js.nonEmpty composite then setProp record studentName (VStr composite)
    else record
  else record.

(** [parseRow]: [row] is given by [Object.entries(row)]; [None] is [null]. *)
Definition parseRow (host : Host) (row : list (string * cell)) : option StudentRecord :=
  let (record, hasMappedValue) := fold_left (parseRowStep host) row ([], false) in
  let record := withCompositeName record in
  if hasMappedValue then Some record else None.

(* ================================================================== *)
(** ** Header-row detection and the sheet (App.tsx, lines 429-499) *)

(** The label of a header cell: [String(cell).trim()] for a string or a
    number, the empty string otherwise. *)
Definition cellLabel (c : cell) : string :=
  match c with
  | CStr s => Js.trim s
  | CNum n => Js.trim (numberToString n)
  | _ => EmptyString
  end.

Definition rowLabels (row : list cell) : list string :=
  filter Js.nonEmpty (map cellLabel row).

(** [labels.reduce(..., 0)]. *)
Definition headerScore (labels : list string) : Z :=
  fold_left
    (fun count label =>
       let normalized := normalizeHeaderKey label in
       if negb (Js.nonEmpty normalized) then count
       else match columnMap normalized with
            | Some _ => count + 1
            | None => count
            end)
    labels 0.

(** The body of [rows.forEach((row, index) => ...)] on the pair
    [(bestHeaderIndex, bestScore)]. *)
Definition detectStep (best : nat * Z) (index : nat) (row : list cell) : nat * Z :=
  let labels := rowLabels row in
  match labels with
  | [] => best
  | _ =>
      let score := headerScore labels in
      if (snd best <? score) && (2 <=? score) then (index, score) else best
  end.

Fixpoint detectFrom (rows : list (list cell)) (index : nat) (best : nat * Z) : nat * Z :=
  match rows with
  | [] => best
  | row :: rest => detectFrom rest (S index) (detectStep best index row)
  end.

Definition bestHeaderIndex (rows : list (list cell)) : nat :=
  fst (detectFrom rows 0%nat (0%nat, -1)).

(** An array index as a property name: a canonical numeral below 2^32 - 1.
    Such properties are enumerated first, in numeric order. *)
Definition arrayIndex (k : string) : option Z :=
  match k with
  | EmptyString => None
  | String c r =>
      if Ascii.eqb c "0" && Js.nonEmpty r then None
      else match digitsValue 0 k with
           | Some n => if n <? 4294967295 then Some n else None
           | None => None
           end
  end.

Section Objects.
Context {A : Type}.

Fixpoint hasOwn (o : list (string * A)) (k : string) : bool :=
  match o with
  | [] => false
  | (k', _) :: rest => String.eqb k' k || hasOwn rest k
  end.

Fixpoint replaceOwn (o : list (string * A)) (k : string) (v : A) : list (string * A) :=
  match o with
  | [] => []
  | (k', v') :: rest =>
      if String.eqb k' k then (k', v) :: rest else (k', v') :: replaceOwn rest k v
  end.

Fixpoint insertIndexed (o : list (string * A)) (n : Z) (k : string) (v : A)
  : list (string * A) :=
  match o with
  | [] => [(k, v)]
  | (k', v') :: rest =>
      match arrayIndex k' with
      | Some n' =>
          if n' <? n then (k', v') :: insertIndexed rest n k v
          else (k, v) :: o
      | None => (k, v) :: o
      end
  end.

(** [o[k] = v] on a plain object with string keys, [v] a primitive value:
    [Object.entries] lists the array-index keys first, then the others in
    order of creation; assigning to ["__proto__"] creates no property. *)
Definition objSet (o : list (string * A)) (k : string) (v : A) : list (string * A) :=
  if String.eqb k "__proto__" then o
  else if hasOwn o k then replaceOwn o k v
  else match arrayIndex k with
       | Some n => insertIndexed o n k v
       | None => o ++ [(k, v)]
       end.
End Objects.

(** The raw record of a data row: [record[header] = row[columnIndex]] for
    every non-empty header whose cell is not [undefined]. *)
Fixpoint rawRecordFrom (headerLabels : list string) (columnIndex : nat)
  (row : list cell) (record : list (string * cell)) : list (string * cell) :=
  match headerLabels with
  | [] => record
  | header :: rest =>
      let record' :=
        if negb (Js.nonEmpty header) then record
        else match nth_error row columnIndex with
             | None | Some CUndefined => record
             | Some v => objSet record header v
             end in
      rawRecordFrom rest (S columnIndex) row record'
  end.

Definition rawRecords (rows : list (list cell)) : list (list (string * cell)) :=
  let best := bestHeaderIndex rows in
  let headerRow := nth best rows [] in
  let headerLabels := map cellLabel headerRow in
  let dataRows := skipn (S best) rows in
  filter (fun record => existsb (fun kv => hasText (snd kv)) record)
    (map (fun row => rawRecordFrom headerLabels 0 row [])
       (filter (fun row => existsb hasText row) dataRows)).

Fixpoint keepSome {A : Type} (l : list (option A)) : list A :=
  match l with
  | [] => []
  | Some a :: rest => a :: keepSome rest
  | None :: rest => keepSome rest
  end.

(** The [try] block of [reader.onload] from the rows of the first sheet:
    [None] is the error raised for a sheet without rows, and [Some] the
    list handed to [setStudents]. *)
Definition parseSheet (host : Host) (rows : list (list cell)) : option (list StudentRecord) :=
  match rows with
  | [] => None
  | _ => Some (keepSome (map (parseRow host) (rawRecords rows)))
  end.

(* ================================================================== *)
(** ** Unique profiles (App.tsx, lines 513-549) *)

Module Profile.
Record t : Set := {
  name : string;
  county : value;
  homeZipCode : value;
  schoolName : value;
  age : value;
  grade : value;
  gender : value
}.
End Profile.

(** [(s.studentName || `${s.firstName ?? ''} ${s.lastName ?? ''}`).trim()]. *)
Definition displayName (s : StudentRecord) : string :=
  Js.trim
    (orString (readStr s studentName)
       (textOrEmpty (getProp s firstName) ++ " " ++ textOrEmpty (getProp s lastName))).

(** The key of a profile, as the template literal of line 532 builds it. *)
Definition profileKey (s : StudentRecord) : string :=
  Js.toLowerCase (displayName s)
  ++ "|"
  ++ (if isNullish (getProp s age) then EmptyString
      else Js.toLowerCase (Js.trim (textOrEmpty (getProp s age))))
  ++ "|" ++ textOrEmpty (getProp s age)
  ++ "|" ++ textOrEmpty (getProp s teamName)
  ++ "|" ++ textOrEmpty (getProp s teamNumber).

(** [key.replace(/\|/g, '')]. *)
Fixpoint removePipes (s : string) : string :=
  match s with
  | EmptyString => EmptyString
  | String c r => if Ascii.eqb c "|" then removePipes r else String c (removePipes r)
  end.

(** A valid check-in date: [ci && isValidDate(ci)]. *)
Definition hasValidCheckIn (s : StudentRecord) : bool :=
  match getProp s checkInDate with
  | VDate d => isValidDate d
  | _ => false
  end.

Definition profileOf (s : StudentRecord) : Profile.t :=
  {| Profile.name := displayName s;
     Profile.county := getProp s county;
     Profile.homeZipCode := getProp s homeZipCode;
     Profile.schoolName := getProp s schoolName;
     Profile.age := getProp s age;
     Profile.grade := getProp s grade;
     Profile.gender := getProp s gender |}.

Section Maps.
Context {A : Type}.

(** [map.get(key)] on a [Map] with string keys, kept in insertion order. *)
Fixpoint mapGet (m : list (string * A)) (key : string) : option A :=
  match m with
  | [] => None
  | (k, v) :: rest => if String.eqb k key then Some v else mapGet rest key
  end.

Definition mapHas (m : list (string * A)) (key : string) : bool :=
  match mapGet m key with Some _ => true | None => false end.

(** [map.set(key, v)]: an existing key keeps its place. *)
Fixpoint mapSet (m : list (string * A)) (key : string) (v : A) : list (string * A) :=
  match m with
  | [] => [(key, v)]
  | (k, v') :: rest =>
      if String.eqb k key then (k, v) :: rest else (k, v') :: mapSet rest key v
  end.
End Maps.

(** The body of [students.forEach(...)] in [uniqueProfiles]. *)
Definition uniqueProfilesStep (map : list (string * Profile.t)) (s : StudentRecord)
  : list (string * Profile.t) :=
  let name := displayName s in
  if negb (Js.nonEmpty name) || negb (hasValidCheckIn s) then map
  else
    let key := profileKey s in
    if negb (Js.nonEmpty (removePipes key)) then map
    else if negb (mapHas map key) then mapSet map key (profileOf s)
    else map.

Definition uniqueProfiles (students : list StudentRecord) : list (string * Profile.t) :=
  fold_left uniqueProfilesStep students [].

Definition uniqueStudentsCount (students : list StudentRecord) : nat :=
  List.length (uniqueProfiles students).

(** The key of the same identity in the record preview and in the details
    view (lines 811-817, 827-833, 920-926 and 994-1000). *)
Definition previewKey (s : StudentRecord) : string :=
  Js.toLowerCase (displayName s)
  ++ "|" ++ Js.toLowerCase (textOrEmpty (getProp s age))
  ++ "|" ++ Js.toLowerCase (textOrEmpty (getProp s teamName))
  ++ "|" ++ Js.toLowerCase (textOrEmpty (getProp s teamNumber)).

(* ================================================================== *)
(** ** Weekly activity (App.tsx, lines 663-703) *)

Definition getFullYear (host : Host) (t : Z) : Z := JsDate.YearFromTime (LocalTime host t).
Definition getMonth (host : Host) (t : Z) : Z := JsDate.MonthFromTime (LocalTime host t).
Definition getDate (host : Host) (t : Z) : Z := JsDate.DateFromTime (LocalTime host t).

(** [date.getUTCDay() || 7]. *)
Definition dayNumOf (t : Z) : Z :=
  if JsDate.WeekDay t =? 0 then 7 else JsDate.WeekDay t.

(** [weekStartMs], on the time value of a valid date ([addDate] returns
    before the call for an invalid one). The midnight of the local day and
    the Monday before it are taken within the range of time values
    ([JsDate.timeInRange]); in the last week before either end of the
    range, where the engine would give [NaN], the function does not
    apply. *)
Definition weekStartMs (host : Host) (t : Z) : Z :=
  let date := JsDate.UTC (getFullYear host t) (getMonth host t) (getDate host t) 0 0 0 0 in
  let dayNum := dayNumOf date in
  JsDate.setUTCDate date (JsDate.DateFromTime date + 1 - dayNum).

(** [fmt] of [getWeekRange]. *)
Definition fmtUTC (t : Z) : string :=
  Js.stringOfZ (JsDate.MonthFromTime t + 1) ++ "/"
  ++ Js.stringOfZ (JsDate.DateFromTime t) ++ "/"
  ++ Js.stringOfZ (JsDate.YearFromTime t).

(** [getWeekRange]; as for [weekStartMs], the first and the last day of
    the week are taken within the range of time values. *)
Definition getWeekRange (host : Host) (d : Date) : string :=
  match d with
  | InvalidDate => "NaN/NaN/NaN - NaN/NaN/NaN"
  | ValidDate t =>
      let date := JsDate.UTC (getFullYear host t) (getMonth host t) (getDate host t) 0 0 0 0 in
      let dayNum := dayNumOf date in
      let date := JsDate.setUTCDate date (JsDate.DateFromTime date + 1 - dayNum) in
      let start := date in
      let end_ := JsDate.setUTCDate date (JsDate.DateFromTime date + 6) in
      fmtUTC start ++ " - " ++ fmtUTC end_
  end.

(** [weekMap.set(key, (weekMap.get(key) ?? 0) + 1)] on a [Map] with number
    keys, kept in insertion order. *)
Fixpoint weekMapIncr (m : list (Z * Z)) (key : Z) : list (Z * Z) :=
  match m with
  | [] => [(key, 1)]
  | (k, n) :: rest =>
      if k =? key then (k, n + 1) :: rest else (k, n) :: weekMapIncr rest key
  end.

Definition weekMapOf (host : Host) (students : list StudentRecord) : list (Z * Z) :=
  fold_left
    (fun m record =>
       match getProp record checkInDate with
       | VDate (ValidDate t) => weekMapIncr m (weekStartMs host t)
       | _ => m
       end)
    students [].

(** [entries.sort(([a], [b]) => a - b)], a stable sort on the key. *)
Fixpoint insertByKey (e : Z * Z) (l : list (Z * Z)) : list (Z * Z) :=
  match l with
  | [] => [e]
  | e' :: rest => if fst e <=? fst e' then e :: l else e' :: insertByKey e rest
  end.

Definition sortByKey (l : list (Z * Z)) : list (Z * Z) :=
  fold_right insertByKey [] l.

(** [weekCounts]: the labelled counts, in the order of [Object.entries]. *)
Definition weekCounts (host : Host) (students : list StudentRecord) : list (string * Z) :=
  fold_left
    (fun ordered e => objSet ordered (getWeekRange host (ValidDate (fst e))) (snd e))
    (sortByKey (weekMapOf host students)) [].

(* ================================================================== *)
(** ** Active check-ins (App.tsx, lines 715-763) *)

Module Active.
Record t : Set := {
  id : string;
  name : string;
  email : value;
  teamName : value;
  teamNumber : value;
  checkInDate : option Date
}.
End Active.

(** [(r.email || r.studentName || `${r.firstName ?? ''} ${r.lastName ?? ''}`)
    .trim().toLowerCase()]. *)
Definition activeId (r : StudentRecord) : string :=
  Js.toLowerCase
    (Js.trim
       (orString (readStr r email)
          (orString (readStr r studentName)
             (textOrEmpty (getProp r firstName) ++ " " ++ textOrEmpty (getProp r lastName))))).

(** [r.studentName || `${...} ${...}` || r.email || 'Unknown']. *)
Definition activeName (r : StudentRecord) : string :=
  orString (readStr r studentName)
    (orString (Some (textOrEmpty (getProp r firstName) ++ " " ++ textOrEmpty (getProp r lastName)))
       (orString (readStr r email) "Unknown")).

Definition isTrue (v : value) : bool :=
  match v with VBool true => true | _ => false end.

(** [a > b] on two [Date] objects: false when either is invalid. *)
Definition dateGt (a b : Date) : bool :=
  match a, b with
  | ValidDate x, ValidDate y => y <? x
  | _, _ => false
  end.

(** The test after [!existing]: does [ci] replace the entry kept so far? *)
Definition displaces (ci : option Date) (existing : Active.t) : bool :=
  match ci, Active.checkInDate existing with
  | Some c, Some e => dateGt c e
  | Some _, None => true
  | None, _ => false
  end.

Definition activeEntry (r : StudentRecord) : Active.t :=
  {| Active.id := activeId r;
     Active.name := activeName r;
     Active.email := getProp r email;
     Active.teamName := getProp r teamName;
     Active.teamNumber := getProp r teamNumber;
     Active.checkInDate := readDate r checkInDate |}.

(** The body of [students.forEach(...)] in [activeCheckIns]. *)
Definition latestByKeyStep (latestByKey : list (string * Active.t)) (r : StudentRecord)
  : list (string * Active.t) :=
  let checkedIn := isTrue (getProp r checkedIn) in
  let checkedOut := isTrue (getProp r checkedOut) in
  if negb checkedIn || checkedOut then latestByKey
  else
    let id := activeId r in
    if negb (Js.nonEmpty id) then latestByKey
    else
      let ci := readDate r checkInDate in
      match mapGet latestByKey id with
      | None => mapSet latestByKey id (activeEntry r)
      | Some existing =>
          if displaces ci existing then mapSet latestByKey id (activeEntry r)
          else latestByKey
      end.

Definition latestByKey (students : list StudentRecord) : list (string * Active.t) :=
  fold_left latestByKeyStep students [].

(** [values.sort((a, b) => a.name.localeCompare(b.name))], a stable sort. *)
Fixpoint insertByName (host : Host) (e : Active.t) (l : list Active.t) : list Active.t :=
  match l with
  | [] => [e]
  | e' :: rest =>
      if localeCompare host (Active.name e) (Active.name e') <=? 0 then e :: l
      else e' :: insertByName host e rest
  end.

Definition activeCheckIns (host : Host) (students : list StudentRecord) : list Active.t :=
  fold_right (insertByName host) [] (map snd (latestByKey students)).

(* ================================================================== *)
(** ** Chart colours and chart data (App.tsx, lines 99-122 and 324-351) *)

Definition colorPalette : list string :=
  [ "#2563eb"; "#16a34a"; "#db2777"; "#f59e0b"; "#0ea5e9"; "#84cc16";
    "#f97316"; "#8b5cf6"; "#ef4444"; "#14b8a6"; "#a855f7"; "#94a3b8" ].

(** [array.slice(0, end)]: a negative [end] counts from the end of the
    array. *)
Definition sliceTo {A : Type} (l : list A) (end_ : Z) : list A :=
  let len := Z.of_nat (List.length l) in
  let final := if end_ <? 0 then Z.max (len + end_) 0 else Z.min end_ len in
  firstn (Z.to_nat final) l.

(** [getPalette]: [count] is a whole number; [Array.from({ length: count },
    f)] is [f] on the indices below [count]. *)
Definition getPalette (count : Z) : list string :=
  if count <=? Z.of_nat (List.length colorPalette) then sliceTo colorPalette count
  else
    map (fun index => nth (index mod List.length colorPalette) colorPalette EmptyString)
      (seq 0 (Z.to_nat count)).

(** A value of a bucket of counts: a number, or a text that is not one. A
    bucket is a plain object, so reading a name that every object inherits
    from [Object.prototype] finds a function or an object, and adding 1 to
    it makes a text, which differs between engines and is left
    unspecified. *)
Inductive tally : Set :=
  | Tally (n : Z)
  | NotANumber.

(** The property names of [Object.prototype]. *)
Definition inheritedNames : list string :=
  [ "constructor"; "hasOwnProperty"; "isPrototypeOf"; "propertyIsEnumerable";
    "toLocaleString"; "toString"; "valueOf"; "__defineGetter__";
    "__defineSetter__"; "__lookupGetter__"; "__lookupSetter__"; "__proto__" ].

(** The own property [o[k]] of an object with string keys. *)
Fixpoint objLookup {A : Type} (o : list (string * A)) (k : string) : option A :=
  match o with
  | [] => None
  | (k', v) :: rest => if String.eqb k' k then Some v else objLookup rest k
  end.

(** [bucket[k] = (bucket[k] || 0) + 1]. *)
Definition bump (bucket : list (string * tally)) (k : string) : list (string * tally) :=
  let next :=
    match objLookup bucket k with
    | Some (Tally n) => Tally ((if n =? 0 then 0 else n) + 1)
    | Some NotANumber => NotANumber
    | None => if includes inheritedNames k then NotANumber else Tally (0 + 1)
    end in
  objSet bucket k next.

Module Chart.
Record dataset : Set := {
  label : string;
  data : list tally;
  backgroundColor : list string;
  borderWidth : option Z
}.
Record t : Set := {
  labels : list string;
  datasets : list dataset
}.
End Chart.

Definition buildBarData (counts : list (string * tally)) (label : string) : Chart.t :=
  {| Chart.labels := map fst counts;
     Chart.datasets :=
       [ {| Chart.label := label;
            Chart.data := map snd counts;
            Chart.backgroundColor := getPalette (Z.of_nat (List.length (map fst counts)));
            Chart.borderWidth := None |} ] |}.

Definition buildPieData (counts : list (string * tally)) (label : string) : Chart.t :=
  {| Chart.labels := map fst counts;
     Chart.datasets :=
       [ {| Chart.label := label;
            Chart.data := map snd counts;
            Chart.backgroundColor := getPalette (Z.of_nat (List.length (map fst counts)));
            Chart.borderWidth := Some 1 |} ] |}.

(* ================================================================== *)
(** ** Category breakdowns and totals (App.tsx, lines 556-633) *)

(** [String(v)] on a property value. *)
Definition valueToString (host : Host) (v : value) : string :=
  match v with
  | VUndefined => "undefined"
  | VNull => "null"
  | VBool true => "true"
  | VBool false => "false"
  | VNum n => numberToString n
  | VStr s => s
  | VDate d => dateToString host d
  end.

(** The body shared by the six breakdowns: [uniqueProfiles.forEach] with
    the field read, the test that skips a profile, and the bucket. *)
Definition countField (host : Host) (skip : value -> bool) (field : Profile.t -> value)
  (profiles : list (string * Profile.t)) : list (string * tally) :=
  fold_left
    (fun bucket entry =>
       let key := field (snd entry) in
       if skip key then bucket else bump bucket (valueToString host key))
    profiles [].

(** [!key]. *)
Definition falsy (v : value) : bool := negb (truthy v).

Definition countyCounts (host : Host) (profiles : list (string * Profile.t))
  : list (string * tally) :=
  countField host falsy Profile.county profiles.

Definition gradeCounts (host : Host) (profiles : list (string * Profile.t))
  : list (string * tally) :=
  countField host falsy Profile.grade profiles.

Definition genderCounts (host : Host) (profiles : list (string * Profile.t))
  : list (string * tally) :=
  countField host falsy Profile.gender profiles.

Definition zipCounts (host : Host) (profiles : list (string * Profile.t))
  : list (string * tally) :=
  countField host falsy Profile.homeZipCode profiles.

Definition schoolCounts (host : Host) (profiles : list (string * Profile.t))
  : list (string * tally) :=
  countField host falsy Profile.schoolName profiles.

Definition ageCounts (host : Host) (profiles : list (string * Profile.t))
  : list (string * tally) :=
  countField host isNullish Profile.age profiles.

(** [totalCheckIns]: the rows with a name, checked in, with a valid
    check-in date. *)
Definition totalCheckIns (students : list StudentRecord) : nat :=
  List.length
    (filter
       (fun record =>
          let hasName := Js.nonEmpty (displayName record) in
          let checkedIn := isTrue (getProp record checkedIn) in
          let hasCheckInDate := hasValidCheckIn record in
          hasName && checkedIn && hasCheckInDate)
       students).

(* ================================================================== *)
(** ** The record preview and the details of a record
       (App.tsx, lines 770-1008) *)

(** [(s.schoolName || '').trim()] and the like, on a field that holds a
    text or is absent, as the row parser leaves the text fields. *)
Definition trimmedOrEmpty (v : option string) : string :=
  Js.trim (orString v EmptyString).

Definition hasRequired (s : StudentRecord) : bool :=
  Js.nonEmpty (displayName s)
  && Js.nonEmpty (trimmedOrEmpty (readStr s schoolName))
  && negb (isNullish (getProp s age))
  && negb (isNullish (getProp s isAdult))
  && Js.nonEmpty (trimmedOrEmpty (readStr s gender)).

(** [seen.has(key)] on a [Set] of strings. *)
Definition setHas (seen : list string) (key : string) : bool :=
  existsb (String.eqb key) seen.

(** The body of the first [students.forEach], on [firstRows] and [seen]. *)
Definition firstRowsStep (acc : list StudentRecord * list string) (s : StudentRecord)
  : list StudentRecord * list string :=
  let (firstRows, seen) := acc in
  if negb (hasRequired s) then acc
  else
    let key := previewKey s in
    if setHas seen key then acc
    else ((firstRows ++ [s])%list, (seen ++ [key])%list).

Definition firstRows (students : list StudentRecord) : list StudentRecord :=
  fst (fold_left firstRowsStep students ([], [])).

(** The rows of the preview table: [firstRows.slice(0, 20)]. *)
Definition previewRows (students : list StudentRecord) : list StudentRecord :=
  sliceTo (firstRows students) 20.

(** The body of the last [students.forEach], on [seen] and [count]. *)
Definition previewCountStep (acc : list string * Z) (s : StudentRecord) : list string * Z :=
  let (seen, count) := acc in
  if negb (hasRequired s) then acc
  else
    let key := previewKey s in
    if setHas seen key then acc
    else ((seen ++ [key])%list, count + 1).

Definition previewCount (students : list StudentRecord) : Z :=
  snd (fold_left previewCountStep students ([], 0)).

(** Is the note "Showing first 20 records." displayed? *)
Definition showsFirst20Note (students : list StudentRecord) : bool :=
  20 <? previewCount students.

(** An entry of the details of a record: the times are those of valid
    dates, [None] being [null]. *)
Module Entry.
Record t : Set := {
  ci : option Z;
  co : option Z;
  et : value
}.
End Entry.

(** [d && isValidDate(d) ? d : null], as a time value. *)
Definition validTime (v : value) : option Z :=
  match v with
  | VDate (ValidDate t) => Some t
  | _ => None
  end.

Definition entryOf (s : StudentRecord) : Entry.t :=
  {| Entry.ci := validTime (getProp s checkInDate);
     Entry.co := validTime (getProp s checkOutDate);
     Entry.et := if isNullish (getProp s elapsedTime) then VNull
                 else getProp s elapsedTime |}.

(** [(a.ci ?? a.co ?? new Date(0)).getTime()]. *)
Definition entryTime (a : Entry.t) : Z :=
  match Entry.ci a with
  | Some t => t
  | None => match Entry.co a with
            | Some t => t
            | None => 0
            end
  end.

(** [entries.sort((a, b) => ta - tb)], a stable sort. *)
Fixpoint insertEntry (e : Entry.t) (l : list Entry.t) : list Entry.t :=
  match l with
  | [] => [e]
  | e' :: rest =>
      if entryTime e - entryTime e' <=? 0 then e :: l
      else e' :: insertEntry e rest
  end.

(** The entries collected and sorted for the selected record key (the
    block is rendered when the key is not the empty text). *)
Definition recordEntries (selectedRecordKey : string) (students : list StudentRecord)
  : list Entry.t :=
  fold_right insertEntry []
    (map entryOf
       (filter (fun s => String.eqb (previewKey s) selectedRecordKey) students)).

(** [selectedActive]: [None] is [undefined]. *)
Definition selectedActive (host : Host) (students : list StudentRecord)
  (selectedActiveId : string) : option Active.t :=
  find (fun a => String.eqb (Active.id a) selectedActiveId)
    (activeCheckIns host students).

(* ================================================================== *)
(** ** Vocabulary of the statements *)

(** A string made of the characters a normalised key keeps. *)
Fixpoint allKeyChars (s : string) : bool :=
  match s with
  | EmptyString => true
  | String c r => isKeyChar c && allKeyChars r
  end.

(** The year, month and day SheetJS gives for a whole serial date of the
    1900 date system: serial 1 is 1900-01-01, serial 60 the day 1900-02-29
    that the format counts, and the serials after it are one day behind. *)
Definition serialDateCode (v : Z) : option (Z * Z * Z) :=
  if (v <? 0) || (2958465 <? v) then None
  else if v =? 60 then Some (1900, 2, 29)
  else if v =? 0 then Some (1900, 1, 0)
  else
    let date := if 60 <? v then v - 1 else v in
    let t := (JsDate.MakeDay 1900 0 1 + date - 1) * JsDate.msPerDay in
    Some (JsDate.YearFromTime t, JsDate.MonthFromTime t + 1, JsDate.DateFromTime t).

(** A host in the UTC zone that reads whole serial dates, whose string
    parsers recognise nothing and which gives no number to the numerals left
    to the engine: enough to run the pipeline on inputs that do not reach
    them. *)
Definition utcHost : Host :=
  {| tzOffsetMs := 0;
     parse_date_code := fun n => match n with
                                 | Int v => serialDateCode v
                                 | Other _ => None
                                 end;
     parseISO := fun _ => InvalidDate;
     dateParse := fun _ => InvalidDate;
     localeCompare := fun a b =>
       match String.compare a b with Lt => -1 | Eq => 0 | Gt => 1 end;
     dateToString := fun _ => "Invalid Date";
     numberOf := fun _ => NaN |}.

(** The same host five hours west of UTC. *)
Definition easternHost : Host :=
  {| tzOffsetMs := -18000000;
     parse_date_code := parse_date_code utcHost;
     parseISO := parseISO utcHost;
     dateParse := dateParse utcHost;
     localeCompare := localeCompare utcHost;
     dateToString := dateToString utcHost;
     numberOf := numberOf utcHost |}.

(** A value that is not empty: neither [undefined], nor [null], nor the
    empty string. *)
Definition isPresent (v : value) : bool :=
  match v with
  | VUndefined | VNull | VStr EmptyString => false
  | _ => true
  end.

(** The header of an entry is recognised and its cell coerces to a value
    that is not empty. *)
Definition entryMaps (host : Host) (entry : string * cell) : bool :=
  match columnMap (normalizeHeaderKey (Js.trim (fst entry))) with
  | Some mappedKey => isPresent (fst (coerceField host mappedKey (snd entry)))
  | None => false
  end.

(** The record [parseRow] has built when it returns. *)
Definition constructedRecord (host : Host) (row : list (string * cell)) : StudentRecord :=
  withCompositeName (fst (fold_left (parseRowStep host) row ([], false))).

(** The fields read by the default arm of the [switch]: the text fields
    other than [email]. *)
Definition isTextKey (k : ColumnKey) : bool :=
  match k with
  | firstName | lastName | studentName | schoolName | homeZipCode | county
  | grade | gender | heardAbout | careerInterest | hobbies | teamName => true
  | _ => false
  end.

(** The tri-state flags. *)
Definition isFlagKey (k : ColumnKey) : bool :=
  match k with
  | checkedIn | checkedOut | isAdult => true
  | _ => false
  end.

(** The score of a sheet row in header detection. *)
Definition rowScore (row : list cell) : Z := headerScore (rowLabels row).

(** A header label that normalises to a recognised field. *)
Definition recognisedLabel (label : string) : bool :=
  match columnMap (normalizeHeaderKey label) with
  | Some _ => true
  | None => false
  end.

(** The record passes the gate of [uniqueProfiles]: a name, a valid
    check-in date and a key that is more than its separators. *)
Definition profiled (s : StudentRecord) : bool :=
  Js.nonEmpty (displayName s) && hasValidCheckIn s
  && Js.nonEmpty (removePipes (profileKey s)).

(** Two records with the same name, age and team fields. *)
Definition sameIdentity (r1 r2 : StudentRecord) : Prop :=
  getProp r1 studentName = getProp r2 studentName
  /\ getProp r1 firstName = getProp r2 firstName
  /\ getProp r1 lastName = getProp r2 lastName
  /\ getProp r1 age = getProp r2 age
  /\ getProp r1 teamName = getProp r2 teamName
  /\ getProp r1 teamNumber = getProp r2 teamNumber.

(** A visit of Ann Lee, aged 12, of team number 5, under a given spelling
    of the team name, county and check-in time, as the row parser builds
    it (the team number is read by the default arm, as a text). *)
Definition annLee (team countyName : string) (t : Z) : StudentRecord :=
  [ (studentName, VStr "Ann Lee"); (age, VNum 12); (teamName, VStr team);
    (teamNumber, VStr "5"); (county, VStr countyName);
    (checkInDate, VDate (ValidDate t)) ].

(** A sheet with two visits of Ann Lee, on 2024-01-01 and 2024-01-05
    (serial dates 45292 and 45296), the team name written in two ways. *)
Definition teamSheet : list (list cell) :=
  [ [CStr "Name"; CStr "Age"; CStr "Team Name"; CStr "Team Number"; CStr "County";
     CStr "Check-In Date"];
    [CStr "Ann Lee"; CNum 12; CStr "Robots"; CNum 5; CStr "Wake"; CNum 45292];
    [CStr "Ann Lee"; CNum 12; CStr "ROBOTS"; CNum 5; CStr "Wake"; CNum 45296] ].

(** A visit under the name "|". *)
Definition pipeNamed (countyName : string) (t : Z) : StudentRecord :=
  [ (studentName, VStr "|"); (county, VStr countyName);
    (checkInDate, VDate (ValidDate t)) ].

(** The record passes the gate of [activeCheckIns]: checked in, not checked
    out, and with an e-mail or a name to stand as its key. *)
Definition activeOk (r : StudentRecord) : bool :=
  isTrue (getProp r checkedIn) && negb (isTrue (getProp r checkedOut))
  && Js.nonEmpty (activeId r).

(** The check-in date of the record is a valid date or is absent, as the
    row parser leaves it. *)
Definition wellDated (r : StudentRecord) : Prop :=
  readDate r checkInDate <> Some InvalidDate.

(** The check-in time of a record, when it has one. *)
Definition checkInTime (r : StudentRecord) : option Z :=
  match readDate r checkInDate with
  | Some (ValidDate t) => Some t
  | _ => None
  end.

(** Order of check-in times, no time being before every time. *)
Definition earlier (a b : option Z) : Prop :=
  match a, b with
  | None, Some _ => True
  | Some x, Some y => x < y
  | _, None => False
  end.

Definition notLater (a b : option Z) : Prop :=
  match a, b with
  | None, _ => True
  | Some x, Some y => x <= y
  | Some _, None => False
  end.

(** A record of the e-mail "a@b.com", checked in at a given time and not
    checked out. *)
Definition abCheckIn (t : Z) : StudentRecord :=
  [ (email, VStr "a@b.com"); (checkedIn, VBool true); (checkedOut, VBool false);
    (checkInDate, VDate (ValidDate t)) ].

(** The number of days of a month (1 to 12) of a year. *)
Definition daysInMonth (year month : Z) : Z :=
  if month =? 2 then (if JsDate.isLeapYear year then 29 else 28)
  else if (month =? 4) || (month =? 6) || (month =? 9) || (month =? 11) then 30
  else 31.

(** A string of decimal digits. *)
Fixpoint allDigits (s : string) : bool :=
  match s with
  | EmptyString => true
  | String c r => Js.isDigit c && allDigits r
  end.

(** A string without white space. *)
Fixpoint noWhiteSpace (s : string) : bool :=
  match s with
  | EmptyString => true
  | String c r => negb (Js.isWhiteSpace c) && noWhiteSpace r
  end.

(** The decimal value of a group of digits. *)
Definition groupNumber (g : string) : Z :=
  match digitsValue 0 g with Some v => v | None => 0 end.

(** The hour of the day, from 0 to 23, that a match writes on the 12-hour
    clock. *)
Definition stampHour24 (m : StampMatch) : Z :=
  groupNumber (m4 m) mod 12
  + (if String.eqb (Js.toUpperCaseAZ (m6 m)) "AM" then 0 else 12).

(** The offset a match states, in minutes, east of UTC positive. *)
Definition stampOffsetMinutes (m : StampMatch) : Z :=
  (if String.eqb (m7 m) "+" then 1 else -1)
  * (groupNumber (m8 m) * 60 + groupNumber (m9 m)).

(** The wall-clock fields of a match, read as a UTC date and time. *)
Definition stampWallClock (m : StampMatch) : Z :=
  JsDate.UTC (groupNumber (m1 m)) (groupNumber (m2 m) - 1) (groupNumber (m3 m))
    (stampHour24 m) (groupNumber (m5 m)) 0 0.

(** The header of an entry is mapped to the field [k]. *)
Definition mapsTo (k : ColumnKey) (entry : string * cell) : bool :=
  match columnMap (normalizeHeaderKey (Js.trim (fst entry))) with
  | Some k' => ColumnKey_beq k' k
  | None => false
  end.

(** The cell of the last entry of a row mapped to the field [k]. *)
Definition lastCell (k : ColumnKey) (row : list (string * cell)) : option cell :=
  option_map snd (find (mapsTo k) (rev row)).

(** The kinds of field of the row parser, each with its coercion. *)
Inductive FieldKind : Set :=
  FlagField | NumberField | DateField | EmailField | TextField.

Definition fieldKind (k : ColumnKey) : FieldKind :=
  match k with
  | checkedIn | checkedOut | isAdult => FlagField
  | age | siblings | parentsGuardians | yearsWithJsac | elapsedTime
  | visitsPastMonth | visitsPastQuarter | visitsPastYear => NumberField
  | firstVisitDate | checkInDate | checkOutDate => DateField
  | email => EmailField
  | _ => TextField
  end.

(** The value a field of a kind gets from a cell: the flag, the number
    or the date the cell is coerced to and [null] when there is none;
    for a text field [undefined] on an absent cell and the trimmed text
    of the cell otherwise; for the e-mail the trimmed text of the cell,
    absent or not. *)
Definition coercedAs (host : Host) (kind : FieldKind) (raw : cell) : value :=
  match kind with
  | FlagField =>
      match parseBooleanFlag raw with Some b => VBool b | None => VNull end
  | NumberField =>
      match parseNumber host raw with Some n => VNum n | None => VNull end
  | DateField =>
      match parseDateValue host raw with Some d => VDate d | None => VNull end
  | EmailField => VStr (Js.trim (cellToString host raw))
  | TextField =>
      match raw with
      | CUndefined | CNull => VUndefined
      | _ => VStr (Js.trim (cellToString host raw))
      end
  end.

(** The entry gives a value to a field: its header is recognised and the
    coercion of its cell is neither [undefined], [null] nor the empty
    text. *)
Definition givesValue (host : Host) (entry : string * cell) : bool :=
  match columnMap (normalizeHeaderKey (Js.trim (fst entry))) with
  | Some k => isPresent (coercedAs host (fieldKind k) (snd entry))
  | None => false
  end.

(** The value the row gives to the field [k]: the coercion of the last
    cell whose header is mapped to [k], [undefined] when no header is. *)
Definition assignedValue (host : Host) (row : list (string * cell)) (k : ColumnKey)
  : value :=
  match lastCell k row with
  | Some raw => coercedAs host (fieldKind k) raw
  | None => VUndefined
  end.

(** A row with a fractional age, a flag, a name and a column that is not
    recognised. *)
Definition fractionalAgeRow : list (string * cell) :=
  [("Name", CStr " Ann Lee "); ("Age", CStr "12.5");
   ("Checked In", CStr "no"); ("Notes", CStr "late")].

(* ================================================================== *)
(** * Vocabulary of the further properties *)

(** The number of profiles that a breakdown counts under the text [k]:
    those that the skip test lets through and whose field reads [k]. *)
Definition countedAs (host : Host) (skip : value -> bool) (field : Profile.t -> value)
  (k : string) (profiles : list (string * Profile.t)) : Z :=
  Z.of_nat
    (List.length
       (filter
          (fun entry =>
             negb (skip (field (snd entry)))
             && String.eqb (valueToString host (field (snd entry))) k)
          profiles)).

(** The number of profiles that a breakdown counts at all. *)
Definition countedIn (skip : value -> bool) (field : Profile.t -> value)
  (profiles : list (string * Profile.t)) : Z :=
  Z.of_nat (List.length (filter (fun entry => negb (skip (field (snd entry)))) profiles)).

(** The sum of the values of a bucket, when they are all numbers. *)
Fixpoint tallySum (values : list tally) : option Z :=
  match values with
  | [] => Some 0
  | Tally n :: rest => option_map (Z.add n) (tallySum rest)
  | NotANumber :: _ => None
  end.

(** A profile with the given county and age, the rest being absent. *)
Definition profileWith (county age : value) : Profile.t :=
  {| Profile.name := "Ann Lee";
     Profile.county := county;
     Profile.homeZipCode := VUndefined;
     Profile.schoolName := VUndefined;
     Profile.age := age;
     Profile.grade := VUndefined;
     Profile.gender := VUndefined |}.

(** No profile is counted under a name that every object inherits. *)
Definition plainKeys (host : Host) (skip : value -> bool) (field : Profile.t -> value)
  (profiles : list (string * Profile.t)) : bool :=
  forallb
    (fun entry =>
       skip (field (snd entry))
       || negb (includes inheritedNames (valueToString host (field (snd entry)))))
    profiles.

(** Four profiles: two aged 0, one aged 12, one of unknown age. *)
Definition fourAges : list (string * Profile.t) :=
  [("a", profileWith VNull (VNum 0)); ("b", profileWith VNull VNull);
   ("c", profileWith VNull (VNum 12)); ("d", profileWith VNull (VNum 0))].

(** The keys of an object in its order of enumeration: the array indices
    first, each greater than the one before, then the other keys. *)
Fixpoint enumeratedFrom (lower : Z) (keys : list string) : bool :=
  match keys with
  | [] => true
  | k :: rest =>
      match arrayIndex k with
      | Some n => (lower <? n) && enumeratedFrom n rest
      | None =>
          forallb
            (fun k' => match arrayIndex k' with Some _ => false | None => true end)
            rest
      end
  end.

(** Every age is absent or a whole number that is an array index. *)
Definition agesAreIndices (profiles : list (string * Profile.t)) : bool :=
  forallb
    (fun entry =>
       match Profile.age (snd entry) with
       | VUndefined | VNull => true
       | VNum (Int n) => (0 <=? n) && (n <? 4294967295)
       | _ => false
       end)
    profiles.

(** Four profiles aged 12, 9, 12 and 10, in this order. *)
Definition agesOutOfOrder : list (string * Profile.t) :=
  [("a", profileWith VNull (VNum 12)); ("b", profileWith VNull (VNum 9));
   ("c", profileWith VNull (VNum 12)); ("d", profileWith VNull (VNum 10))].

(** A row that [totalCheckIns] counts. *)
Definition countedCheckIn (record : StudentRecord) : bool :=
  Js.nonEmpty (displayName record) && isTrue (getProp record checkedIn)
  && hasValidCheckIn record.

(** A visit of Ann Lee with the fields that the record preview requires. *)
Definition annLeeVisit (t : Z) (minutes : value) : StudentRecord :=
  [ (studentName, VStr "Ann Lee"); (schoolName, VStr "Oak Middle"); (age, VNum 12);
    (isAdult, VBool false); (gender, VStr "F"); (checkedIn, VBool true);
    (checkInDate, VDate (ValidDate t)); (elapsedTime, minutes) ].

(** The order of the entries of a record: by check-in time, else check-out
    time, else the epoch. *)
Definition entryBefore (a b : Entry.t) : Prop := entryTime a <= entryTime b.

(** The records of the sheet that bear a given preview key. *)
Definition recordsOfKey (key : string) (students : list StudentRecord)
  : list StudentRecord :=
  filter (fun s => String.eqb (previewKey s) key) students.

(** A text without white space at either end. *)
Definition isTrimmed (s : string) : bool := String.eqb (Js.trim s) s.

(** What the row parser may leave in a field: a flag or [null] in the
    three flags; a number or [null] in the numeric fields; a valid date or
    [null] in the three dates; a trimmed text in the text fields, the team
    number among them; and nothing in the fields to which no header is
    mapped. Every field may be absent. *)
Definition fieldShape (k : ColumnKey) (v : value) : bool :=
  match k with
  | checkedIn | checkedOut | isAdult =>
      match v with VUndefined | VNull | VBool _ => true | _ => false end
  | age | siblings | parentsGuardians | elapsedTime =>
      match v with VUndefined | VNull | VNum _ => true | _ => false end
  | firstVisitDate | checkInDate | checkOutDate =>
      match v with VUndefined | VNull | VDate (ValidDate _) => true | _ => false end
  | firstName | lastName | yearsWithJsac | heardAbout | visitsPastMonth
  | visitsPastQuarter | visitsPastYear | checkInDates =>
      match v with VUndefined => true | _ => false end
  | _ =>
      match v with VUndefined => true | VStr s => isTrimmed s | _ => false end
  end.



(** The label of the week that starts at [start]: its first and its
    seventh day. *)
Definition weekLabel (start : Z) : string :=
  fmtUTC start ++ " - " ++ fmtUTC (start + 6 * JsDate.msPerDay).

(** The comparison of the host orders the names: any two names are
    comparable, and the order is transitive. *)
Definition collates (host : Host) : Prop :=
  (forall a b, localeCompare host a b <= 0 \/ localeCompare host b a <= 0)
  /\ (forall a b c,
        localeCompare host a b <= 0 -> localeCompare host b c <= 0 ->
        localeCompare host a c <= 0).

(** The order of the active list: by name, under the comparison of the
    host. *)
Definition nameBefore (host : Host) (a b : Active.t) : Prop :=
  localeCompare host (Active.name a) (Active.name b) <= 0.

(** The labels of the header row of a sheet. *)
Definition headerLabelsOf (rows : list (list cell)) : list string :=
  map cellLabel (nth (bestHeaderIndex rows) rows []).

(** The cell that a data row holds under the header [h]: that of the last
    column so labelled in which the row has a cell. *)
Definition cellUnder (h : string) (headerLabels : list string) (row : list cell)
  : option cell :=
  option_map snd
    (find
       (fun column =>
          String.eqb (fst column) h
          && match snd column with CUndefined => false | _ => true end)
       (rev (combine headerLabels row))).

(* ================================================================== *)
(** * Properties *)

(** ** Header normalisation *)

Lemma isKeyChar_inert (c : ascii) :
  isKeyChar c = true ->
  Js.toLowerChar c = c
  /\ (Js.code c =? 10)%N = false
  /\ (Js.code c =? 13)%N = false
  /\ (Js.code c =? 40)%N = false
  /\ Ascii.eqb "&" c = false
  /\ Js.isWhiteSpace c = false.
Proof.
  destruct c as [[] [] [] [] [] [] [] []]; vm_compute; intro H;
    solve [ discriminate H | repeat split; reflexivity ].
Qed.

Lemma keepKeyChars_allKeyChars (s : string) : allKeyChars (keepKeyChars s) = true.
Proof.
  induction s as [|c r IH]; simpl; [reflexivity|].
  destruct (isKeyChar c) eqn:E; simpl; [rewrite E|]; assumption.
Qed.

Lemma toLowerCase_key (s : string) : allKeyChars s = true -> Js.toLowerCase s = s.
Proof.
  induction s as [|c r IH]; simpl; [reflexivity|].
  intros [Hc Hr]%andb_prop.
  destruct (isKeyChar_inert c Hc) as (-> & _). now rewrite IH.
Qed.

Lemma collapseNewlines_key (s : string) (b : bool) :
  allKeyChars s = true -> collapseNewlines b s = s.
Proof.
  revert b; induction s as [|c r IH]; intros b; simpl; [reflexivity|].
  intros [Hc Hr]%andb_prop.
  destruct (isKeyChar_inert c Hc) as (_ & -> & -> & _). simpl.
  now rewrite IH.
Qed.

Lemma stripParens_key (s : string) : allKeyChars s = true -> stripParens false s = s.
Proof.
  induction s as [|c r IH]; simpl; [reflexivity|].
  intros [Hc Hr]%andb_prop.
  destruct (isKeyChar_inert c Hc) as (_ & _ & _ & -> & _). simpl.
  now rewrite IH.
Qed.

Lemma replaceAmp_key (s : string) : allKeyChars s = true -> replaceAmp 0 s = s.
Proof.
  induction s as [|c r IH]; [reflexivity|].
  cbn [allKeyChars replaceAmp Js.startsWith].
  intros [Hc Hr]%andb_prop.
  destruct (isKeyChar_inert c Hc) as (_ & _ & _ & _ & -> & _).
  cbn [andb]. now rewrite IH.
Qed.

Lemma keepKeyChars_key (s : string) : allKeyChars s = true -> keepKeyChars s = s.
Proof.
  induction s as [|c r IH]; simpl; [reflexivity|].
  intros [Hc Hr]%andb_prop. rewrite Hc. now rewrite IH.
Qed.

Lemma trim_noWhiteSpace (s : string) : noWhiteSpace s = true -> Js.trim s = s.
Proof.
  intros H. unfold Js.trim.
  assert (Hs : Js.trimStart s = s).
  { destruct s as [|c r]; [reflexivity|]. cbn [noWhiteSpace] in H.
    apply andb_prop in H as [Hc _]. cbn [Js.trimStart].
    now destruct (Js.isWhiteSpace c). }
  rewrite Hs. clear Hs.
  induction s as [|c r IH]; [reflexivity|]. cbn [noWhiteSpace] in H.
  apply andb_prop in H as [Hc Hr]. cbn [Js.trimEnd]. rewrite (IH Hr).
  destruct (Js.isWhiteSpace c); [discriminate Hc|]. now destruct r.
Qed.

Lemma allKeyChars_noWhiteSpace (s : string) :
  allKeyChars s = true -> noWhiteSpace s = true.
Proof.
  induction s as [|c r IH]; [reflexivity|]. cbn [allKeyChars noWhiteSpace].
  intros [Hc Hr]%andb_prop.
  destruct (isKeyChar_inert c Hc) as (_ & _ & _ & _ & _ & ->). now rewrite IH.
Qed.

Lemma trim_key (s : string) : allKeyChars s = true -> Js.trim s = s.
Proof. intros H. now apply trim_noWhiteSpace, allKeyChars_noWhiteSpace. Qed.

(** A normalised key is made of lower-case letters, digits and question
    marks only. *)
Lemma normalizeHeaderKey_allKeyChars (s : string) :
  allKeyChars (normalizeHeaderKey s) = true.
Proof.
  unfold normalizeHeaderKey.
  rewrite trim_key; apply keepKeyChars_allKeyChars.
Qed.

Lemma normalizeHeaderKey_key (k : string) :
  allKeyChars k = true -> normalizeHeaderKey k = k.
Proof.
  intros H. unfold normalizeHeaderKey.
  rewrite (toLowerCase_key k H), (collapseNewlines_key k false H),
    (stripParens_key k H), (replaceAmp_key k H), (keepKeyChars_key k H).
  now apply trim_key.
Qed.

(** C9. Header normalisation is idempotent: normalising a key that is
    already normalised gives the key back, for every string. *)
Theorem normalizeHeaderKey_idempotent (s : string) :
  normalizeHeaderKey (normalizeHeaderKey s) = normalizeHeaderKey s.
Proof.
  apply normalizeHeaderKey_key, normalizeHeaderKey_allKeyChars.
Qed.

(* ================================================================== *)
(** ** Calendar arithmetic *)

Module JsDateFacts.
Import JsDate.

Ltac divlia := unfold msPerDay, msPerHour, msPerMinute in *; Z.div_mod_to_equations; lia.

Lemma Day_MakeDate (day tm : Z) :
  0 <= tm < msPerDay -> Day (MakeDate day tm) = day.
Proof. unfold Day, MakeDate. intros H. divlia. Qed.


(** Four hundred times the first day of a year, within two days of the
    mean. *)
Lemma DayFromYear_mean (y : Z) :
  146097 * (y - 1970) - 506 <= 400 * DayFromYear y <= 146097 * (y - 1970) + 589.
Proof. unfold DayFromYear. divlia. Qed.

(** [yearFromDay d] is the year whose days include [d]. *)
Lemma yearFromDay_spec (d : Z) :
  DayFromYear (yearFromDay d) <= d < DayFromYear (yearFromDay d + 1).
Proof.
  unfold yearFromDay.
  set (q := (400 * d) / 146097).
  assert (Hq : 146097 * q <= 400 * d < 146097 * (q + 1)) by (subst q; divlia).
  pose proof (DayFromYear_mean (1970 + q + 1 + 1)) as H2.
  pose proof (DayFromYear_mean (1970 + q - 1)) as H0.
  destruct (Z.leb_spec (DayFromYear (1970 + q + 1)) d) as [L1|L1].
  - lia.
  - destruct (Z.leb_spec (DayFromYear (1970 + q)) d) as [L2|L2].
    + lia.
    + replace (1970 + q - 1 + 1) with (1970 + q) by lia. lia.
Qed.

Lemma DayFromYear_succ (y : Z) :
  DayFromYear (y + 1) = DayFromYear y + (if isLeapYear y then 366 else 365).
Proof.
  unfold DayFromYear, isLeapYear.
  destruct (Z.eqb_spec (y mod 4) 0), (Z.eqb_spec (y mod 100) 0),
    (Z.eqb_spec (y mod 400) 0); cbn [andb orb negb]; divlia.
Qed.

Lemma DayFromYear_mono (y1 y2 : Z) : y1 <= y2 -> DayFromYear y1 <= DayFromYear y2.
Proof. unfold DayFromYear. intros H. divlia. Qed.

(** The year of a day is determined by the bracket it lies in. *)
Lemma yearFromDay_unique (d y : Z) :
  DayFromYear y <= d < DayFromYear (y + 1) -> yearFromDay d = y.
Proof.
  intros [Hlo Hhi]. pose proof (yearFromDay_spec d) as [Slo Shi].
  destruct (Z.lt_trichotomy (yearFromDay d) y) as [Hlt|[Heq|Hgt]]; [|exact Heq|].
  - pose proof (DayFromYear_mono (yearFromDay d + 1) y ltac:(lia)). lia.
  - pose proof (DayFromYear_mono (y + 1) (yearFromDay d) ltac:(lia)). lia.
Qed.

Lemma MonthFromTime_range (t : Z) : 0 <= MonthFromTime t <= 11.
Proof.
  unfold MonthFromTime.
  repeat match goal with |- context [if ?b then _ else _] => destruct b end; lia.
Qed.

Lemma MakeDay_month_index (y m dt : Z) :
  0 <= m <= 11 ->
  MakeDay y m dt = DayFromYear y + monthStart m (if isLeapYear y then 1 else 0) + dt - 1.
Proof.
  intros H. unfold MakeDay.
  replace (m / 12) with 0 by divlia. replace (m mod 12) with m by divlia.
  now rewrite Z.add_0_r.
Qed.

(** The day number of a time value from its year, month and date. *)
Lemma MakeDay_fields (t dt : Z) :
  MakeDay (YearFromTime t) (MonthFromTime t) dt = Day t - DateFromTime t + dt.
Proof.
  rewrite MakeDay_month_index by apply MonthFromTime_range.
  unfold DateFromTime, DayWithinYear, InLeapYear. lia.
Qed.

(** Setting the day of the month moves the time value by whole days. *)
Lemma setUTCDate_shift (t k : Z) :
  setUTCDate t (DateFromTime t + k) = t + k * msPerDay.
Proof.
  unfold setUTCDate. rewrite MakeDay_fields.
  unfold MakeDate, Day, TimeWithinDay. divlia.
Qed.

Lemma Day_shift (t k : Z) : Day (t + k * msPerDay) = Day t + k.
Proof. unfold Day. divlia. Qed.

Lemma TimeWithinDay_shift (t k : Z) : TimeWithinDay (t + k * msPerDay) = TimeWithinDay t.
Proof. unfold TimeWithinDay. divlia. Qed.

End JsDateFacts.

(* ================================================================== *)
(** ** Weekly activity *)

Section WeekStart.
Import JsDate JsDateFacts.

Lemma weekStartMs_eq (host : Host) (t : Z) :
  let date := UTC (getFullYear host t) (getMonth host t) (getDate host t) 0 0 0 0 in
  weekStartMs host t = date + (1 - dayNumOf date) * msPerDay.
Proof.
  cbv zeta. unfold weekStartMs. rewrite <- setUTCDate_shift. f_equal. lia.
Qed.

Lemma UTC_midnight (y m d : Z) : UTC y m d 0 0 0 0 = MakeDay (fullYear y) m d * msPerDay.
Proof. unfold UTC, MakeDate, MakeTime. lia. Qed.

(** The key of a weekly bucket is a Monday at 00:00 UTC, whatever the
    host and the date. *)
Lemma weekStartMs_monday (host : Host) (t : Z) :
  WeekDay (weekStartMs host t) = 1 /\ TimeWithinDay (weekStartMs host t) = 0.
Proof.
  rewrite weekStartMs_eq. cbv zeta. rewrite UTC_midnight.
  set (n := MakeDay _ _ _). unfold dayNumOf, WeekDay.
  replace (Day (n * msPerDay)) with n by (unfold Day; divlia).
  split.
  - rewrite Day_shift. replace (Day (n * msPerDay)) with n by (unfold Day; divlia).
    destruct (Z.eqb_spec ((n + 4) mod 7) 0); divlia.
  - rewrite TimeWithinDay_shift. unfold TimeWithinDay. divlia.
Qed.

(** The key is the Monday of the week of the local calendar day: the day
    itself on a Monday, six days before it on a Sunday. (Years 0 to 99
    aside, which [Date.UTC] reads as 1900 to 1999.) *)
Lemma weekStartMs_of_local_day (host : Host) (t : Z) :
  let n := Day (LocalTime host t) in
  ~ (0 <= YearFromTime (LocalTime host t) <= 99) ->
  weekStartMs host t = (n - (n + 3) mod 7) * msPerDay.
Proof.
  cbv zeta. intros Hy. rewrite weekStartMs_eq. cbv zeta. rewrite UTC_midnight.
  unfold getFullYear, getMonth, getDate.
  replace (fullYear (YearFromTime (LocalTime host t)))
    with (YearFromTime (LocalTime host t))
    by (unfold fullYear;
        destruct (Z.leb_spec 0 (YearFromTime (LocalTime host t))),
          (Z.leb_spec (YearFromTime (LocalTime host t)) 99); cbn [andb]; lia).
  rewrite MakeDay_fields.
  set (n := Day (LocalTime host t)).
  replace (n - DateFromTime (LocalTime host t) + DateFromTime (LocalTime host t))
    with n by lia.
  unfold dayNumOf, WeekDay.
  replace (Day (n * msPerDay)) with n by (unfold Day; divlia).
  destruct (Z.eqb_spec ((n + 4) mod 7) 0); divlia.
Qed.

(** The bucket of a date depends on its local calendar day only. *)
Lemma weekStartMs_day (host : Host) (t : Z) :
  weekStartMs host t = weekStartMs utcHost (Day (LocalTime host t) * msPerDay).
Proof.
  unfold weekStartMs, getFullYear, getMonth, getDate, DateFromTime,
    MonthFromTime, DayWithinYear, InLeapYear, YearFromTime.
  replace (Day (LocalTime utcHost (Day (LocalTime host t) * msPerDay)))
    with (Day (LocalTime host t)); [reflexivity|].
  unfold LocalTime, Day; cbn [tzOffsetMs utcHost]. divlia.
Qed.

Lemma getWeekRange_host (h1 h2 : Host) (d : Date) :
  tzOffsetMs h1 = tzOffsetMs h2 -> getWeekRange h1 d = getWeekRange h2 d.
Proof.
  intros H. destruct d as [t|]; [|reflexivity].
  unfold getWeekRange, getFullYear, getMonth, getDate, LocalTime.
  now rewrite H.
Qed.

Lemma weekCounts_single (host : Host) (r : StudentRecord) (t : Z) :
  getProp r checkInDate = VDate (ValidDate t) ->
  weekCounts host [r]
  = objSet [] (getWeekRange host (ValidDate (weekStartMs host t))) 1.
Proof.
  intros H. unfold weekCounts, weekMapOf. cbn [fold_left]. rewrite H.
  reflexivity.
Qed.

(** C1 (the code departs from the claim). The key of every weekly bucket
    is a Monday at 00:00 UTC, never a Sunday; and on a host in the UTC
    zone, a check-in at any time of Wednesday 2024-01-03 is counted under
    "1/1/2024 - 1/7/2024" and one of Tuesday 2024-01-09 under
    "1/8/2024 - 1/14/2024": the weeks run from Monday to Sunday. *)
Theorem weekCounts_anchored_on_monday :
  (forall (host : Host) (t : Z),
      WeekDay (weekStartMs host t) = 1
      /\ TimeWithinDay (weekStartMs host t) = 0)
  /\ (forall (host : Host) (r : StudentRecord) (ms : Z),
         tzOffsetMs host = 0 -> 0 <= ms < msPerDay ->
         getProp r checkInDate = VDate (ValidDate (UTC 2024 0 3 0 0 0 0 + ms)) ->
         weekCounts host [r] = [("1/1/2024 - 1/7/2024", 1)])
  /\ (forall (host : Host) (r : StudentRecord) (ms : Z),
         tzOffsetMs host = 0 -> 0 <= ms < msPerDay ->
         getProp r checkInDate = VDate (ValidDate (UTC 2024 0 9 0 0 0 0 + ms)) ->
         weekCounts host [r] = [("1/8/2024 - 1/14/2024", 1)]).
Proof.
  split; [exact weekStartMs_monday|].
  split; intros host r ms Htz Hms Hr;
    rewrite (weekCounts_single host r _ Hr), weekStartMs_day;
    rewrite (getWeekRange_host host utcHost) by exact Htz;
    unfold LocalTime; rewrite Htz.
  - replace (Day (UTC 2024 0 3 0 0 0 0 + ms + 0)) with 19725
      by (change (UTC 2024 0 3 0 0 0 0) with 1704240000000; unfold Day; divlia).
    vm_compute. reflexivity.
  - replace (Day (UTC 2024 0 9 0 0 0 0 + ms + 0)) with 19731
      by (change (UTC 2024 0 9 0 0 0 0) with 1704758400000; unfold Day; divlia).
    vm_compute. reflexivity.
Qed.
End WeekStart.

(** The two check-ins of the claim, at noon UTC. *)
Lemma weekCounts_anchored_on_monday_witness :
  weekCounts utcHost [[(checkInDate, VDate (ValidDate (JsDate.UTC 2024 0 3 0 0 0 0 + 43200000)))]]
  = [("1/1/2024 - 1/7/2024", 1)]
  /\ weekCounts utcHost [[(checkInDate, VDate (ValidDate (JsDate.UTC 2024 0 9 0 0 0 0 + 43200000)))]]
     = [("1/8/2024 - 1/14/2024", 1)].
Proof.
  split.
  - apply (proj1 (proj2 weekCounts_anchored_on_monday) utcHost _ 43200000);
      [reflexivity | unfold JsDate.msPerDay; lia | reflexivity].
  - apply (proj2 (proj2 weekCounts_anchored_on_monday) utcHost _ 43200000);
      [reflexivity | unfold JsDate.msPerDay; lia | reflexivity].
Defined.

(** West of UTC the label is computed from the local day of the Monday
    key, which is the Sunday before it, and names the week before: the
    Wednesday check-in appears under "12/25/2023 - 12/31/2023". *)
Lemma weekCounts_label_west_of_utc :
  weekCounts easternHost [[(checkInDate, VDate (ValidDate (JsDate.UTC 2024 0 3 17 0 0 0)))]]
  = [("12/25/2023 - 12/31/2023", 1)].
Proof. vm_compute. reflexivity. Qed.

(* ================================================================== *)
(** ** The row parser *)

Section RowParser.
Variable host : Host.

(** Every arm of the [switch] sets [hasMappedValue] exactly when the value
    it assigned is not empty. *)
Lemma coerceField_flag (mappedKey : ColumnKey) (rawValue : cell) :
  snd (coerceField host mappedKey rawValue)
  = isPresent (fst (coerceField host mappedKey rawValue)).
Proof.
  destruct mappedKey; cbn [coerceField fst snd];
    try (destruct (parseBooleanFlag rawValue); reflexivity);
    try (destruct (parseNumber host rawValue); reflexivity);
    try (destruct (parseDateValue host rawValue); reflexivity);
    try (destruct (Js.trim (cellToString host rawValue)); reflexivity);
    destruct rawValue; try reflexivity;
    match goal with |- context [Js.trim ?s] => destruct (Js.trim s) end;
    reflexivity.
Qed.

Lemma parseRowStep_unrecognised (acc : StudentRecord * bool) (key : string) (raw : cell) :
  columnMap (normalizeHeaderKey (Js.trim key)) = None ->
  parseRowStep host acc (key, raw) = acc.
Proof.
  intros H. unfold parseRowStep. destruct acc as [record flag]. rewrite H.
  now destruct (negb _).
Qed.

Lemma parseRowStep_recognised (record : StudentRecord) (flag : bool)
  (key : string) (raw : cell) (mappedKey : ColumnKey) :
  columnMap (normalizeHeaderKey (Js.trim key)) = Some mappedKey ->
  parseRowStep host (record, flag) (key, raw)
  = (setProp record mappedKey (fst (coerceField host mappedKey raw)),
     isPresent (fst (coerceField host mappedKey raw)) || flag).
Proof.
  intros H. unfold parseRowStep. rewrite H.
  destruct (normalizeHeaderKey (Js.trim key)) eqn:E; [discriminate H|].
  cbn [Js.nonEmpty negb]. rewrite <- coerceField_flag.
  destruct (coerceField host mappedKey raw) as [v mapped]. cbn [fst snd].
  now destruct mapped.
Qed.

Lemma parseRowStep_flag (acc : StudentRecord * bool) (entry : string * cell) :
  snd (parseRowStep host acc entry) = entryMaps host entry || snd acc.
Proof.
  destruct acc as [record flag], entry as [key raw]. unfold entryMaps. cbn [fst snd].
  destruct (columnMap (normalizeHeaderKey (Js.trim key))) as [mappedKey|] eqn:E.
  - now rewrite (parseRowStep_recognised _ _ _ _ _ E).
  - now rewrite (parseRowStep_unrecognised _ _ _ E).
Qed.

(** [hasMappedValue] after the loop: some entry mapped a value. *)
Lemma parseRow_flag (row : list (string * cell)) (acc : StudentRecord * bool) :
  snd (fold_left (parseRowStep host) row acc) = existsb (entryMaps host) row || snd acc.
Proof.
  revert acc. induction row as [|entry rest IH]; intros acc; cbn [fold_left existsb].
  - reflexivity.
  - rewrite IH, parseRowStep_flag.
    destruct (entryMaps host entry), (existsb (entryMaps host) rest), (snd acc);
      reflexivity.
Qed.

Lemma parseRow_eq (row : list (string * cell)) :
  parseRow host row
  = if existsb (entryMaps host) row then Some (constructedRecord host row) else None.
Proof.
  unfold parseRow, constructedRecord.
  pose proof (parseRow_flag row ([], false)) as H.
  destruct (fold_left (parseRowStep host) row ([], false)) as [record flag].
  cbn [fst snd] in *. subst flag. now rewrite orb_false_r.
Qed.

Lemma fold_unrecognised (rows : list (string * cell)) (acc : StudentRecord * bool) :
  (forall key raw, In (key, raw) rows ->
     columnMap (normalizeHeaderKey (Js.trim key)) = None) ->
  fold_left (parseRowStep host) rows acc = acc.
Proof.
  revert acc. induction rows as [|[key raw] rest IH]; intros acc H; cbn [fold_left].
  - reflexivity.
  - rewrite parseRowStep_unrecognised by (apply (H key raw); now left).
    apply IH. intros k v Hin. apply (H k v). now right.
Qed.

(** C10. A flag coerced to [false] counts as a mapped value: a row that
    holds a flag cell ([checkedIn], [checkedOut] or [isAdult]) coercing to
    [false] is returned as a record, and when that cell is the only
    recognised one the record is exactly the flag set to [false]. *)
Theorem parseRow_keeps_false_flag
  (before after : list (string * cell)) (key : string) (raw : cell) (flag : ColumnKey) :
  isFlagKey flag = true ->
  columnMap (normalizeHeaderKey (Js.trim key)) = Some flag ->
  parseBooleanFlag raw = Some false ->
  parseRow host (before ++ (key, raw) :: after)
  = Some (constructedRecord host (before ++ (key, raw) :: after))
  /\ ((forall k v, In (k, v) (before ++ after) ->
         columnMap (normalizeHeaderKey (Js.trim k)) = None) ->
      parseRow host (before ++ (key, raw) :: after) = Some [(flag, VBool false)]).
Proof.
  intros Hflag Hkey Hraw.
  assert (Hcoerce : fst (coerceField host flag raw) = VBool false).
  { destruct flag; try discriminate Hflag; cbn [coerceField fst]; now rewrite Hraw. }
  assert (Hmaps : existsb (entryMaps host) (before ++ (key, raw) :: after) = true).
  { apply existsb_exists. exists (key, raw). split; [apply in_elt|].
    unfold entryMaps. cbn [fst snd]. now rewrite Hkey, Hcoerce. }
  rewrite parseRow_eq, Hmaps. split; [reflexivity|].
  intros Hothers. f_equal. unfold constructedRecord.
  rewrite fold_left_app. cbn [fold_left].
  rewrite (fold_unrecognised before)
    by (intros k v Hin; apply (Hothers k v), in_or_app; now left).
  rewrite (parseRowStep_recognised _ _ _ _ _ Hkey), Hcoerce.
  rewrite (fold_unrecognised after)
    by (intros k v Hin; apply (Hothers k v), in_or_app; now right).
  cbn [fst setProp]. destruct flag; try discriminate Hflag; reflexivity.
Qed.

(** C5 (the code departs from the claim). On an absent cell the arm of
    [email] stores the text of [String(rawValue)], "null" or "undefined",
    and sets [hasMappedValue]: a row whose only cell is an empty e-mail
    is returned with the e-mail "null". The default arm, which reads the
    other text fields, stores [undefined] and does not count it. *)
Theorem email_absent_cell_is_stringified :
  coerceField host email CNull = (VStr "null", true)
  /\ coerceField host email CUndefined = (VStr "undefined", true)
  /\ parseRow host [("Email", CNull)] = Some [(email, VStr "null")]
  /\ (forall k, isTextKey k = true ->
        coerceField host k CNull = (VUndefined, false)
        /\ coerceField host k CUndefined = (VUndefined, false)).
Proof.
  repeat split; try reflexivity;
    destruct k; try discriminate H; reflexivity.
Qed.
End RowParser.

(** The row of the claim: a single cell "no" under "Checked In". *)
Lemma parseRow_keeps_false_flag_witness :
  parseRow utcHost [("Checked In", CStr "no")] = Some [(checkedIn, VBool false)].
Proof.
  apply (proj2 (parseRow_keeps_false_flag utcHost [] [] "Checked In" (CStr "no") checkedIn
                  eq_refl eq_refl eq_refl)).
  intros k v [].
Defined.

(* ================================================================== *)
(** ** Header-row detection *)

Lemma columnMap_empty : columnMap EmptyString = None.
Proof. reflexivity. Qed.

(** The score of a row counts its labels that normalise to a recognised
    field. *)
Lemma headerScore_count (labels : list string) :
  headerScore labels = Z.of_nat (List.length (filter recognisedLabel labels)).
Proof.
  unfold headerScore.
  assert (G : forall l acc,
             fold_left
               (fun count label =>
                  let normalized := normalizeHeaderKey label in
                  if negb (Js.nonEmpty normalized) then count
                  else match columnMap normalized with
                       | Some _ => count + 1
                       | None => count
                       end) l acc
             = acc + Z.of_nat (List.length (filter recognisedLabel l))).
  { induction l as [|label rest IH]; intros acc; cbn [fold_left filter].
    - cbn. lia.
    - rewrite IH. unfold recognisedLabel at 2. cbv zeta.
      destruct (normalizeHeaderKey label) as [|c k] eqn:E.
      + cbn [Js.nonEmpty negb]. now rewrite columnMap_empty.
      + cbn [Js.nonEmpty negb].
        destruct (columnMap (String c k)); cbn [List.length]; lia. }
  rewrite G. lia.
Qed.

Lemma rowScore_nonneg (row : list cell) : 0 <= rowScore row.
Proof. unfold rowScore. rewrite headerScore_count. lia. Qed.

Lemma detectStep_eq (best : nat * Z) (index : nat) (row : list cell) :
  detectStep best index row
  = if (snd best <? rowScore row) && (2 <=? rowScore row)
    then (index, rowScore row) else best.
Proof.
  unfold detectStep, rowScore. destruct (rowLabels row) eqn:E; [|reflexivity].
  cbn. now rewrite andb_false_r.
Qed.

(** The scan, from any state: either no row replaces the candidate, or the
    result is the first row of greatest score among those that do. *)
Lemma detectFrom_spec (rows : list (list cell)) :
  forall (index b0 : nat) (s0 : Z),
    (detectFrom rows index (b0, s0) = (b0, s0)
     /\ forall r, In r rows -> ~ (s0 < rowScore r /\ 2 <= rowScore r))
    \/ (exists j row,
           nth_error rows j = Some row
           /\ detectFrom rows index (b0, s0) = ((index + j)%nat, rowScore row)
           /\ 2 <= rowScore row /\ s0 < rowScore row
           /\ (forall r, In r rows -> rowScore r <= rowScore row)
           /\ (forall j' r, (j' < j)%nat -> nth_error rows j' = Some r ->
                 rowScore r < rowScore row)).
Proof.
  induction rows as [|row rest IH]; intros index b0 s0; cbn [detectFrom].
  - left. split; [reflexivity|]. intros r [].
  - rewrite detectStep_eq. cbn [snd].
    destruct (Z.ltb_spec s0 (rowScore row)) as [Hlt|Hge];
      [destruct (Z.leb_spec 2 (rowScore row)) as [H2|H2]|]; cbn [andb].
    + (* the row becomes the candidate *)
      right. destruct (IH (S index) index (rowScore row)) as [[Heq Hno]|(j & r & Hj & Heq & Hr2 & Hgt & Hmax & Hfirst)].
      * exists 0%nat, row. rewrite Heq, Nat.add_0_r.
        repeat split; try assumption; try reflexivity.
        -- intros r [<-|Hin]; [lia|]. specialize (Hno r Hin). lia.
        -- intros j' r Hj'. lia.
      * exists (S j), r. rewrite Heq.
        replace (index + S j)%nat with (S index + j)%nat by lia.
        repeat split; try assumption; try lia.
        -- intros r' [<-|Hin]; [lia|]. now apply Hmax.
        -- intros [|j'] r' Hj' Hn; cbn in Hn.
           ++ injection Hn as <-. lia.
           ++ apply (Hfirst j' r'); [lia|exact Hn].
    + destruct (IH (S index) b0 s0) as [[Heq Hno]|(j & r & Hj & Heq & Hr2 & Hgt & Hmax & Hfirst)].
      * left. split; [exact Heq|]. intros r [<-|Hin]; [lia|]. now apply Hno.
      * right. exists (S j), r. rewrite Heq.
        replace (index + S j)%nat with (S index + j)%nat by lia.
        repeat split; try assumption; try lia.
        -- intros r' [<-|Hin]; [lia|]. now apply Hmax.
        -- intros [|j'] r' Hj' Hn; cbn in Hn.
           ++ injection Hn as <-. lia.
           ++ apply (Hfirst j' r'); [lia|exact Hn].
    + destruct (IH (S index) b0 s0) as [[Heq Hno]|(j & r & Hj & Heq & Hr2 & Hgt & Hmax & Hfirst)].
      * left. split; [exact Heq|]. intros r [<-|Hin]; [lia|]. now apply Hno.
      * right. exists (S j), r. rewrite Heq.
        replace (index + S j)%nat with (S index + j)%nat by lia.
        repeat split; try assumption; try lia.
        -- intros r' [<-|Hin]; [lia|]. now apply Hmax.
        -- intros [|j'] r' Hj' Hn; cbn in Hn.
           ++ injection Hn as <-. lia.
           ++ apply (Hfirst j' r'); [lia|exact Hn].
Qed.

(** A row of score at least 2 exists: the detector selects the first row
    of greatest score. *)
Lemma bestHeaderIndex_greatest (rows : list (list cell)) (i : nat) (row : list cell) :
  nth_error rows i = Some row -> 2 <= rowScore row ->
  exists best,
    nth_error rows (bestHeaderIndex rows) = Some best
    /\ 2 <= rowScore best
    /\ (forall r, In r rows -> rowScore r <= rowScore best)
    /\ (forall j r, (j < bestHeaderIndex rows)%nat -> nth_error rows j = Some r ->
          rowScore r < rowScore best).
Proof.
  intros Hi H2. unfold bestHeaderIndex.
  destruct (detectFrom_spec rows 0 0 (-1))
    as [[Heq Hno]|(j & r & Hj & Heq & Hr2 & Hgt & Hmax & Hfirst)].
  - exfalso. apply (Hno row); [eapply nth_error_In; eassumption|lia].
  - rewrite Heq. cbn [fst Nat.add]. exists r. auto.
Qed.

(** C7. The header-row detector selects the row with the greatest number of
    labels that normalise to a recognised field when that number is at
    least 2, the earliest such row in case of a tie, and row 0 when no row
    reaches 2. In particular, when row 0 has no recognised label, row 1 has
    five and no later row has more, it selects row 1. *)
Theorem bestHeaderIndex_spec (rows : list (list cell)) :
  ((forall r, In r rows -> rowScore r < 2) -> bestHeaderIndex rows = 0%nat)
  /\ (forall i row,
        nth_error rows i = Some row -> 2 <= rowScore row ->
        exists best,
          nth_error rows (bestHeaderIndex rows) = Some best
          /\ 2 <= rowScore best
          /\ (forall r, In r rows -> rowScore r <= rowScore best)
          /\ (forall j r, (j < bestHeaderIndex rows)%nat -> nth_error rows j = Some r ->
                rowScore r < rowScore best))
  /\ (forall banner header data,
        rows = banner :: header :: data ->
        rowScore banner = 0 -> rowScore header = 5 ->
        (forall r, In r data -> rowScore r <= 5) ->
        bestHeaderIndex rows = 1%nat).
Proof.
  split; [|split].
  - intros Hall. unfold bestHeaderIndex.
    destruct (detectFrom_spec rows 0 0 (-1))
      as [[Heq Hno]|(j & r & Hj & Heq & Hr2 & Hgt & Hmax & Hfirst)].
    + now rewrite Heq.
    + apply nth_error_In in Hj. specialize (Hall r Hj). lia.
  - apply bestHeaderIndex_greatest.
  - intros banner header data -> Hb Hh Hdata.
    destruct (bestHeaderIndex_greatest (banner :: header :: data) 1 header eq_refl ltac:(lia))
      as (best & Hbest & _ & Hmax & Hfirst).
    assert (Hs : rowScore best = 5).
    { apply Z.le_antisymm.
      - apply nth_error_In in Hbest. destruct Hbest as [<-|[<-|Hin]]; [lia|lia|now apply Hdata].
      - rewrite <- Hh. apply Hmax. right. now left. }
    destruct (bestHeaderIndex (banner :: header :: data)) as [|[|b]] eqn:Eb.
    + cbn in Hbest. injection Hbest as <-. lia.
    + reflexivity.
    + specialize (Hfirst 1%nat header ltac:(lia) eq_refl). lia.
Qed.

(** A sheet with a title banner above its five headers. *)
Lemma bestHeaderIndex_spec_witness :
  bestHeaderIndex
    [ [CStr "JSAC check-in export"; CNull; CNull; CNull; CNull];
      [CStr "Name"; CStr "Age"; CStr "Grade"; CStr "County"; CStr "Check-In Date"];
      [CStr "Ann Lee"; CNum 12; CStr "7"; CStr "Wake"; CNum 45294] ] = 1%nat.
Proof.
  eapply (proj2 (proj2 (bestHeaderIndex_spec _))); [reflexivity | reflexivity | reflexivity |].
  intros r [<-|[]]. vm_compute. discriminate.
Defined.

(* ================================================================== *)
(** ** Unique profiles *)

Section MapFacts.
Context {A : Type}.

Lemma mapGet_mapSet (m : list (string * A)) (key key' : string) (v : A) :
  mapGet (mapSet m key v) key'
  = if String.eqb key key' then Some v else mapGet m key'.
Proof.
  induction m as [|[k v0] rest IH]; cbn [mapSet mapGet].
  - reflexivity.
  - destruct (String.eqb_spec k key) as [->|Hne]; cbn [mapGet].
    + now destruct (String.eqb key key').
    + rewrite IH. destruct (String.eqb_spec k key') as [->|Hne'];
        [|reflexivity].
      destruct (String.eqb_spec key key') as [->|_]; [congruence|reflexivity].
Qed.

Lemma mapSet_fresh (m : list (string * A)) (key : string) (v : A) :
  mapGet m key = None -> mapSet m key v = (m ++ [(key, v)])%list.
Proof.
  induction m as [|[k v0] rest IH]; cbn [mapSet mapGet app]; [reflexivity|].
  destruct (String.eqb k key); [discriminate|]. intros H. now rewrite IH.
Qed.

Lemma mapGet_In (m : list (string * A)) (key : string) (v : A) :
  mapGet m key = Some v -> In (key, v) m.
Proof.
  induction m as [|[k v0] rest IH]; cbn [mapGet]; [discriminate|].
  destruct (String.eqb_spec k key) as [->|Hne].
  - intros [= ->]. now left.
  - intros H. right. now apply IH.
Qed.

Lemma mapGet_None_keys (m : list (string * A)) (key : string) :
  mapGet m key = None -> ~ In key (map fst m).
Proof.
  induction m as [|[k v0] rest IH]; cbn [mapGet map fst]; [intros _ []|].
  destruct (String.eqb_spec k key) as [->|Hne]; [discriminate|].
  intros H [Heq|Hin]; [congruence|]. now apply IH.
Qed.

Lemma In_NoDup_mapGet (m : list (string * A)) (key : string) (v : A) :
  NoDup (map fst m) -> In (key, v) m -> mapGet m key = Some v.
Proof.
  induction m as [|[k v0] rest IH]; cbn [mapGet map fst]; [intros _ []|].
  intros Hnd [Heq|Hin].
  - injection Heq as -> ->. now rewrite String.eqb_refl.
  - inversion Hnd as [|? ? Hk Hrest]; subst.
    destruct (String.eqb_spec k key) as [->|Hne].
    + exfalso. apply Hk. now apply (in_map fst) in Hin.
    + now apply IH.
Qed.
End MapFacts.

Lemma find_snoc {A : Type} (f : A -> bool) (l : list A) (x : A) :
  find f (l ++ [x])%list
  = match find f l with
    | Some y => Some y
    | None => if f x then Some x else None
    end.
Proof.
  induction l as [|y rest IH]; cbn [app find]; [reflexivity|].
  now destruct (f y).
Qed.

Lemma uniqueProfilesStep_eq (m : list (string * Profile.t)) (s : StudentRecord) :
  uniqueProfilesStep m s
  = if profiled s && negb (mapHas m (profileKey s))
    then (m ++ [(profileKey s, profileOf s)])%list else m.
Proof.
  unfold uniqueProfilesStep, profiled, mapHas.
  destruct (Js.nonEmpty (displayName s)); cbn [negb orb andb]; [|reflexivity].
  destruct (hasValidCheckIn s); cbn [negb orb andb]; [|reflexivity].
  destruct (Js.nonEmpty (removePipes (profileKey s))); cbn [negb andb]; [|reflexivity].
  destruct (mapGet m (profileKey s)) eqn:E; cbn [negb]; [reflexivity|].
  now apply mapSet_fresh.
Qed.

Lemma uniqueProfiles_snoc (students : list StudentRecord) (s : StudentRecord) :
  uniqueProfiles (students ++ [s])%list = uniqueProfilesStep (uniqueProfiles students) s.
Proof. unfold uniqueProfiles. now rewrite fold_left_app. Qed.

(** First write wins: the profile under a key is the profile of the first
    record, in the order of the list, that passes the gate with that key. *)
Lemma uniqueProfiles_first (students : list StudentRecord) (key : string) :
  mapGet (uniqueProfiles students) key
  = option_map profileOf
      (find (fun s => profiled s && String.eqb (profileKey s) key) students).
Proof.
  induction students as [|s rest IH] using rev_ind; [reflexivity|].
  rewrite uniqueProfiles_snoc, uniqueProfilesStep_eq, find_snoc.
  destruct (find _ rest) as [s0|] eqn:Ef; cbn [option_map] in *.
  - destruct (profiled s && negb (mapHas (uniqueProfiles rest) (profileKey s))) eqn:E;
      [|exact IH].
    apply andb_prop in E as [_ Eh]. unfold mapHas in Eh.
    destruct (mapGet (uniqueProfiles rest) (profileKey s)) eqn:Eg; [discriminate|].
    rewrite <- (mapSet_fresh _ _ _ Eg), mapGet_mapSet.
    destruct (String.eqb (profileKey s) key) eqn:Ek; [|exact IH].
    apply String.eqb_eq in Ek. congruence.
  - unfold mapHas.
    destruct (profiled s) eqn:Ep; cbn [andb].
    + destruct (String.eqb (profileKey s) key) eqn:Ek.
      * apply String.eqb_eq in Ek. rewrite Ek, IH. cbn [negb].
        rewrite <- (mapSet_fresh _ _ _ IH), mapGet_mapSet, String.eqb_refl.
        reflexivity.
      * destruct (mapGet (uniqueProfiles rest) (profileKey s)) eqn:Eg; cbn [negb];
          [exact IH|].
        rewrite <- (mapSet_fresh _ _ _ Eg), mapGet_mapSet, Ek. exact IH.
    + exact IH.
Qed.

(** One profile per key. *)
Lemma uniqueProfiles_NoDup (students : list StudentRecord) :
  NoDup (map fst (uniqueProfiles students)).
Proof.
  induction students as [|s rest IH] using rev_ind; [constructor|].
  rewrite uniqueProfiles_snoc, uniqueProfilesStep_eq.
  destruct (profiled s && negb (mapHas (uniqueProfiles rest) (profileKey s))) eqn:E;
    [|exact IH].
  apply andb_prop in E as [_ Eh]. unfold mapHas in Eh.
  destruct (mapGet (uniqueProfiles rest) (profileKey s)) eqn:Eg; [discriminate|].
  rewrite map_app. cbn [map fst].
  apply NoDup_app; [exact IH | repeat constructor; intros [] |].
  intros k Hk [<-|[]]. now apply (mapGet_None_keys _ _ Eg).
Qed.

Lemma sameIdentity_key (r1 r2 : StudentRecord) :
  sameIdentity r1 r2 ->
  displayName r1 = displayName r2 /\ profileKey r1 = profileKey r2.
Proof.
  intros (Hn & Hf & Hl & Ha & Ht & Hnum).
  assert (Hd : displayName r1 = displayName r2)
    by (unfold displayName, readStr; now rewrite Hn, Hf, Hl).
  split; [exact Hd|].
  unfold profileKey. now rewrite Hd, Ha, Ht, Hnum.
Qed.

Lemma removePipes_app (a b : string) :
  removePipes (a ++ b) = removePipes a ++ removePipes b.
Proof.
  induction a as [|c r IH]; cbn [append removePipes]; [reflexivity|].
  destruct (Ascii.eqb c "|"); cbn [append]; now rewrite IH.
Qed.

Lemma toLowerChar_pipe (c : ascii) :
  Ascii.eqb (Js.toLowerChar c) "|" = Ascii.eqb c "|".
Proof. destruct c as [[] [] [] [] [] [] [] []]; reflexivity. Qed.

Lemma removePipes_toLowerCase (s : string) :
  Js.nonEmpty (removePipes (Js.toLowerCase s)) = Js.nonEmpty (removePipes s).
Proof.
  induction s as [|c r IH]; cbn [Js.toLowerCase removePipes]; [reflexivity|].
  rewrite toLowerChar_pipe. now destruct (Ascii.eqb c "|").
Qed.

(** A name with a character other than the separator makes a key that is
    more than its separators. *)
Lemma profiled_of_name (s : StudentRecord) :
  Js.nonEmpty (removePipes (displayName s)) = true ->
  hasValidCheckIn s = true ->
  profiled s = true.
Proof.
  intros Hname Hci. unfold profiled. rewrite Hci.
  assert (Hd : Js.nonEmpty (displayName s) = true)
    by (destruct (displayName s); [discriminate Hname|reflexivity]).
  rewrite Hd. cbn [andb]. unfold profileKey.
  rewrite removePipes_app.
  rewrite <- removePipes_toLowerCase in Hname.
  destruct (removePipes (Js.toLowerCase (displayName s))); [discriminate Hname|reflexivity].
Qed.

(** The name is compared without regard to case: two records whose names
    differ in case only, with the same age, team name and team number, have
    the same key. *)
Lemma profileKey_name_case (r1 r2 : StudentRecord) :
  Js.toLowerCase (displayName r1) = Js.toLowerCase (displayName r2) ->
  getProp r1 age = getProp r2 age ->
  getProp r1 teamName = getProp r2 teamName ->
  getProp r1 teamNumber = getProp r2 teamNumber ->
  profileKey r1 = profileKey r2.
Proof. intros Hn Ha Ht Hm. unfold profileKey. now rewrite Hn, Ha, Ht, Hm. Qed.

(** C2 (the code departs from the claim). The key of a profile holds the
    team name as written: the two visits of [teamSheet], of the same
    student and different in the case of the team name only, have
    different keys and make two profiles, while the key of the record
    preview, which lower-cases every component, is the same for both. *)
Theorem profileKey_keeps_team_name_case :
  parseSheet utcHost teamSheet
  = Some [annLee "Robots" "Wake" 1704067200000; annLee "ROBOTS" "Wake" 1704412800000]
  /\ profileKey (annLee "Robots" "Wake" 1704067200000) = "ann lee|12|12|Robots|5"
  /\ profileKey (annLee "ROBOTS" "Wake" 1704412800000) = "ann lee|12|12|ROBOTS|5"
  /\ uniqueStudentsCount
       [annLee "Robots" "Wake" 1704067200000; annLee "ROBOTS" "Wake" 1704412800000]
     = 2%nat
  /\ previewKey (annLee "Robots" "Wake" 1704067200000)
     = previewKey (annLee "ROBOTS" "Wake" 1704412800000).
Proof. repeat split; vm_compute; reflexivity. Qed.

(** C6, as stated, fails: two visits under the name "|", equal in name, age
    and team, each with a valid check-in date, the dates different, make
    no profile at all. *)
Lemma uniqueProfiles_separator_name_counterexample :
  sameIdentity (pipeNamed "Wake" 1704110400000) (pipeNamed "Durham" 1704456000000)
  /\ Js.nonEmpty (displayName (pipeNamed "Wake" 1704110400000)) = true
  /\ hasValidCheckIn (pipeNamed "Wake" 1704110400000) = true
  /\ hasValidCheckIn (pipeNamed "Durham" 1704456000000) = true
  /\ getProp (pipeNamed "Wake" 1704110400000) checkInDate
     <> getProp (pipeNamed "Durham" 1704456000000) checkInDate
  /\ uniqueProfiles [pipeNamed "Wake" 1704110400000; pipeNamed "Durham" 1704456000000] = [].
Proof. repeat split; try reflexivity. cbn. discriminate. Qed.

Lemma find_split {A : Type} (f : A -> bool) (l : list A) (x : A) :
  find f l = Some x ->
  exists before after,
    l = (before ++ x :: after)%list /\ f x = true
    /\ forall y, In y before -> f y = false.
Proof.
  induction l as [|y rest IH]; cbn [find]; [discriminate|].
  destruct (f y) eqn:E.
  - intros [= ->]. exists [], rest. repeat split; [exact E|intros z []].
  - intros H. destruct (IH H) as (before & after & -> & Hx & Hb).
    exists (y :: before), after. repeat split; [exact Hx|].
    intros z [<-|Hz]; [exact E|now apply Hb].
Qed.

(** C6, amended. Two records with the same name, age and team fields, each
    with a valid check-in date, whose key holds a character other than the
    separator, make exactly one profile, which keeps the county, zip code,
    school, grade and gender of the first. In any list that contains them
    there is exactly one profile under their key, that of the first record
    of the list passing the gate with that key; and no key has two
    profiles. *)
Theorem uniqueProfiles_first_write_wins :
  (forall r1 r2 : StudentRecord,
      sameIdentity r1 r2 ->
      Js.nonEmpty (displayName r1) = true ->
      hasValidCheckIn r1 = true -> hasValidCheckIn r2 = true ->
      Js.nonEmpty (removePipes (profileKey r1)) = true ->
      uniqueProfiles [r1; r2] = [(profileKey r1, profileOf r1)]
      /\ Profile.county (profileOf r1) = getProp r1 county
      /\ Profile.homeZipCode (profileOf r1) = getProp r1 homeZipCode
      /\ Profile.schoolName (profileOf r1) = getProp r1 schoolName
      /\ Profile.grade (profileOf r1) = getProp r1 grade
      /\ Profile.gender (profileOf r1) = getProp r1 gender)
  /\ (forall (students : list StudentRecord) (r1 r2 : StudentRecord),
        In r1 students -> In r2 students ->
        sameIdentity r1 r2 ->
        Js.nonEmpty (displayName r1) = true ->
        hasValidCheckIn r1 = true -> hasValidCheckIn r2 = true ->
        Js.nonEmpty (removePipes (profileKey r1)) = true ->
        exists before first after,
          students = (before ++ first :: after)%list
          /\ profiled first = true
          /\ profileKey first = profileKey r1
          /\ (forall r, In r before -> profiled r = true -> profileKey r <> profileKey r1)
          /\ forall p, In (profileKey r1, p) (uniqueProfiles students) <-> p = profileOf first)
  /\ (forall students : list StudentRecord, NoDup (map fst (uniqueProfiles students))).
Proof.
  split; [|split; [|exact uniqueProfiles_NoDup]].
  - intros r1 r2 Hsame Hname Hci1 Hci2 Hkey.
    split; [|repeat split].
    destruct (sameIdentity_key r1 r2 Hsame) as [Hd Hk].
    assert (Hp1 : profiled r1 = true) by (unfold profiled; now rewrite Hname, Hci1, Hkey).
    assert (Hp2 : profiled r2 = true)
      by (unfold profiled; now rewrite <- Hd, <- Hk, Hname, Hci2, Hkey).
    unfold uniqueProfiles. cbn [fold_left].
    rewrite !uniqueProfilesStep_eq, Hp1, Hp2, <- Hk. cbn [andb mapHas mapGet negb app].
    unfold mapHas. cbn [mapGet]. now rewrite String.eqb_refl.
  - intros students r1 r2 Hin1 _ _ Hname Hci1 _ Hkey.
    assert (Hp1 : profiled r1 = true) by (unfold profiled; now rewrite Hname, Hci1, Hkey).
    pose proof (uniqueProfiles_first students (profileKey r1)) as Hget.
    destruct (find (fun s => profiled s && String.eqb (profileKey s) (profileKey r1)) students)
      as [first|] eqn:Ef.
    + destruct (find_split _ _ _ Ef) as (before & after & Hsplit & Hf & Hb).
      apply andb_prop in Hf as [Hpf Hkf]. apply String.eqb_eq in Hkf.
      exists before, first, after. repeat split; try assumption.
      * intros r Hr Hpr Hkr. specialize (Hb r Hr). cbn beta in Hb.
        rewrite Hpr, Hkr, String.eqb_refl in Hb. discriminate Hb.
      * intros Hin. apply (In_NoDup_mapGet _ _ _ (uniqueProfiles_NoDup students)) in Hin.
        rewrite Hget in Hin. cbn in Hin. now injection Hin as <-.
      * intros ->. apply mapGet_In. rewrite Hget. reflexivity.
    + exfalso. apply (find_none _ _ Ef) in Hin1. cbn beta in Hin1.
      now rewrite Hp1, String.eqb_refl in Hin1.
Qed.

(** Two visits of Ann Lee, four days apart, from different counties. *)
Lemma uniqueProfiles_first_write_wins_witness :
  uniqueProfiles [annLee "Robots" "Wake" 1704110400000; annLee "Robots" "Durham" 1704456000000]
  = [(profileKey (annLee "Robots" "Wake" 1704110400000),
      profileOf (annLee "Robots" "Wake" 1704110400000))].
Proof.
  apply (proj1 uniqueProfiles_first_write_wins
           (annLee "Robots" "Wake" 1704110400000) (annLee "Robots" "Durham" 1704456000000));
    try reflexivity.
  repeat split.
Defined.

(* ================================================================== *)
(** ** Active check-ins *)

Lemma latestByKeyStep_eq (m : list (string * Active.t)) (r : StudentRecord) :
  latestByKeyStep m r
  = if activeOk r then
      match mapGet m (activeId r) with
      | None => mapSet m (activeId r) (activeEntry r)
      | Some existing =>
          if displaces (readDate r checkInDate) existing
          then mapSet m (activeId r) (activeEntry r) else m
      end
    else m.
Proof.
  unfold latestByKeyStep, activeOk.
  destruct (isTrue (getProp r checkedIn)); cbn [negb orb andb]; [|reflexivity].
  destruct (isTrue (getProp r checkedOut)); cbn [negb orb andb]; [reflexivity|].
  now destruct (Js.nonEmpty (activeId r)).
Qed.

Lemma latestByKey_snoc (students : list StudentRecord) (r : StudentRecord) :
  latestByKey (students ++ [r])%list = latestByKeyStep (latestByKey students) r.
Proof. unfold latestByKey. now rewrite fold_left_app. Qed.

(** The rule of replacement between two records: a record with a date
    displaces one without, a strictly later date displaces an earlier one,
    and nothing else does. *)
Lemma displaces_earlier (r r0 : StudentRecord) :
  wellDated r -> wellDated r0 ->
  (displaces (readDate r checkInDate) (activeEntry r0) = true
   <-> earlier (checkInTime r0) (checkInTime r))
  /\ (displaces (readDate r checkInDate) (activeEntry r0) = false
      <-> notLater (checkInTime r) (checkInTime r0)).
Proof.
  unfold wellDated, displaces, checkInTime, earlier, notLater, activeEntry, dateGt.
  cbn [Active.checkInDate].
  destruct (readDate r checkInDate) as [[t|]|], (readDate r0 checkInDate) as [[t0|]|];
    intros H H0; try (exfalso; congruence);
    try destruct (Z.ltb_spec t0 t);
    split; split; intro X;
    try reflexivity; try exact I; try discriminate X; try contradiction; lia.
Qed.

Lemma earlier_notLater_trans (a b c : option Z) :
  notLater a b -> earlier b c -> earlier a c.
Proof. destruct a, b, c; cbn; lia || tauto. Qed.

Lemma earlier_trans (a b c : option Z) : earlier a b -> earlier b c -> earlier a c.
Proof. destruct a, b, c; cbn; lia || tauto. Qed.

Lemma Forall_snoc_inv {A : Type} (P : A -> Prop) (l : list A) (x : A) :
  Forall P (l ++ [x]) -> Forall P l /\ P x.
Proof.
  intros H. apply Forall_app in H as [Hl Hx]. split; [exact Hl|].
  now inversion Hx.
Qed.

(** What the map holds under each key after the loop: nothing when no
    record passes the gate with that key; otherwise the entry of a record
    that passes it, with every earlier such record strictly before it in
    time and no later such record after it in time. *)
Lemma latestByKey_invariant (students : list StudentRecord) :
  Forall wellDated students ->
  forall id : string,
    match mapGet (latestByKey students) id with
    | None => forall r, In r students -> activeOk r = true -> activeId r <> id
    | Some e =>
        exists before r after,
          students = (before ++ r :: after)%list
          /\ activeOk r = true /\ activeId r = id /\ e = activeEntry r
          /\ (forall r', In r' before -> activeOk r' = true -> activeId r' = id ->
                earlier (checkInTime r') (checkInTime r))
          /\ (forall r', In r' after -> activeOk r' = true -> activeId r' = id ->
                notLater (checkInTime r') (checkInTime r))
    end.
Proof.
  induction students as [|r rest IH] using rev_ind; intros Hwd id.
  - cbn. intros r [].
  - apply Forall_snoc_inv in Hwd as [Hrest Hr].
    specialize (IH Hrest).
    rewrite latestByKey_snoc, latestByKeyStep_eq.
    (* the map is unchanged under [id] *)
    assert (Hsame :
      forall e0 : option Active.t, mapGet (latestByKey rest) id = e0 ->
      (activeOk r = true -> activeId r = id ->
         match e0 with
         | None => False
         | Some e => displaces (readDate r checkInDate) e = false
         end) ->
      match e0 with
      | None => forall r', In r' (rest ++ [r]) -> activeOk r' = true -> activeId r' <> id
      | Some e =>
          exists before r0 after,
            (rest ++ [r])%list = (before ++ r0 :: after)%list
            /\ activeOk r0 = true /\ activeId r0 = id /\ e = activeEntry r0
            /\ (forall r', In r' before -> activeOk r' = true -> activeId r' = id ->
                  earlier (checkInTime r') (checkInTime r0))
            /\ (forall r', In r' after -> activeOk r' = true -> activeId r' = id ->
                  notLater (checkInTime r') (checkInTime r0))
      end).
    { intros e0 He0 Hkeep. specialize (IH id). rewrite He0 in IH. destruct e0 as [e|].
      - destruct IH as (before & r0 & after & -> & Hok & Hid & -> & Hb & Ha).
        exists before, r0, (after ++ [r])%list.
        rewrite <- app_assoc. repeat split; try assumption.
        intros r' [Hin|[<-|[]]]%in_app_or Hok' Hid'; [now apply Ha|].
        specialize (Hkeep Hok' Hid').
        apply (displaces_earlier r r0); try assumption.
        apply Forall_app in Hrest as [_ Hr0]. now inversion Hr0.
      - intros r' [Hin|[<-|[]]]%in_app_or Hok' Hid'; [exact (IH r' Hin Hok' Hid')|].
        exact (Hkeep Hok' Hid'). }
    destruct (activeOk r) eqn:Hok.
    + destruct (String.eqb_spec (activeId r) id) as [Hid|Hid].
      * (* the record has the key *)
        subst id. pose proof (IH (activeId r)) as IHr.
        destruct (mapGet (latestByKey rest) (activeId r)) as [existing|] eqn:Eg.
        -- destruct (displaces (readDate r checkInDate) existing) eqn:Ed.
           ++ rewrite mapGet_mapSet, String.eqb_refl.
              destruct IHr as (before & r0 & after & Hsplit & Hok0 & Hid0 & -> & Hb & Ha).
              exists rest, r, []. repeat split; try assumption; [|intros r' []].
              assert (Hlt : earlier (checkInTime r0) (checkInTime r)).
              { apply (displaces_earlier r r0); try assumption.
                subst rest. apply Forall_app in Hrest as [_ Hr0]. now inversion Hr0. }
              intros r' Hin Hok' Hid'. subst rest.
              apply in_app_or in Hin as [Hin|[<-|Hin]].
              ** eapply earlier_trans; [now apply Hb|exact Hlt].
              ** exact Hlt.
              ** eapply earlier_notLater_trans; [now apply Ha|exact Hlt].
           ++ rewrite Eg. apply (Hsame (Some existing) eq_refl). intros _ _. exact Ed.
        -- rewrite mapGet_mapSet, String.eqb_refl.
           exists rest, r, []. repeat split; try assumption; [|intros r' []].
           intros r' Hin Hok' Hid'. exfalso. exact (IHr r' Hin Hok' Hid').
      * (* the record has another key *)
        assert (Hget : forall m', (m' = latestByKey rest
                  \/ m' = mapSet (latestByKey rest) (activeId r) (activeEntry r)) ->
                  mapGet m' id = mapGet (latestByKey rest) id).
        { intros m' [->| ->]; [reflexivity|]. rewrite mapGet_mapSet.
          destruct (String.eqb_spec (activeId r) id); [contradiction|reflexivity]. }
        match goal with |- match mapGet ?m' id with _ => _ end =>
          rewrite (Hget m') by
            (destruct (mapGet (latestByKey rest) (activeId r));
             [destruct (displaces _ _)|]; auto)
        end.
        apply (Hsame _ eq_refl). intros _ Hc. contradiction.
    + apply (Hsame _ eq_refl). intros Hc. discriminate.
Qed.

Section MapKeys.
Context {A : Type}.

Lemma In_mapSet (m : list (string * A)) (k k' : string) (v v' : A) :
  In (k', v') (mapSet m k v) -> (k' = k /\ v' = v) \/ In (k', v') m.
Proof.
  induction m as [|[k0 v0] rest IH]; cbn [mapSet].
  - intros [[= <- <-]|[]]. now left.
  - destruct (String.eqb_spec k0 k) as [->|Hne].
    + intros [[= <- <-]|Hin]; [now left|right; now right].
    + intros [Heq|Hin]; [right; now left|].
      destruct (IH Hin) as [H|H]; [now left|right; now right].
Qed.

Lemma mapSet_keys (m : list (string * A)) (k : string) (v : A) :
  map fst (mapSet m k v)
  = if mapHas m k then map fst m else (map fst m ++ [k])%list.
Proof.
  unfold mapHas. induction m as [|[k0 v0] rest IH]; cbn [mapSet mapGet map fst app].
  - reflexivity.
  - destruct (String.eqb_spec k0 k) as [->|Hne]; cbn [map fst]; [reflexivity|].
    rewrite IH. now destruct (mapGet rest k).
Qed.

Lemma mapSet_NoDup (m : list (string * A)) (k : string) (v : A) :
  NoDup (map fst m) -> NoDup (map fst (mapSet m k v)).
Proof.
  intros H. rewrite mapSet_keys. unfold mapHas.
  destruct (mapGet m k) eqn:E; [exact H|].
  apply NoDup_app; [exact H | repeat constructor; intros [] |].
  intros k' Hk' [<-|[]]. now apply (mapGet_None_keys _ _ E).
Qed.
End MapKeys.

Lemma latestByKey_keys (students : list StudentRecord) :
  NoDup (map fst (latestByKey students))
  /\ forall id e, In (id, e) (latestByKey students) -> Active.id e = id.
Proof.
  induction students as [|r rest [IHn IHk]] using rev_ind.
  - split; [constructor|intros id e []].
  - rewrite latestByKey_snoc, latestByKeyStep_eq.
    assert (Hset : NoDup (map fst (mapSet (latestByKey rest) (activeId r) (activeEntry r)))
                   /\ forall id e,
                        In (id, e) (mapSet (latestByKey rest) (activeId r) (activeEntry r)) ->
                        Active.id e = id).
    { split; [now apply mapSet_NoDup|].
      intros id e [[-> ->]|Hin]%In_mapSet; [reflexivity|now apply IHk]. }
    destruct (activeOk r); [|now split].
    destruct (mapGet (latestByKey rest) (activeId r)) as [existing|]; [|exact Hset].
    destruct (displaces _ _); [exact Hset|now split].
Qed.

Lemma insertByName_perm (host : Host) (e : Active.t) (l : list Active.t) :
  Permutation (insertByName host e l) (e :: l).
Proof.
  induction l as [|e' rest IH]; cbn [insertByName]; [reflexivity|].
  destruct (_ <=? 0); [reflexivity|].
  rewrite IH. apply perm_swap.
Qed.

(** Sorting by name keeps the entries of the map. *)
Lemma activeCheckIns_perm (host : Host) (students : list StudentRecord) :
  Permutation (activeCheckIns host students) (map snd (latestByKey students)).
Proof.
  unfold activeCheckIns.
  induction (map snd (latestByKey students)) as [|e rest IH]; cbn [fold_right];
    [reflexivity|].
  rewrite insertByName_perm. now constructor.
Qed.

Lemma activeCheckIns_In (host : Host) (students : list StudentRecord) (e : Active.t) :
  In e (activeCheckIns host students)
  <-> mapGet (latestByKey students) (Active.id e) = Some e.
Proof.
  destruct (latestByKey_keys students) as [Hnd Hid]. split.
  - intros Hin. apply (Permutation_in _ (activeCheckIns_perm host students)) in Hin.
    apply in_map_iff in Hin as ([id e'] & <- & Hin). cbn [snd].
    rewrite (Hid _ _ Hin). now apply In_NoDup_mapGet.
  - intros Hget. apply mapGet_In in Hget.
    apply (Permutation_in _ (Permutation_sym (activeCheckIns_perm host students))).
    now apply (in_map snd) in Hget.
Qed.

Lemma isTrue_iff (v : value) : isTrue v = true <-> v = VBool true.
Proof. destruct v as [| |[]| | |]; cbn; split; congruence. Qed.

(** C4. An entry of the active check-ins is the entry of a record that is
    checked in and not checked out; among the records of its key it has
    the latest check-in date, where a record with a date displaces one
    without, a strictly later date displaces an earlier one and, between
    equal dates, the record met first is kept; every key of such a record
    has exactly one entry. In particular, of two records with the e-mail
    "a@b.com", checked in and not out, the one with the later check-in
    date is retained, in either order. *)
Theorem activeCheckIns_latest :
  (forall (host : Host) (students : list StudentRecord),
      Forall wellDated students ->
      (forall e, In e (activeCheckIns host students) ->
         exists before r after,
           students = (before ++ r :: after)%list
           /\ e = activeEntry r
           /\ getProp r checkedIn = VBool true
           /\ getProp r checkedOut <> VBool true
           /\ (forall r', In r' before -> activeOk r' = true -> activeId r' = activeId r ->
                 earlier (checkInTime r') (checkInTime r))
           /\ (forall r', In r' after -> activeOk r' = true -> activeId r' = activeId r ->
                 notLater (checkInTime r') (checkInTime r)))
      /\ (forall r, In r students -> activeOk r = true ->
            exists e, In e (activeCheckIns host students) /\ Active.id e = activeId r)
      /\ NoDup (map Active.id (activeCheckIns host students)))
  /\ (forall (host : Host) (r1 r2 : StudentRecord) (t1 t2 : Z),
        getProp r1 email = VStr "a@b.com" -> getProp r2 email = VStr "a@b.com" ->
        getProp r1 checkedIn = VBool true -> getProp r2 checkedIn = VBool true ->
        getProp r1 checkedOut = VBool false -> getProp r2 checkedOut = VBool false ->
        getProp r1 checkInDate = VDate (ValidDate t1) ->
        getProp r2 checkInDate = VDate (ValidDate t2) ->
        t1 < t2 ->
        activeCheckIns host [r1; r2] = [activeEntry r2]
        /\ activeCheckIns host [r2; r1] = [activeEntry r2]
        /\ Active.checkInDate (activeEntry r2) = Some (ValidDate t2)).
Proof.
  split.
  - intros host students Hwd. split; [|split].
    + intros e Hin. apply activeCheckIns_In in Hin.
      pose proof (latestByKey_invariant students Hwd (Active.id e)) as Hinv.
      rewrite Hin in Hinv.
      destruct Hinv as (before & r & after & Hsplit & Hok & Hid & He & Hb & Ha).
      exists before, r, after. rewrite Hid.
      unfold activeOk in Hok.
      apply andb_prop in Hok as [[Hci Hco]%andb_prop _].
      apply isTrue_iff in Hci.
      repeat split; try assumption.
      intros Hc. apply isTrue_iff in Hc. now rewrite Hc in Hco.
    + intros r Hin Hok.
      pose proof (latestByKey_invariant students Hwd (activeId r)) as Hinv.
      destruct (mapGet (latestByKey students) (activeId r)) as [e|] eqn:Eg.
      * destruct Hinv as (_ & r0 & _ & _ & _ & Hid & He & _).
        exists e. split; [|now rewrite He].
        apply activeCheckIns_In. now rewrite He at 1; cbn [Active.id activeEntry]; rewrite Hid, Eg.
      * exfalso. now apply (Hinv r Hin Hok).
    + destruct (latestByKey_keys students) as [Hnd Hid].
      apply (Permutation_NoDup (l := map Active.id (map snd (latestByKey students)))).
      * apply Permutation_map, Permutation_sym, activeCheckIns_perm.
      * replace (map Active.id (map snd (latestByKey students)))
          with (map fst (latestByKey students)); [exact Hnd|].
        rewrite map_map. apply map_ext_in. intros [id e] Hin. cbn [fst snd].
        symmetry. now apply Hid.
  - intros host r1 r2 t1 t2 He1 He2 Hi1 Hi2 Ho1 Ho2 Hd1 Hd2 Hlt.
    assert (Hid : forall r, getProp r email = VStr "a@b.com" -> activeId r = "a@b.com").
    { intros r H. unfold activeId, readStr. rewrite H. reflexivity. }
    assert (Hok : forall r, getProp r email = VStr "a@b.com" ->
                    getProp r checkedIn = VBool true -> getProp r checkedOut = VBool false ->
                    activeOk r = true).
    { intros r H Hi Ho. unfold activeOk. now rewrite (Hid r H), Hi, Ho. }
    assert (Hg1 : readDate r1 checkInDate = Some (ValidDate t1)) by (unfold readDate; now rewrite Hd1).
    assert (Hg2 : readDate r2 checkInDate = Some (ValidDate t2)) by (unfold readDate; now rewrite Hd2).
    unfold activeCheckIns, latestByKey. cbn [fold_left].
    rewrite !latestByKeyStep_eq.
    rewrite (Hok r1 He1 Hi1 Ho1), (Hok r2 He2 Hi2 Ho2), (Hid r1 He1), (Hid r2 He2).
    cbn [mapGet mapSet]. cbn [String.eqb Ascii.eqb Bool.eqb mapGet mapSet].
    unfold displaces. cbn [activeEntry Active.checkInDate]. rewrite Hg1, Hg2.
    cbn [dateGt].
    destruct (Z.ltb_spec t1 t2); [|lia]. destruct (Z.ltb_spec t2 t1); [lia|].
    cbn [mapSet String.eqb Ascii.eqb Bool.eqb map snd fold_right insertByName].
    repeat split.
Qed.

(** The two records of the claim, checked in on 2024-01-01 and on
    2024-01-05 at 00:00 UTC. *)
Lemma activeCheckIns_latest_witness :
  (activeCheckIns utcHost
     [abCheckIn (JsDate.UTC 2024 0 1 0 0 0 0); abCheckIn (JsDate.UTC 2024 0 5 0 0 0 0)]
   = [activeEntry (abCheckIn (JsDate.UTC 2024 0 5 0 0 0 0))]
   /\ activeCheckIns utcHost
        [abCheckIn (JsDate.UTC 2024 0 5 0 0 0 0); abCheckIn (JsDate.UTC 2024 0 1 0 0 0 0)]
      = [activeEntry (abCheckIn (JsDate.UTC 2024 0 5 0 0 0 0))]
   /\ Active.checkInDate (activeEntry (abCheckIn (JsDate.UTC 2024 0 5 0 0 0 0)))
      = Some (ValidDate (JsDate.UTC 2024 0 5 0 0 0 0)))
  /\ NoDup
       (map Active.id
          (activeCheckIns utcHost
             [abCheckIn (JsDate.UTC 2024 0 1 0 0 0 0);
              abCheckIn (JsDate.UTC 2024 0 5 0 0 0 0)])).
Proof.
  split.
  - refine (proj2 activeCheckIns_latest utcHost
              (abCheckIn (JsDate.UTC 2024 0 1 0 0 0 0))
              (abCheckIn (JsDate.UTC 2024 0 5 0 0 0 0))
              (JsDate.UTC 2024 0 1 0 0 0 0) (JsDate.UTC 2024 0 5 0 0 0 0)
              eq_refl eq_refl eq_refl eq_refl eq_refl eq_refl eq_refl eq_refl _).
    vm_compute. reflexivity.
  - refine (proj2 (proj2 (proj1 activeCheckIns_latest utcHost _ _))).
    repeat constructor; unfold wellDated; cbn; discriminate.
Defined.

(* ================================================================== *)
(** ** Date coercion *)

Section UtcFields.
Import JsDate JsDateFacts.

Lemma monthStart_days (y m : Z) :
  1 <= m <= 12 ->
  let leap := if isLeapYear y then 1 else 0 in
  0 <= monthStart (m - 1) leap
  /\ monthStart (m - 1) leap + daysInMonth y m
     = (if m =? 12 then 365 + leap else monthStart m leap).
Proof.
  intros Hm. cbv zeta.
  assert (m = 1 \/ m = 2 \/ m = 3 \/ m = 4 \/ m = 5 \/ m = 6 \/ m = 7 \/ m = 8
          \/ m = 9 \/ m = 10 \/ m = 11 \/ m = 12) as Hcases by lia.
  unfold daysInMonth.
  repeat (destruct Hcases as [->|Hcases]); try subst m;
    cbn; destruct (isLeapYear y); cbn; lia.
Qed.

(** The calendar fields of a day built from a year, a month and a day of
    that month. *)
Lemma fields_of_MakeDay (y m d tm : Z) :
  1 <= m <= 12 -> 1 <= d <= daysInMonth y m -> 0 <= tm < msPerDay ->
  let t := MakeDate (MakeDay y (m - 1) d) tm in
  YearFromTime t = y /\ MonthFromTime t = m - 1 /\ DateFromTime t = d.
Proof.
  intros Hm Hd Htm. cbv zeta.
  pose proof (monthStart_days y m Hm) as [Hs0 Hs1]. cbv zeta in Hs0, Hs1.
  assert (Hy : YearFromTime (MakeDate (MakeDay y (m - 1) d) tm) = y).
  { unfold YearFromTime. rewrite Day_MakeDate by exact Htm.
    apply yearFromDay_unique. rewrite DayFromYear_succ.
    rewrite MakeDay_month_index by lia.
    assert (monthStart (m - 1) (if isLeapYear y then 1 else 0) + daysInMonth y m
            <= 365 + (if isLeapYear y then 1 else 0)).
    { rewrite Hs1. destruct (Z.eqb_spec m 12); [lia|].
      assert (m = 1 \/ m = 2 \/ m = 3 \/ m = 4 \/ m = 5 \/ m = 6 \/ m = 7 \/ m = 8
              \/ m = 9 \/ m = 10 \/ m = 11) as Hcases by lia.
      repeat (destruct Hcases as [->|Hcases]); try subst m;
        cbn; destruct (isLeapYear y); lia. }
    destruct (isLeapYear y); lia. }
  split; [exact Hy|].
  assert (Hdwy : DayWithinYear (MakeDate (MakeDay y (m - 1) d) tm)
                 = monthStart (m - 1) (if isLeapYear y then 1 else 0) + d - 1).
  { unfold DayWithinYear. rewrite Hy, Day_MakeDate by exact Htm.
    rewrite MakeDay_month_index by lia. lia. }
  assert (Hmonth : MonthFromTime (MakeDate (MakeDay y (m - 1) d) tm) = m - 1).
  { unfold MonthFromTime, InLeapYear. rewrite Hdwy, Hy.
    unfold daysInMonth in Hd. unfold monthStart in *.
    destruct (isLeapYear y);
      repeat match goal with
             | H : context [Z.eqb ?a ?b] |- _ =>
                 destruct (Z.eqb_spec a b); cbn [orb] in H; try lia
             | |- context [Z.eqb ?a ?b] => destruct (Z.eqb_spec a b); try lia
             | |- context [Z.ltb ?a ?b] => destruct (Z.ltb_spec a b); try lia
             end. }
  split; [exact Hmonth|].
  unfold DateFromTime, InLeapYear. rewrite Hmonth, Hdwy, Hy. lia.
Qed.

(** [Date.UTC] of a calendar date and a time of day, read back. *)
Lemma fields_of_UTC (y m d h mi : Z) :
  100 <= y -> 1 <= m <= 12 -> 1 <= d <= daysInMonth y m ->
  0 <= h < 24 -> 0 <= mi < 60 ->
  let t := UTC y (m - 1) d h mi 0 0 in
  YearFromTime t = y /\ MonthFromTime t = m - 1 /\ DateFromTime t = d
  /\ HourFromTime t = h /\ MinFromTime t = mi.
Proof.
  intros Hy Hm Hd Hh Hmi. cbv zeta. unfold UTC.
  replace (fullYear y) with y
    by (unfold fullYear; destruct (Z.leb_spec 0 y), (Z.leb_spec y 99); cbn; lia).
  assert (Htm : 0 <= MakeTime h mi 0 0 < msPerDay) by (unfold MakeTime; divlia).
  destruct (fields_of_MakeDay y m d _ Hm Hd Htm) as (H1 & H2 & H3).
  repeat split; try assumption.
  - unfold HourFromTime, MakeDate, MakeTime. divlia.
  - unfold MinFromTime, MakeDate, MakeTime. divlia.
Qed.
End UtcFields.

Lemma isDigit_facts (c : ascii) :
  Js.isDigit c = true ->
  Js.isWhiteSpace c = false /\ 0 <= Z.of_N (Js.code c) - 48 <= 9
  /\ Ascii.eqb c "+" = false /\ Ascii.eqb c "-" = false.
Proof.
  destruct c as [[] [] [] [] [] [] [] []]; vm_compute; intro H;
    solve [ discriminate H | repeat split; (reflexivity || discriminate) ].
Qed.

Lemma allDigits_noWhiteSpace (s : string) : allDigits s = true -> noWhiteSpace s = true.
Proof.
  induction s as [|c r IH]; [reflexivity|]. cbn [allDigits noWhiteSpace].
  intros [Hc Hr]%andb_prop.
  destruct (isDigit_facts c Hc) as (-> & _). now rewrite IH.
Qed.

Lemma digitsValue_digits (ds : string) :
  allDigits ds = true ->
  forall acc, 0 <= acc -> exists v, digitsValue acc ds = Some v /\ 0 <= v.
Proof.
  induction ds as [|c r IH]; cbn [allDigits digitsValue].
  - intros _ acc Hacc. now exists acc.
  - intros [Hc Hr]%andb_prop acc Hacc. rewrite Hc.
    destruct (isDigit_facts c Hc) as (_ & Hv & _).
    apply (IH Hr). lia.
Qed.

Lemma digitsValue_decimalValue (ds : string) :
  allDigits ds = true -> forall acc, digitsValue acc ds = Some (decimalValue acc ds).
Proof.
  induction ds as [|c r IH]; cbn [allDigits digitsValue decimalValue]; [reflexivity|].
  intros [Hc Hr]%andb_prop acc. rewrite Hc. apply (IH Hr).
Qed.

Lemma groupNumber_decimalValue (ds : string) :
  allDigits ds = true -> groupNumber ds = decimalValue 0 ds.
Proof. intros H. unfold groupNumber. now rewrite (digitsValue_decimalValue ds H). Qed.

Lemma spanDigits_allDigits (ds : string) :
  allDigits ds = true -> spanDigits ds = (ds, EmptyString).
Proof.
  induction ds as [|c r IH]; cbn [allDigits spanDigits]; [reflexivity|].
  intros [Hc Hr]%andb_prop. now rewrite Hc, (IH Hr).
Qed.

Lemma append_empty (s : string) : s ++ EmptyString = s.
Proof. induction s as [|c r IH]; cbn [append]; [reflexivity|now rewrite IH]. Qed.

(** A digit is no sign, no point, no letter of a numeral. *)
Lemma isDigit_not_letter (c : ascii) :
  Js.isDigit c = true ->
  radixOf c = 0 /\ Ascii.eqb c "I" = false /\ Ascii.eqb c "." = false.
Proof.
  destruct c as [[] [] [] [] [] [] [] []]; vm_compute; intro H;
    solve [ discriminate H | repeat split; reflexivity ].
Qed.

(** The sign, the digits and nothing else: the literal of a whole
    number. *)
Lemma decimalLiteral_digits (negative : bool) (ds : string) :
  allDigits ds = true -> ds <> EmptyString ->
  decimalLiteral negative ds = Decimal negative (decimalValue 0 ds) 0.
Proof.
  intros H Hne. unfold decimalLiteral. rewrite (spanDigits_allDigits ds H).
  destruct ds as [|c r]; [congruence|].
  cbn [Js.nonEmpty negb andb exponentPart String.length Z.of_nat].
  now rewrite append_empty.
Qed.

Lemma numeralOf_digits (ds : string) :
  allDigits ds = true -> numeralOf ds = Decimal false (decimalValue 0 ds) 0.
Proof.
  intros H. destruct ds as [|c r] eqn:E; [reflexivity|]. rewrite <- E in *.
  assert (Hc : Js.isDigit c = true)
    by (rewrite E in H; cbn [allDigits] in H; now apply andb_prop in H).
  destruct (isDigit_facts c Hc) as (_ & _ & Hplus & Hminus).
  destruct (isDigit_not_letter c Hc) as (_ & HI & _).
  assert (Hradix : radixLiteral ds = None).
  { rewrite E. destruct r as [|x r']; [reflexivity|]. cbn [radixLiteral].
    rewrite E in H. cbn [allDigits] in H.
    apply andb_prop in H as [_ [Hx _]%andb_prop].
    destruct (isDigit_not_letter x Hx) as (-> & _).
    cbn [Z.eqb negb]. now rewrite andb_false_r. }
  unfold numeralOf. rewrite Hradix.
  assert (Hsign : signOf ds = (false, ds)).
  { rewrite E. cbn [signOf]. now rewrite Hplus, Hminus. }
  rewrite Hsign.
  assert (Hinf : String.eqb ds "Infinity" = false).
  { rewrite E. cbn [String.eqb]. now rewrite HI. }
  rewrite Hinf, E. rewrite <- E.
  apply decimalLiteral_digits; [exact H|congruence].
Qed.

(** The number of a whole literal up to 2^53 is the whole number. *)
Lemma numberOfLiteral_whole (host : Host) (t : string) (negative : bool) (m : Z) :
  0 <= m <= maxSafeInteger ->
  numberOfLiteral host t (Decimal negative m 0)
  = Finite (Int (if negative then - m else m)).
Proof.
  intros Hm. unfold numberOfLiteral.
  destruct (Z.eqb_spec m 0) as [->|Hnz]; [now destruct negative|].
  assert (Hstrip : forall fuel, stripZeros fuel m 0 = (m, 0))
    by (intros [|k]; reflexivity).
  rewrite Hstrip. cbn [Z.leb Z.compare Z.pow Z.pow_pos Pos.iter].
  change (0 <=? 0) with true. change (0 <=? 21) with true. cbv iota.
  rewrite Z.mul_1_r.
  destruct (Z.leb_spec m maxSafeInteger); [reflexivity|lia].
Qed.

(** [Number] of a group of digits is its decimal value. *)
Lemma stringToNumber_digits (host : Host) (ds : string) :
  allDigits ds = true -> groupNumber ds <= maxSafeInteger ->
  stringToNumber host ds = Finite (Int (groupNumber ds)) /\ 0 <= groupNumber ds.
Proof.
  intros H Hmax.
  destruct (digitsValue_digits ds H 0 ltac:(lia)) as (v & Hv & Hpos).
  assert (Hg : groupNumber ds = v) by (unfold groupNumber; now rewrite Hv).
  split; [|lia].
  unfold stringToNumber.
  rewrite (trim_noWhiteSpace ds (allDigits_noWhiteSpace ds H)).
  rewrite (numeralOf_digits ds H), <- (groupNumber_decimalValue ds H).
  apply (numberOfLiteral_whole host ds false). lia.
Qed.

Lemma takeDigits_allDigits (n : nat) :
  forall s ds rest, takeDigits n s = Some (ds, rest) -> allDigits ds = true.
Proof.
  induction n as [|n IH]; intros s ds rest; cbn [takeDigits].
  - now intros [= <- _].
  - destruct s as [|c r]; [discriminate|].
    destruct (Js.isDigit c) eqn:Hc; [|discriminate].
    destruct (takeDigits n r) as [[ds' rest']|] eqn:E; [|discriminate].
    intros [= <- _]. cbn [allDigits]. rewrite Hc. exact (IH _ _ _ E).
Qed.

(** The digit groups of a match. *)
Lemma matchStamp_groups (t : string) (m : StampMatch) :
  matchStamp t = Some m ->
  allDigits (m1 m) = true /\ allDigits (m2 m) = true /\ allDigits (m3 m) = true
  /\ allDigits (m4 m) = true /\ allDigits (m5 m) = true
  /\ allDigits (m8 m) = true /\ allDigits (m9 m) = true
  /\ Js.nonEmpty t = true.
Proof.
  unfold matchStamp. intros H.
  destruct (takeDigits 4 t) as [[g1 s1]|] eqn:E1; [|discriminate H].
  destruct (expectChar "-" s1) as [s2|]; [|discriminate H].
  destruct (takeDigits 2 s2) as [[g2 s3]|] eqn:E2; [|discriminate H].
  destruct (expectChar "-" s3) as [s4|]; [|discriminate H].
  destruct (takeDigits 2 s4) as [[g3 s5]|] eqn:E3; [|discriminate H].
  destruct (spaces1 s5) as [s6|]; [|discriminate H].
  destruct (match takeDigits 2 s6 with Some r => Some r | None => takeDigits 1 s6 end)
    as [[g4 s7]|] eqn:E4; [|discriminate H].
  destruct (expectChar ":" s7) as [s8|]; [|discriminate H].
  destruct (takeDigits 2 s8) as [[g5 s9]|] eqn:E5; [|discriminate H].
  destruct (takeAmPm (Js.trimStart s9)) as [[g6 s10]|]; [|discriminate H].
  destruct (spaces1 s10) as [s11|]; [|discriminate H].
  destruct (takeSign s11) as [[g7 s12]|]; [|discriminate H].
  destruct (takeDigits 2 s12) as [[g8 s13]|] eqn:E8; [|discriminate H].
  destruct (expectChar ":" s13) as [s14|]; [|discriminate H].
  destruct (takeDigits 2 s14) as [[g9 s15]|] eqn:E9; [|discriminate H].
  destruct s15; [|discriminate H].
  injection H as <-. cbn [m1 m2 m3 m4 m5 m8 m9].
  repeat split; try (eapply takeDigits_allDigits; eassumption).
  - destruct (takeDigits 2 s6) as [r|] eqn:E4'.
    + injection E4 as ->. eapply takeDigits_allDigits; eassumption.
    + eapply takeDigits_allDigits; eassumption.
  - destruct t; [discriminate E1|reflexivity].
Qed.

Lemma takeDigits_bound (n : nat) :
  forall s ds rest acc,
    takeDigits n s = Some (ds, rest) -> 0 <= acc ->
    0 <= decimalValue acc ds < (acc + 1) * 10 ^ Z.of_nat n.
Proof.
  induction n as [|n IH]; intros s ds rest acc; cbn [takeDigits].
  - intros [= <- _] Hacc. cbn [decimalValue Z.of_nat Z.pow]. lia.
  - destruct s as [|c r]; [discriminate|].
    destruct (Js.isDigit c) eqn:Hc; [|discriminate].
    destruct (takeDigits n r) as [[ds' rest']|] eqn:E; [|discriminate].
    intros [= <- _] Hacc. cbn [decimalValue].
    destruct (isDigit_facts c Hc) as (_ & Hv & _).
    pose proof (IH r ds' rest' (10 * acc + (Z.of_N (Js.code c) - 48)) E ltac:(lia)) as Hb.
    rewrite Nat2Z.inj_succ, Z.pow_succ_r by lia.
    assert (0 < 10 ^ Z.of_nat n) by (apply Z.pow_pos_nonneg; lia).
    nia.
Qed.

(** A group of at most four digits is a whole number far below 2^53. *)
Lemma takeDigits_small (n : nat) (s ds rest : string) :
  takeDigits n s = Some (ds, rest) -> (n <= 4)%nat ->
  groupNumber ds <= maxSafeInteger.
Proof.
  intros E Hn.
  rewrite (groupNumber_decimalValue ds (takeDigits_allDigits n s ds rest E)).
  pose proof (takeDigits_bound n s ds rest 0 E ltac:(lia)) as Hb.
  assert (10 ^ Z.of_nat n <= 10 ^ 4) by (apply Z.pow_le_mono_r; lia).
  unfold maxSafeInteger. change (10 ^ 4) with 10000 in *. lia.
Qed.

(** The digit groups of a match are small. *)
Lemma matchStamp_small (t : string) (m : StampMatch) :
  matchStamp t = Some m ->
  forall g, In g [m1 m; m2 m; m3 m; m4 m; m5 m; m8 m; m9 m] ->
            groupNumber g <= maxSafeInteger.
Proof.
  unfold matchStamp. intros H.
  destruct (takeDigits 4 t) as [[g1 s1]|] eqn:E1; [|discriminate H].
  destruct (expectChar "-" s1) as [s2|]; [|discriminate H].
  destruct (takeDigits 2 s2) as [[g2 s3]|] eqn:E2; [|discriminate H].
  destruct (expectChar "-" s3) as [s4|]; [|discriminate H].
  destruct (takeDigits 2 s4) as [[g3 s5]|] eqn:E3; [|discriminate H].
  destruct (spaces1 s5) as [s6|]; [|discriminate H].
  destruct (match takeDigits 2 s6 with Some r => Some r | None => takeDigits 1 s6 end)
    as [[g4 s7]|] eqn:E4; [|discriminate H].
  destruct (expectChar ":" s7) as [s8|]; [|discriminate H].
  destruct (takeDigits 2 s8) as [[g5 s9]|] eqn:E5; [|discriminate H].
  destruct (takeAmPm (Js.trimStart s9)) as [[g6 s10]|]; [|discriminate H].
  destruct (spaces1 s10) as [s11|]; [|discriminate H].
  destruct (takeSign s11) as [[g7 s12]|]; [|discriminate H].
  destruct (takeDigits 2 s12) as [[g8 s13]|] eqn:E8; [|discriminate H].
  destruct (expectChar ":" s13) as [s14|]; [|discriminate H].
  destruct (takeDigits 2 s14) as [[g9 s15]|] eqn:E9; [|discriminate H].
  destruct s15; [|discriminate H].
  injection H as <-. cbn [m1 m2 m3 m4 m5 m8 m9].
  assert (H4 : groupNumber g4 <= maxSafeInteger).
  { destruct (takeDigits 2 s6) as [r|] eqn:E4'.
    - injection E4 as ->. eapply takeDigits_small; [eassumption|lia].
    - eapply takeDigits_small; [eassumption|lia]. }
  intros g [<-|[<-|[<-|[<-|[<-|[<-|[<-|[]]]]]]]]; try exact H4;
    (eapply takeDigits_small; [eassumption|lia]).
Qed.

Lemma stampUtcMs_eq (host : Host) (m : StampMatch) :
  allDigits (m1 m) = true -> allDigits (m2 m) = true -> allDigits (m3 m) = true ->
  allDigits (m4 m) = true -> allDigits (m5 m) = true ->
  allDigits (m8 m) = true -> allDigits (m9 m) = true ->
  (forall g, In g [m1 m; m2 m; m3 m; m4 m; m5 m; m8 m; m9 m] ->
             groupNumber g <= maxSafeInteger) ->
  stampUtcMs host m = Some (stampWallClock m - stampOffsetMinutes m * 60000).
Proof.
  intros H1 H2 H3 H4 H5 H8 H9 Hsmall. unfold stampUtcMs.
  rewrite (proj1 (stringToNumber_digits host _ H1 (Hsmall (m1 m) ltac:(cbn; tauto)))),
    (proj1 (stringToNumber_digits host _ H2 (Hsmall (m2 m) ltac:(cbn; tauto)))),
    (proj1 (stringToNumber_digits host _ H3 (Hsmall (m3 m) ltac:(cbn; tauto)))),
    (proj1 (stringToNumber_digits host _ H4 (Hsmall (m4 m) ltac:(cbn; tauto)))),
    (proj1 (stringToNumber_digits host _ H5 (Hsmall (m5 m) ltac:(cbn; tauto)))),
    (proj1 (stringToNumber_digits host _ H8 (Hsmall (m8 m) ltac:(cbn; tauto)))),
    (proj1 (stringToNumber_digits host _ H9 (Hsmall (m9 m) ltac:(cbn; tauto)))).
  cbn [wholeNumber].
  unfold stampWallClock, stampOffsetMinutes, stampHour24.
  f_equal. destruct (String.eqb (Js.toUpperCaseAZ (m6 m)) "AM");
    rewrite ?Z.add_0_r; lia.
Qed.

(** C3. A string matching the pattern of a date, a 12-hour time with AM or
    PM and an offset coerces to the instant obtained by reading its fields
    as UTC wall time, the hour turned to the 24-hour clock, and subtracting
    the stated offset in minutes; the wall time read back in UTC shows the
    written year, month, day, hour and minute. In particular
    "2024-03-15 2:30PM -04:00" coerces to 2024-03-15T18:30:00Z. *)
Theorem parseDateValue_offset_stamp :
  (forall (host : Host) (s : string) (m : StampMatch),
      matchStamp (Js.trim s) = Some m ->
      parseDateValue host (CStr s)
      = Some (ValidDate (stampWallClock m - stampOffsetMinutes m * 60000))
      /\ 0 <= stampHour24 m < 24
      /\ (100 <= groupNumber (m1 m) ->
          1 <= groupNumber (m2 m) <= 12 ->
          1 <= groupNumber (m3 m) <= daysInMonth (groupNumber (m1 m)) (groupNumber (m2 m)) ->
          groupNumber (m5 m) < 60 ->
          JsDate.YearFromTime (stampWallClock m) = groupNumber (m1 m)
          /\ JsDate.MonthFromTime (stampWallClock m) = groupNumber (m2 m) - 1
          /\ JsDate.DateFromTime (stampWallClock m) = groupNumber (m3 m)
          /\ JsDate.HourFromTime (stampWallClock m) = stampHour24 m
          /\ JsDate.MinFromTime (stampWallClock m) = groupNumber (m5 m)))
  /\ (forall host : Host,
        parseDateValue host (CStr "2024-03-15 2:30PM -04:00")
        = Some (ValidDate (JsDate.UTC 2024 2 15 18 30 0 0))).
Proof.
  split; [|reflexivity].
  intros host s m Hm.
  destruct (matchStamp_groups _ _ Hm) as (H1 & H2 & H3 & H4 & H5 & H8 & H9 & Hne).
  assert (Hh : 0 <= stampHour24 m < 24).
  { unfold stampHour24.
    pose proof (Z.mod_pos_bound (groupNumber (m4 m)) 12 ltac:(lia)).
    destruct (String.eqb _ _); lia. }
  split; [|split; [exact Hh|]].
  - unfold parseDateValue.
    assert (Hs : Js.nonEmpty s = true)
      by (destruct s; [discriminate Hne|reflexivity]).
    rewrite Hs, Hne, Hm. cbn [negb].
    now rewrite (stampUtcMs_eq host m H1 H2 H3 H4 H5 H8 H9 (matchStamp_small _ _ Hm)).
  - intros Hy Hmo Hd Hmi. unfold stampWallClock.
    apply fields_of_UTC; try assumption.
    split; [|exact Hmi].
    destruct (digitsValue_digits (m5 m) H5 0 ltac:(lia)) as (v & Hv & Hpos).
    unfold groupNumber. now rewrite Hv.
Qed.

(** The string of the claim and its nine groups. *)
Lemma parseDateValue_offset_stamp_witness :
  parseDateValue utcHost (CStr "2024-03-15 2:30PM -04:00")
  = Some (ValidDate 1710527400000)
  /\ JsDate.HourFromTime (1710527400000 + (-240) * 60000) = 14.
Proof.
  pose (m := {| m1 := "2024"; m2 := "03"; m3 := "15"; m4 := "2"; m5 := "30";
                m6 := "PM"; m7 := "-"; m8 := "04"; m9 := "00" |}).
  destruct (proj1 parseDateValue_offset_stamp utcHost "2024-03-15 2:30PM -04:00" m eq_refl)
    as (Hparse & _ & Hfields).
  split; [exact Hparse|].
  exact (proj1 (proj2 (proj2 (proj2
           (Hfields ltac:(vm_compute; discriminate)
                    ltac:(split; vm_compute; discriminate)
                    ltac:(split; vm_compute; discriminate)
                    ltac:(vm_compute; reflexivity)))))).
Defined.

(* ================================================================== *)
(** ** The records of a sheet *)

Lemma ColumnKey_beq_eq (k k' : ColumnKey) : ColumnKey_beq k k' = true <-> k = k'.
Proof. destruct k, k'; cbn; split; congruence. Qed.

Lemma getProp_setProp (r : StudentRecord) (k k' : ColumnKey) (v : value) :
  getProp (setProp r k v) k' = if ColumnKey_beq k k' then v else getProp r k'.
Proof.
  induction r as [|[k0 v0] rest IH]; cbn [setProp getProp].
  - reflexivity.
  - destruct (ColumnKey_beq k0 k) eqn:E0; cbn [getProp].
    + apply ColumnKey_beq_eq in E0 as ->. now destruct (ColumnKey_beq k k').
    + rewrite IH. destruct (ColumnKey_beq k0 k') eqn:E1; [|reflexivity].
      destruct (ColumnKey_beq k k') eqn:E2; [|reflexivity].
      apply ColumnKey_beq_eq in E1, E2. subst.
      assert (ColumnKey_beq k' k' = true) by now apply ColumnKey_beq_eq.
      congruence.
Qed.

(** The serial date 45294 is 2024-01-03, at local midnight: 00:00 UTC on a
    host in the UTC zone, 05:00 UTC five hours west of it. *)
Lemma parseDateValue_serial_example :
  parseDateValue utcHost (CNum 45294) = Some (ValidDate (JsDate.UTC 2024 0 3 0 0 0 0))
  /\ parseDateValue easternHost (CNum 45294)
     = Some (ValidDate (JsDate.UTC 2024 0 3 5 0 0 0)).
Proof. split; vm_compute; reflexivity. Qed.

(** A coerced date is a valid date. *)
Lemma parseDateValue_valid (host : Host) (v : cell) (d : Date) :
  parseDateValue host v = Some d -> isValidDate d = true.
Proof.
  unfold parseDateValue. destruct v as [| |b|n|s|d0]; try discriminate.
  - destruct (parse_date_code host n) as [[[y m] dd]|]; [|discriminate].
    now intros [= <-].
  - destruct (negb (Js.nonEmpty s)); [discriminate|].
    destruct (negb (Js.nonEmpty (Js.trim s))); [discriminate|].
    destruct (matchStamp (Js.trim s)).
    + destruct (stampUtcMs _ _); [|discriminate]. now intros [= <-].
    + destruct (isValidDate (parseISO host (Js.trim s))) eqn:E1; [now intros [= <-]|].
      destruct (isValidDate (dateParse host (Js.trim s))) eqn:E2; [now intros [= <-]|].
      discriminate.
  - destruct (isValidDate d0) eqn:E; [now intros [= <-]|discriminate].
Qed.

Lemma parseRowStep_wellDated (host : Host) (acc : StudentRecord * bool)
  (entry : string * cell) :
  wellDated (fst acc) -> wellDated (fst (parseRowStep host acc entry)).
Proof.
  destruct acc as [record flag], entry as [key raw]. cbn [fst]. intros H.
  destruct (columnMap (normalizeHeaderKey (Js.trim key))) as [mappedKey|] eqn:E.
  - rewrite (parseRowStep_recognised host _ _ _ _ _ E). cbn [fst].
    unfold wellDated, readDate in *. rewrite getProp_setProp.
    destruct (ColumnKey_beq mappedKey checkInDate) eqn:Ek; [|exact H].
    apply ColumnKey_beq_eq in Ek as ->. cbn [coerceField fst].
    destruct (parseDateValue host raw) as [d|] eqn:Ed; cbn [ofDate]; [|discriminate].
    apply parseDateValue_valid in Ed. destruct d; [discriminate|discriminate Ed].
  - now rewrite (parseRowStep_unrecognised host _ _ _ E).
Qed.

(** The row parser leaves a check-in date valid or absent. *)
Lemma parseRow_wellDated (host : Host) (row : list (string * cell)) (r : StudentRecord) :
  parseRow host row = Some r -> wellDated r.
Proof.
  rewrite parseRow_eq. destruct (existsb _ row); [|discriminate]. intros [= <-].
  unfold constructedRecord.
  assert (H : forall acc, wellDated (fst acc) ->
                wellDated (fst (fold_left (parseRowStep host) row acc))).
  { induction row as [|entry rest IH]; intros acc Hacc; cbn [fold_left]; [exact Hacc|].
    apply IH. now apply parseRowStep_wellDated. }
  specialize (H ([], false) ltac:(cbn; discriminate)).
  unfold withCompositeName.
  destruct (negb (truthy _)); [|exact H].
  destruct (Js.nonEmpty _); [|exact H].
  unfold wellDated, readDate in *. now rewrite getProp_setProp.
Qed.

Lemma keepSome_In {A : Type} (l : list (option A)) (a : A) :
  In a (keepSome l) -> In (Some a) l.
Proof.
  induction l as [|[x|] rest IH]; cbn [keepSome]; [intros []| |].
  - intros [->|H]; [now left|right; now apply IH].
  - intros H. right. now apply IH.
Qed.

(** Every record of a parsed sheet meets the condition under which the
    active check-ins are characterised. *)
Lemma parseSheet_wellDated (host : Host) (rows : list (list cell))
  (students : list StudentRecord) :
  parseSheet host rows = Some students -> Forall wellDated students.
Proof.
  unfold parseSheet. destruct rows as [|row0 rest]; [discriminate|].
  intros [= <-]. apply Forall_forall. intros r Hin.
  apply keepSome_In in Hin. apply in_map_iff in Hin as (raw & Hraw & _).
  now apply (parseRow_wellDated host raw).
Qed.

(** A sheet whose only data cell is "no" under "Checked In" gives one
    record, the flag set to [false]. *)
Lemma parseSheet_keeps_false_flag (host : Host) :
  parseSheet host [[CStr "Checked In"]; [CStr "no"]]
  = Some [[(checkedIn, VBool false)]].
Proof. reflexivity. Qed.

(** A sheet row with a name and an empty e-mail cell gives a record whose
    e-mail is the text "null", which then stands as the key of its active
    check-in. *)
Lemma parseSheet_empty_email (host : Host) :
  parseSheet host
    [ [CStr "Name"; CStr "Email"; CStr "Checked In"];
      [CStr "Ann Lee"; CNull; CStr "yes"] ]
  = Some [[(studentName, VStr "Ann Lee"); (email, VStr "null"); (checkedIn, VBool true)]]
  /\ map fst (latestByKey
        [[(studentName, VStr "Ann Lee"); (email, VStr "null"); (checkedIn, VBool true)]])
     = ["null"].
Proof. split; reflexivity. Qed.

(* ================================================================== *)
(** ** What the constructed record holds *)

(** No header is mapped to [firstName] or [lastName]. *)
Lemma columnMap_not_name_part (s : string) (k : ColumnKey) :
  columnMap s = Some k -> k <> firstName /\ k <> lastName.
Proof.
  unfold columnMap, columnMapEntries. cbn [ownProperty].
  repeat match goal with
         | |- context [String.eqb ?a ?b] => destruct (String.eqb a b)
         end;
    intros [= <-] || discriminate; split; discriminate.
Qed.

Lemma parseRowStep_name_parts (host : Host) (acc : StudentRecord * bool)
  (entry : string * cell) :
  getProp (fst acc) firstName = VUndefined /\ getProp (fst acc) lastName = VUndefined ->
  getProp (fst (parseRowStep host acc entry)) firstName = VUndefined
  /\ getProp (fst (parseRowStep host acc entry)) lastName = VUndefined.
Proof.
  destruct acc as [record flag], entry as [key raw]. cbn [fst]. intros [Hf Hl].
  destruct (columnMap (normalizeHeaderKey (Js.trim key))) as [mappedKey|] eqn:E.
  - rewrite (parseRowStep_recognised host _ _ _ _ _ E). cbn [fst].
    destruct (columnMap_not_name_part _ _ E) as [Hnf Hnl].
    rewrite !getProp_setProp.
    destruct (ColumnKey_beq mappedKey firstName) eqn:E1;
      [apply ColumnKey_beq_eq in E1; contradiction|].
    destruct (ColumnKey_beq mappedKey lastName) eqn:E2;
      [apply ColumnKey_beq_eq in E2; contradiction|].
    now split.
  - rewrite (parseRowStep_unrecognised host _ _ _ E). now split.
Qed.

(** The fallback of [studentName] from [firstName] and [lastName] never
    applies to a parsed row: the record is the one the loop has built. *)
Lemma constructedRecord_eq (host : Host) (row : list (string * cell)) :
  constructedRecord host row = fst (fold_left (parseRowStep host) row ([], false)).
Proof.
  unfold constructedRecord.
  assert (H : forall acc,
             getProp (fst acc) firstName = VUndefined
             /\ getProp (fst acc) lastName = VUndefined ->
             getProp (fst (fold_left (parseRowStep host) row acc)) firstName = VUndefined
             /\ getProp (fst (fold_left (parseRowStep host) row acc)) lastName = VUndefined).
  { induction row as [|entry rest IH]; intros acc Hacc; cbn [fold_left]; [exact Hacc|].
    apply IH. now apply parseRowStep_name_parts. }
  destruct (H ([], false) (conj eq_refl eq_refl)) as [Hf Hl].
  unfold withCompositeName, readStr. rewrite Hf, Hl. cbn.
  now destruct (negb _).
Qed.

(** Each property of the constructed record is the coercion of the last
    cell of the row whose header is mapped to it, and is [undefined] when
    there is none. *)
Lemma constructedRecord_field (host : Host) (row : list (string * cell)) (k : ColumnKey) :
  getProp (constructedRecord host row) k
  = match lastCell k row with
    | Some raw => fst (coerceField host k raw)
    | None => VUndefined
    end.
Proof.
  rewrite constructedRecord_eq. unfold lastCell.
  induction row as [|[key raw] rest IH] using rev_ind; [reflexivity|].
  rewrite fold_left_app, rev_app_distr. cbn [fold_left rev app find].
  unfold mapsTo at 1. cbn [fst].
  destruct (fold_left (parseRowStep host) rest ([], false)) as [record flag].
  cbn [fst] in IH.
  destruct (columnMap (normalizeHeaderKey (Js.trim key))) as [mappedKey|] eqn:E.
  - rewrite (parseRowStep_recognised host _ _ _ _ _ E). cbn [fst].
    rewrite getProp_setProp.
    destruct (ColumnKey_beq mappedKey k) eqn:Ek; [|exact IH].
    apply ColumnKey_beq_eq in Ek as ->. reflexivity.
  - rewrite (parseRowStep_unrecognised host _ _ _ E). exact IH.
Qed.

(** The coercion of a field by its kind is the value its arm of the
    [switch] assigns. *)
Lemma coercedAs_coerceField (host : Host) (k : ColumnKey) (raw : cell) :
  coercedAs host (fieldKind k) raw = fst (coerceField host k raw).
Proof. destruct k; reflexivity. Qed.

Lemma givesValue_entryMaps (host : Host) (entry : string * cell) :
  givesValue host entry = entryMaps host entry.
Proof.
  unfold givesValue, entryMaps.
  destruct (columnMap _) as [k|]; [|reflexivity].
  now rewrite coercedAs_coerceField.
Qed.

Lemma existsb_givesValue (host : Host) (row : list (string * cell)) :
  existsb (entryMaps host) row = true
  <-> exists entry, In entry row /\ givesValue host entry = true.
Proof.
  rewrite existsb_exists.
  split; intros (entry & Hin & Hm); exists entry; (split; [exact Hin|]);
    [rewrite givesValue_entryMaps|rewrite <- givesValue_entryMaps]; exact Hm.
Qed.

(** C8. Row parsing is a total function with two outcomes and no failure.
    When some entry of the row has a recognised header and a cell whose
    coercion (by the kind of the field: flag, number, date, e-mail, text)
    is neither undefined, null nor the empty text, it returns a record,
    and every property of that record is the coercion of the last cell
    mapped to it (undefined when there is none). It returns no record
    exactly when no entry is of that kind; in particular a row whose
    headers are all unrecognised gives no record. *)
Theorem parseRow_record_iff_mapped (host : Host) (row : list (string * cell)) :
  ((exists entry, In entry row /\ givesValue host entry = true) ->
   exists record,
     parseRow host row = Some record
     /\ forall field, getProp record field = assignedValue host row field)
  /\ (parseRow host row = None
      <-> forall entry, In entry row -> givesValue host entry = false)
  /\ ((forall key raw, In (key, raw) row ->
         columnMap (normalizeHeaderKey (Js.trim key)) = None) ->
      parseRow host row = None).
Proof.
  rewrite parseRow_eq. repeat split.
  - intros H. apply existsb_givesValue in H. rewrite H.
    exists (constructedRecord host row). split; [reflexivity|].
    intros field. rewrite constructedRecord_field. unfold assignedValue.
    destruct (lastCell field row); [|reflexivity].
    now rewrite coercedAs_coerceField.
  - intros Hnone entry Hin.
    destruct (givesValue host entry) eqn:Hg; [|reflexivity].
    assert (Ht : existsb (entryMaps host) row = true)
      by (apply existsb_givesValue; now exists entry).
    rewrite Ht in Hnone. discriminate Hnone.
  - intros Hall.
    destruct (existsb (entryMaps host) row) eqn:E; [|reflexivity].
    apply existsb_givesValue in E as (entry & Hin & Hg).
    rewrite (Hall entry Hin) in Hg. discriminate Hg.
  - intros Hall.
    destruct (existsb (entryMaps host) row) eqn:E; [|reflexivity].
    apply existsb_givesValue in E as ([key raw] & Hin & Hg).
    unfold givesValue in Hg. cbn [fst snd] in Hg.
    now rewrite (Hall key raw Hin) in Hg.
Qed.

(** The row with the age "12.5" is returned as a record holding the
    number 12.5, the flag [false] and the trimmed name. *)
Lemma parseRow_record_iff_mapped_witness :
  exists record,
    parseRow utcHost fractionalAgeRow = Some record
    /\ forall field, getProp record field = assignedValue utcHost fractionalAgeRow field.
Proof.
  apply (proj1 (parseRow_record_iff_mapped utcHost fractionalAgeRow)).
  exists ("Age", CStr "12.5"). split; [right; left; reflexivity|reflexivity].
Defined.

(** Numerals that are not a run of digits are read as [Number] reads
    them: a fraction, an exponent, a hexadecimal numeral. *)
Lemma parseRow_reads_numerals (host : Host) :
  parseRow host fractionalAgeRow
  = Some [(studentName, VStr "Ann Lee"); (age, VNum (Other "12.5"));
          (checkedIn, VBool false)]
  /\ parseRow host [("Age", CStr "1e3")] = Some [(age, VNum 1000)]
  /\ parseRow host [("Age", CStr "0x10")] = Some [(age, VNum 16)]
  /\ parseRow host [("Age", CStr " 12.0 ")] = Some [(age, VNum 12)]
  /\ parseRow host [("Age", CStr "twelve")] = None
  /\ parseRow host [("Notes", CStr "late"); ("Shirt size", CStr "M")] = None.
Proof. repeat split; reflexivity. Qed.

(* ================================================================== *)
(** ** From a sheet to the weekly counts *)

(** A sheet with a check-in on Wednesday 2024-01-03 (serial 45294), one on
    the Sunday after it (45298) and one on Tuesday 2024-01-09 (45300): the
    Sunday is counted with the Wednesday before it, not with the Tuesday
    after it. *)
Lemma weekCounts_of_sheet :
  option_map (weekCounts utcHost)
    (parseSheet utcHost
       [ [CStr "Name"; CStr "Check-In Date"];
         [CStr "Ann Lee"; CNum 45294];
         [CStr "Bo Chen"; CNum 45298];
         [CStr "Cy Diaz"; CNum 45300] ])
  = Some [("1/1/2024 - 1/7/2024", 2); ("1/8/2024 - 1/14/2024", 1)].
Proof. vm_compute. reflexivity. Qed.

(* ================================================================== *)
(** * Chart colours and chart data *)

Lemma getPalette_length (count : Z) :
  0 <= count -> List.length (getPalette count) = Z.to_nat count.
Proof.
  intros Hc. unfold getPalette.
  destruct (Z.leb_spec count (Z.of_nat (List.length colorPalette))) as [Hle|Hgt].
  - unfold sliceTo.
    destruct (Z.ltb_spec count 0) as [Hneg|_]; [lia|].
    rewrite length_firstn. lia.
  - rewrite length_map, length_seq. reflexivity.
Qed.

Lemma nth_error_nth_default {A : Type} (l : list A) (n : nat) (d : A) :
  (n < List.length l)%nat -> nth_error l n = Some (nth n l d).
Proof.
  revert n. induction l as [|a l IH]; intros [|n] H; cbn in *; try lia.
  - reflexivity.
  - apply IH. lia.
Qed.

(** X1. [getPalette] gives one colour per bucket, the colour of bucket
    [i] being the palette's colour [i mod 12]: beyond twelve buckets the
    colours repeat in the same order. *)
Theorem getPalette_cycles (count : Z) :
  0 <= count ->
  List.length (getPalette count) = Z.to_nat count /\
  forall i : nat, (i < Z.to_nat count)%nat ->
    nth_error (getPalette count) i = nth_error colorPalette (i mod 12).
Proof.
  intros Hc. split; [exact (getPalette_length count Hc)|].
  intros i Hi. unfold getPalette.
  destruct (Z.leb_spec count (Z.of_nat (List.length colorPalette))) as [Hle|Hgt].
  - unfold sliceTo.
    destruct (Z.ltb_spec count 0) as [Hneg|_]; [lia|].
    change (Z.of_nat (List.length colorPalette)) with 12 in *.
    rewrite Z.min_l by lia.
    rewrite (Nat.mod_small i 12) by lia.
    rewrite nth_error_firstn.
    destruct (Nat.ltb_spec i (Z.to_nat count)); [reflexivity|lia].
  - rewrite nth_error_map, nth_error_seq.
    destruct (Nat.ltb_spec i (Z.to_nat count)) as [_|]; [|lia].
    cbn [option_map Nat.add].
    change (List.length colorPalette) with 12%nat.
    symmetry. apply nth_error_nth_default.
    change (List.length colorPalette) with 12%nat.
    apply Nat.mod_upper_bound. discriminate.
Qed.

Lemma getPalette_cycles_witness :
  0 <= 14 /\ nth_error (getPalette 14) 13 = Some "#16a34a".
Proof.
  split; [lia|].
  exact (proj2 (getPalette_cycles 14 ltac:(lia)) 13%nat ltac:(vm_compute; lia)).
Defined.

(** X2. In the data of a bar chart and of a pie chart, the labels, the
    values and the colours have the same length, the labels and values
    being the keys and values of the bucket in its enumeration order. *)
Theorem chart_data_aligned (counts : list (string * tally)) (label : string) :
  let aligned (c : Chart.t) :=
    Chart.labels c = map fst counts /\
    exists d, Chart.datasets c = [d] /\
      Chart.label d = label /\
      Chart.data d = map snd counts /\
      List.length (Chart.data d) = List.length (Chart.labels c) /\
      List.length (Chart.backgroundColor d) = List.length (Chart.labels c) in
  aligned (buildBarData counts label) /\ aligned (buildPieData counts label).
Proof.
  cbv zeta.
  assert (Hlen : List.length (getPalette (Z.of_nat (List.length (map fst counts))))
                 = List.length (map fst counts)).
  { rewrite getPalette_length by lia. apply Nat2Z.id. }
  split; (split; [reflexivity|]); eexists; (split; [reflexivity|]);
    cbn [Chart.label Chart.data Chart.backgroundColor Chart.labels buildBarData buildPieData];
    repeat split; try exact Hlen; now rewrite !length_map.
Qed.

(* ================================================================== *)
(** * Plain objects as buckets *)

Section ObjectFacts.
Context {A : Type}.
Implicit Types (o : list (string * A)) (k : string) (v : A).

Lemma hasOwn_objLookup o k :
  hasOwn o k = match objLookup o k with Some _ => true | None => false end.
Proof.
  induction o as [|[k' v'] o IH]; cbn [hasOwn objLookup]; [reflexivity|].
  destruct (String.eqb k' k); [reflexivity|exact IH].
Qed.

Lemma objLookup_app o1 o2 k :
  objLookup (o1 ++ o2)%list k
  = match objLookup o1 k with Some v => Some v | None => objLookup o2 k end.
Proof.
  induction o1 as [|[k' v'] o1 IH]; cbn [app objLookup]; [reflexivity|].
  destruct (String.eqb k' k); [reflexivity|exact IH].
Qed.

Lemma objLookup_replaceOwn o k v k' :
  objLookup (replaceOwn o k v) k'
  = if String.eqb k k' then
      match objLookup o k with Some _ => Some v | None => None end
    else objLookup o k'.
Proof.
  induction o as [|[k0 v0] o IH]; cbn [replaceOwn objLookup].
  - now destruct (String.eqb k k').
  - destruct (String.eqb k0 k) eqn:E0.
    + apply String.eqb_eq in E0. subst k0. cbn [objLookup].
      destruct (String.eqb k k'); reflexivity.
    + cbn [objLookup]. destruct (String.eqb k0 k') eqn:E1.
      * apply String.eqb_eq in E1. subst k0.
        rewrite String.eqb_sym, E0. reflexivity.
      * exact IH.
Qed.

Lemma objLookup_insertIndexed o n k v k' :
  objLookup o k = None ->
  objLookup (insertIndexed o n k v) k'
  = if String.eqb k k' then Some v else objLookup o k'.
Proof.
  induction o as [|[k0 v0] o IH]; cbn [insertIndexed objLookup]; intros Hnone.
  - reflexivity.
  - destruct (String.eqb k0 k) eqn:E0; [discriminate Hnone|].
    assert (Hhere : objLookup ((k, v) :: (k0, v0) :: o) k'
                    = if String.eqb k k' then Some v
                      else if String.eqb k0 k' then Some v0 else objLookup o k')
      by reflexivity.
    destruct (arrayIndex k0) as [n'|]; [|exact Hhere].
    destruct (n' <? n); [|exact Hhere].
    cbn [objLookup]. rewrite (IH Hnone).
    destruct (String.eqb k0 k') eqn:E1; [|reflexivity].
    apply String.eqb_eq in E1. subst k0.
    rewrite String.eqb_sym, E0. reflexivity.
Qed.

(** Reading a property after an assignment. *)
Lemma objLookup_objSet o k v k' :
  objLookup (objSet o k v) k'
  = if String.eqb k "__proto__" then objLookup o k'
    else if String.eqb k k' then Some v else objLookup o k'.
Proof.
  unfold objSet. destruct (String.eqb k "__proto__"); [reflexivity|].
  rewrite hasOwn_objLookup.
  destruct (objLookup o k) as [v0|] eqn:Ek.
  - rewrite objLookup_replaceOwn, Ek. reflexivity.
  - destruct (arrayIndex k) as [n|].
    + apply objLookup_insertIndexed. exact Ek.
    + rewrite objLookup_app. cbn [objLookup].
      destruct (String.eqb k k') eqn:E.
      * apply String.eqb_eq in E. subst k'. rewrite Ek. reflexivity.
      * now destruct (objLookup o k').
Qed.
End ObjectFacts.

(* ================================================================== *)
(** * Category breakdowns *)

Lemma countField_snoc host skip field profiles entry :
  countField host skip field (profiles ++ [entry])%list
  = let key := field (snd entry) in
    if skip key then countField host skip field profiles
    else bump (countField host skip field profiles) (valueToString host key).
Proof. unfold countField. rewrite fold_left_app. reflexivity. Qed.

Lemma countedAs_snoc host skip field k profiles entry :
  countedAs host skip field k (profiles ++ [entry])%list
  = countedAs host skip field k profiles
    + (if negb (skip (field (snd entry)))
          && String.eqb (valueToString host (field (snd entry))) k
       then 1 else 0).
Proof.
  unfold countedAs. rewrite filter_app, length_app. cbn [filter].
  destruct (negb (skip (field (snd entry)))
            && String.eqb (valueToString host (field (snd entry))) k);
    cbn [List.length]; lia.
Qed.

Lemma countedAs_nonneg host skip field k profiles :
  0 <= countedAs host skip field k profiles.
Proof. unfold countedAs. lia. Qed.

Lemma or_zero (n : Z) : (if n =? 0 then 0 else n) = n.
Proof. destruct (Z.eqb_spec n 0); congruence. Qed.

Lemma inherited_not_proto k :
  includes inheritedNames k = false -> String.eqb k "__proto__" = false.
Proof.
  intros H. destruct (String.eqb k "__proto__") eqn:E; [|reflexivity].
  apply String.eqb_eq in E. subst k. discriminate H.
Qed.

(** X3. In each breakdown, the tally under a text that is not a name
    every object inherits is the number of profiles counted under it; a
    text under which no profile is counted has no bucket. *)
Theorem countField_tally host skip field profiles k :
  includes inheritedNames k = false ->
  objLookup (countField host skip field profiles) k
  = if countedAs host skip field k profiles =? 0 then None
    else Some (Tally (countedAs host skip field k profiles)).
Proof.
  intros Hk. pose proof (inherited_not_proto k Hk) as Hproto.
  induction profiles as [|entry profiles IH] using rev_ind; [reflexivity|].
  rewrite countField_snoc, countedAs_snoc. cbv zeta.
  pose proof (countedAs_nonneg host skip field k profiles) as Hn.
  destruct (skip (field (snd entry))); cbn [negb andb].
  - rewrite Z.add_0_r. exact IH.
  - unfold bump. rewrite objLookup_objSet.
    destruct (String.eqb (valueToString host (field (snd entry))) k) eqn:E.
    + apply String.eqb_eq in E. rewrite E, Hproto, IH.
      destruct (Z.eqb_spec (countedAs host skip field k profiles) 0) as [H0|H0].
      * rewrite H0, Hk. reflexivity.
      * rewrite or_zero.
        destruct (Z.eqb_spec (countedAs host skip field k profiles + 1) 0); [lia|].
        reflexivity.
    + rewrite Z.add_0_r.
      destruct (String.eqb (valueToString host (field (snd entry))) "__proto__");
        exact IH.
Qed.

Lemma countField_tally_witness :
  includes inheritedNames "Wake" = false /\
  objLookup
    (countyCounts utcHost
       [("a", profileWith (VStr "Wake") VNull); ("b", profileWith (VStr "") VNull);
        ("c", profileWith (VStr "Wake") VNull)]) "Wake"
  = Some (Tally 2).
Proof.
  split; [reflexivity|].
  exact (countField_tally utcHost falsy Profile.county _ "Wake" eq_refl).
Defined.

(** X4. A text that is a name every object inherits never gets a number:
    the first profile counted under it finds the inherited member in the
    empty bucket, so its bucket holds a text, and ["__proto__"] gets no
    bucket at all. *)
Theorem countField_inherited_name host skip field profiles k :
  includes inheritedNames k = true ->
  objLookup (countField host skip field profiles) k
  = if (countedAs host skip field k profiles =? 0) || String.eqb k "__proto__"
    then None else Some NotANumber.
Proof.
  intros Hk.
  induction profiles as [|entry profiles IH] using rev_ind; [reflexivity|].
  rewrite countField_snoc, countedAs_snoc. cbv zeta.
  pose proof (countedAs_nonneg host skip field k profiles) as Hn.
  destruct (skip (field (snd entry))); cbn [negb andb].
  - rewrite Z.add_0_r. exact IH.
  - unfold bump. rewrite objLookup_objSet.
    destruct (String.eqb (valueToString host (field (snd entry))) k) eqn:E.
    + apply String.eqb_eq in E. rewrite E.
      destruct (String.eqb k "__proto__") eqn:Eproto.
      * rewrite IH, orb_true_r. now rewrite orb_true_r.
      * rewrite IH, !orb_false_r.
        destruct (Z.eqb_spec (countedAs host skip field k profiles + 1) 0); [lia|].
        destruct (Z.eqb_spec (countedAs host skip field k profiles) 0);
          [rewrite Hk|]; reflexivity.
    + rewrite Z.add_0_r.
      destruct (String.eqb (valueToString host (field (snd entry))) "__proto__");
        exact IH.
Qed.

Lemma countField_inherited_name_witness :
  includes inheritedNames "constructor" = true /\
  objLookup
    (countyCounts utcHost
       [("a", profileWith (VStr "constructor") VNull);
        ("b", profileWith (VStr "constructor") VNull)]) "constructor"
  = Some NotANumber.
Proof.
  split; [reflexivity|].
  exact (countField_inherited_name utcHost falsy Profile.county _ "constructor" eq_refl).
Defined.

Lemma tallySum_app (l1 l2 : list tally) :
  tallySum (l1 ++ l2)
  = match tallySum l1, tallySum l2 with
    | Some a, Some b => Some (a + b)
    | _, _ => None
    end.
Proof.
  induction l1 as [|[n|] l1 IH]; cbn [app tallySum].
  - now destruct (tallySum l2).
  - rewrite IH. destruct (tallySum l1), (tallySum l2); cbn [option_map];
      try reflexivity. f_equal. lia.
  - reflexivity.
Qed.

Lemma tallySum_replaceOwn (o : list (string * tally)) k n v s :
  tallySum (map snd o) = Some s ->
  objLookup o k = Some (Tally n) ->
  tallySum (map snd (replaceOwn o k (Tally v))) = Some (s - n + v).
Proof.
  revert s. induction o as [|[k0 [n0|]] o IH]; intros s Hs Hk;
    cbn [map snd tallySum replaceOwn objLookup] in *; try discriminate.
  destruct (tallySum (map snd o)) as [s0|] eqn:Es; [|discriminate Hs].
  cbn [option_map] in Hs. injection Hs as <-.
  destruct (String.eqb k0 k).
  - injection Hk as ->. cbn [map snd tallySum]. rewrite Es. cbn [option_map].
    f_equal. lia.
  - cbn [map snd tallySum]. rewrite (IH s0 eq_refl Hk). cbn [option_map].
    f_equal. lia.
Qed.

Lemma tallySum_lookup (o : list (string * tally)) k s :
  tallySum (map snd o) = Some s -> objLookup o k <> Some NotANumber.
Proof.
  revert s. induction o as [|[k0 [n0|]] o IH]; intros s Hs;
    cbn [map snd tallySum objLookup] in *; try discriminate.
  destruct (tallySum (map snd o)) as [s0|] eqn:Es; [|discriminate Hs].
  destruct (String.eqb k0 k); [discriminate|]. exact (IH s0 eq_refl).
Qed.

Lemma tallySum_insertIndexed (o : list (string * tally)) n k v s :
  tallySum (map snd o) = Some s ->
  tallySum (map snd (insertIndexed o n k (Tally v))) = Some (s + v).
Proof.
  revert s. induction o as [|[k0 [n0|]] o IH]; intros s Hs;
    cbn [map snd tallySum insertIndexed] in *; try discriminate.
  - injection Hs as <-. cbn [option_map]. f_equal. lia.
  - destruct (tallySum (map snd o)) as [s0|] eqn:Es; [|discriminate Hs].
    cbn [option_map] in Hs. injection Hs as <-.
    assert (Hhere : tallySum (map snd ((k, Tally v) :: (k0, Tally n0) :: o))
                    = Some (n0 + s0 + v)).
    { cbn [map snd tallySum]. rewrite Es. cbn [option_map]. f_equal. lia. }
    destruct (arrayIndex k0) as [n'|]; [|exact Hhere].
    destruct (n' <? n); [|exact Hhere].
    cbn [map snd tallySum]. rewrite (IH s0 eq_refl). cbn [option_map].
    f_equal. lia.
Qed.

Lemma tallySum_bump (bucket : list (string * tally)) k s :
  includes inheritedNames k = false ->
  tallySum (map snd bucket) = Some s ->
  tallySum (map snd (bump bucket k)) = Some (s + 1).
Proof.
  intros Hk Hs. pose proof (inherited_not_proto k Hk) as Hproto.
  unfold bump, objSet. rewrite Hproto, hasOwn_objLookup.
  destruct (objLookup bucket k) as [[n|]|] eqn:El.
  - rewrite or_zero, (tallySum_replaceOwn bucket k n (n + 1) s Hs El).
    f_equal. lia.
  - now destruct (tallySum_lookup bucket k s Hs).
  - rewrite Hk. destruct (arrayIndex k) as [n|].
    + apply tallySum_insertIndexed. exact Hs.
    + rewrite map_app, tallySum_app, Hs. reflexivity.
Qed.

(** X5. When no profile is counted under a name that every object
    inherits, the values of a breakdown are numbers and add up to the
    number of profiles that have a value for the field: a profile is counted
    once, and a profile without a value in no bucket. *)
Theorem countField_total host skip field profiles :
  plainKeys host skip field profiles = true ->
  tallySum (map snd (countField host skip field profiles))
  = Some (countedIn skip field profiles).
Proof.
  induction profiles as [|entry profiles IH] using rev_ind; intros Hplain;
    [reflexivity|].
  unfold plainKeys in Hplain. rewrite forallb_app in Hplain.
  apply andb_true_iff in Hplain as [Hrest Hentry].
  cbn [forallb] in Hentry. rewrite andb_true_r in Hentry.
  specialize (IH Hrest).
  rewrite countField_snoc. cbv zeta.
  unfold countedIn in *. rewrite filter_app, length_app. cbn [filter].
  destruct (skip (field (snd entry))); cbn [negb orb] in *.
  - cbn [List.length]. rewrite Nat.add_0_r. exact IH.
  - apply negb_true_iff in Hentry.
    rewrite (tallySum_bump _ _ _ Hentry IH). cbn [List.length]. f_equal. lia.
Qed.

Lemma countField_total_witness :
  plainKeys utcHost isNullish Profile.age fourAges = true /\
  tallySum (map snd (ageCounts utcHost fourAges)) = Some 3.
Proof.
  split; [reflexivity|].
  exact (countField_total utcHost isNullish Profile.age fourAges eq_refl).
Defined.

(* ================================================================== *)
(** * Numbers written as text *)

Lemma digitsValue_of_uint_acc (d : Decimal.uint) :
  forall acc : positive,
    digitsValue (Z.pos acc) (NilEmpty.string_of_uint d)
    = Some (Z.pos (Pos.of_uint_acc d acc)).
Proof.
  induction d; intros acc; cbn [NilEmpty.string_of_uint digitsValue Pos.of_uint_acc];
    [reflexivity|..];
    match goal with
    | |- context [Js.isDigit ?c] =>
        change (Js.isDigit c) with true; cbv iota;
        let v := eval vm_compute in (Z.of_N (Js.code c)) in
        change (Z.of_N (Js.code c)) with v
    end;
    rewrite <- IHd; f_equal; lia.
Qed.

Lemma digitsValue_of_uint (d : Decimal.uint) :
  digitsValue 0 (NilEmpty.string_of_uint d) = Some (Z.of_N (Pos.of_uint d)).
Proof.
  induction d; cbn [NilEmpty.string_of_uint digitsValue Pos.of_uint];
    [reflexivity|..];
    match goal with
    | |- context [Js.isDigit ?c] =>
        change (Js.isDigit c) with true; cbv iota;
        let v := eval vm_compute in (10 * 0 + (Z.of_N (Js.code c) - 48)) in
        change (10 * 0 + (Z.of_N (Js.code c) - 48)) with v
    end;
    [exact IHd | apply digitsValue_of_uint_acc ..].
Qed.

Lemma allDigits_of_uint (d : Decimal.uint) :
  allDigits (NilEmpty.string_of_uint d) = true.
Proof. induction d; cbn [NilEmpty.string_of_uint allDigits]; [reflexivity|exact IHd ..]. Qed.

(** The numeral of a positive number does not begin with a zero. *)
Lemma nzhead_not_D0 (d d' : Decimal.uint) : Decimal.nzhead d <> Decimal.D0 d'.
Proof. induction d; cbn [Decimal.nzhead]; try discriminate. exact IHd. Qed.

Lemma to_uint_head (p : positive) :
  match Pos.to_uint p with
  | Decimal.Nil | Decimal.D0 _ => False
  | _ => True
  end.
Proof.
  pose proof (DecimalPos.Unsigned.to_of (Pos.to_uint p)) as H.
  rewrite DecimalPos.Unsigned.of_to in H. cbn [N.to_uint] in H.
  pose proof (DecimalPos.Unsigned.to_uint_nonzero p) as Hnz.
  destruct (Pos.to_uint p) as [|d| | | | | | | | | ] eqn:E; try exact I.
  - discriminate H.
  - unfold Decimal.unorm in H. cbn [Decimal.nzhead] in H.
    destruct (Decimal.nzhead d) eqn:En; try discriminate H.
    + injection H as H'. subst d. now apply Hnz.
    + exact (nzhead_not_D0 d _ En).
Qed.

Lemma stringOfZ_pos (p : positive) :
  Js.stringOfZ (Z.pos p) = NilEmpty.string_of_uint (Pos.to_uint p).
Proof.
  unfold Js.stringOfZ. cbn [Z.to_int NilZero.string_of_int].
  pose proof (to_uint_head p) as H.
  now destruct (Pos.to_uint p).
Qed.

Lemma stringOfZ_neg (p : positive) :
  Js.stringOfZ (Z.neg p) = String "-" (Js.stringOfZ (Z.pos p)).
Proof. reflexivity. Qed.

Lemma digitsValue_stringOfZ (n : Z) :
  0 <= n -> digitsValue 0 (Js.stringOfZ n) = Some n /\ allDigits (Js.stringOfZ n) = true.
Proof.
  intros Hn. destruct n as [|p|p]; [split; reflexivity| |lia].
  rewrite stringOfZ_pos, digitsValue_of_uint, DecimalPos.Unsigned.of_to.
  split; [reflexivity|apply allDigits_of_uint].
Qed.

(** The first character of the numeral of a positive number. *)
Lemma stringOfZ_head (p : positive) :
  exists c r, Js.stringOfZ (Z.pos p) = String c r /\ Js.isDigit c = true
              /\ Ascii.eqb c "0" = false.
Proof.
  rewrite stringOfZ_pos. pose proof (to_uint_head p) as H.
  destruct (Pos.to_uint p); try contradiction; cbn [NilEmpty.string_of_uint];
    eexists; eexists; repeat split.
Qed.

Lemma numeralOf_negative_digits (ds : string) :
  allDigits ds = true -> ds <> EmptyString ->
  numeralOf (String "-" ds) = Decimal true (decimalValue 0 ds) 0.
Proof.
  intros H Hne. destruct ds as [|c r] eqn:E; [congruence|]. rewrite <- E in *.
  assert (Hc : Js.isDigit c = true)
    by (rewrite E in H; cbn [allDigits] in H; now apply andb_prop in H).
  destruct (isDigit_not_letter c Hc) as (_ & HI & _).
  assert (Hradix : radixLiteral (String "-" ds) = None) by (rewrite E; reflexivity).
  assert (Hinf : String.eqb ds "Infinity" = false)
    by (rewrite E; cbn [String.eqb]; now rewrite HI).
  unfold numeralOf. rewrite Hradix.
  change (signOf (String "-" ds)) with (true, ds). cbv beta iota. rewrite Hinf.
  now apply decimalLiteral_digits.
Qed.

(** [Number] reads the numeral of a whole number up to 2^53, of either
    sign, as that number. *)
Lemma stringToNumber_stringOfZ (host : Host) (z : Z) :
  - maxSafeInteger <= z <= maxSafeInteger ->
  stringToNumber host (Js.stringOfZ z) = Finite (Int z).
Proof.
  intros Hz. destruct z as [|p|p]; [reflexivity| |].
  - destruct (digitsValue_stringOfZ (Z.pos p) ltac:(lia)) as [Hv Hd].
    assert (Hg : groupNumber (Js.stringOfZ (Z.pos p)) = Z.pos p)
      by (unfold groupNumber; now rewrite Hv).
    destruct (stringToNumber_digits host _ Hd ltac:(lia)) as [-> _].
    now rewrite Hg.
  - rewrite stringOfZ_neg.
    destruct (digitsValue_stringOfZ (Z.pos p) ltac:(lia)) as [Hv Hd].
    assert (Hg : decimalValue 0 (Js.stringOfZ (Z.pos p)) = Z.pos p).
    { rewrite <- (groupNumber_decimalValue _ Hd). unfold groupNumber. now rewrite Hv. }
    destruct (stringOfZ_head p) as (c & r & E & Hc & _).
    unfold stringToNumber.
    rewrite trim_noWhiteSpace
      by (cbn [noWhiteSpace]; now rewrite (allDigits_noWhiteSpace _ Hd)).
    rewrite (numeralOf_negative_digits _ Hd) by (rewrite E; discriminate).
    rewrite Hg. apply (numberOfLiteral_whole host _ true). lia.
Qed.

Lemma arrayIndex_stringOfZ (n : Z) :
  0 <= n < 4294967295 -> arrayIndex (Js.stringOfZ n) = Some n.
Proof.
  intros Hn. destruct n as [|p|p]; [reflexivity| |lia].
  destruct (digitsValue_stringOfZ (Z.pos p) ltac:(lia)) as [Hv _].
  destruct (stringOfZ_head p) as (c & r & E & _ & H0).
  unfold arrayIndex. rewrite E, H0, <- E, Hv. cbn [andb].
  destruct (Z.ltb_spec (Z.pos p) 4294967295); [reflexivity|lia].
Qed.

Lemma digits_of_uint (s : string) :
  allDigits s = true -> exists d, s = NilEmpty.string_of_uint d.
Proof.
  induction s as [|c r IH]; [now exists Decimal.Nil|].
  cbn [allDigits]. intros [Hc Hr]%andb_prop.
  destruct (IH Hr) as [d ->].
  destruct c as [[] [] [] [] [] [] [] []]; try discriminate Hc;
    first [ exists (Decimal.D0 d); reflexivity | exists (Decimal.D1 d); reflexivity
          | exists (Decimal.D2 d); reflexivity | exists (Decimal.D3 d); reflexivity
          | exists (Decimal.D4 d); reflexivity | exists (Decimal.D5 d); reflexivity
          | exists (Decimal.D6 d); reflexivity | exists (Decimal.D7 d); reflexivity
          | exists (Decimal.D8 d); reflexivity | exists (Decimal.D9 d); reflexivity ].
Qed.

Lemma digitsValue_allDigits (s : string) :
  forall acc v, digitsValue acc s = Some v -> allDigits s = true.
Proof.
  induction s as [|c r IH]; intros acc v; cbn [digitsValue allDigits]; [reflexivity|].
  destruct (Js.isDigit c); [|discriminate]. exact (IH _ v).
Qed.

Lemma of_uint_canonical (d : Decimal.uint) :
  match d with
  | Decimal.Nil | Decimal.D0 _ => True
  | _ => exists p, Pos.of_uint d = N.pos p /\ Pos.to_uint p = d
  end.
Proof.
  destruct d; try exact I; (eexists; split; [reflexivity|]);
    match goal with
    | |- _ = ?u => pose proof (DecimalPos.Unsigned.to_of u) as H
    end;
    exact H.
Qed.

(** An array index is the numeral of its number. *)
Lemma arrayIndex_spec (k : string) (n : Z) :
  arrayIndex k = Some n -> 0 <= n < 4294967295 /\ k = Js.stringOfZ n.
Proof.
  unfold arrayIndex. destruct k as [|c r]; [discriminate|].
  destruct (Ascii.eqb c "0" && Js.nonEmpty r) eqn:Hlead; [discriminate|].
  destruct (digitsValue 0 (String c r)) as [v|] eqn:Hv; [|discriminate].
  destruct (Z.ltb_spec v 4294967295) as [Hlt|]; [|discriminate].
  intros [= <-].
  pose proof (digitsValue_allDigits _ _ _ Hv) as Hd.
  destruct (digits_of_uint _ Hd) as [d Ed].
  rewrite Ed, digitsValue_of_uint in Hv. injection Hv as Hv.
  split; [lia|]. rewrite Ed.
  pose proof (of_uint_canonical d) as Hcan.
  destruct d as [|d| | | | | | | | | ]; try discriminate Ed;
    try (destruct Hcan as (p & Hp & Hto); rewrite Hp in Hv; subst v;
         cbn [Z.of_N]; rewrite stringOfZ_pos, Hto; reflexivity).
  (* a leading zero: the numeral is "0" *)
  cbn [NilEmpty.string_of_uint] in Ed. injection Ed as Ec Er. subst c.
  cbn [Ascii.eqb Bool.eqb andb] in Hlead.
  destruct r as [|c' r']; [|discriminate Hlead].
  destruct d; try discriminate Er. cbn [Pos.of_uint] in Hv. subst v.
  reflexivity.
Qed.

Lemma stringOfZ_not_negative (x : Z) (p : positive) :
  0 <= x -> Js.stringOfZ x <> Js.stringOfZ (Z.neg p).
Proof.
  intros Hx H. destruct (digitsValue_stringOfZ x Hx) as [_ Hd].
  rewrite H, stringOfZ_neg in Hd. cbn [allDigits] in Hd.
  apply andb_prop in Hd as [Hd _]. vm_compute in Hd. discriminate Hd.
Qed.

Lemma stringOfZ_inj (a b : Z) : Js.stringOfZ a = Js.stringOfZ b -> a = b.
Proof.
  assert (Hpos : forall x y, 0 <= x -> 0 <= y ->
                             Js.stringOfZ x = Js.stringOfZ y -> x = y).
  { intros x y Hx Hy H.
    destruct (digitsValue_stringOfZ x Hx) as [Hvx _].
    destruct (digitsValue_stringOfZ y Hy) as [Hvy _].
    rewrite H in Hvx. congruence. }
  intros H. destruct a as [|p|p], b as [|q|q];
    try (apply Hpos; [lia|lia|exact H]).
  - exfalso. exact (stringOfZ_not_negative 0 q ltac:(lia) H).
  - exfalso. exact (stringOfZ_not_negative (Z.pos p) q ltac:(lia) H).
  - exfalso. symmetry in H. exact (stringOfZ_not_negative 0 p ltac:(lia) H).
  - exfalso. symmetry in H. exact (stringOfZ_not_negative (Z.pos q) p ltac:(lia) H).
  - rewrite !stringOfZ_neg in H. injection H as H.
    apply Hpos in H; [|lia|lia]. congruence.
Qed.

(* ================================================================== *)
(** * The order of the buckets *)

Section EnumerationOrder.
Context {A : Type}.
Implicit Types (o : list (string * A)) (k : string) (v : A).

Lemma objLookup_In o k : objLookup o k <> None <-> In k (map fst o).
Proof.
  induction o as [|[k' v'] o IH]; cbn [objLookup map fst In].
  - split; [congruence|contradiction].
  - destruct (String.eqb k' k) eqn:E.
    + apply String.eqb_eq in E. split; [now left|discriminate].
    + apply String.eqb_neq in E. rewrite IH. tauto.
Qed.

Lemma replaceOwn_keys o k v : map fst (replaceOwn o k v) = map fst o.
Proof.
  induction o as [|[k' v'] o IH]; cbn [replaceOwn map fst]; [reflexivity|].
  destruct (String.eqb k' k); cbn [map fst]; [reflexivity|now rewrite IH].
Qed.

Lemma enumeratedFrom_lower (keys : list string) (lower lower' : Z) :
  lower' <= lower -> enumeratedFrom lower keys = true ->
  enumeratedFrom lower' keys = true.
Proof.
  destruct keys as [|k rest]; [reflexivity|]. cbn [enumeratedFrom].
  destruct (arrayIndex k) as [n|]; [|tauto].
  intros Hle [Hn Hrest]%andb_prop. rewrite Hrest, andb_true_r.
  apply Z.ltb_lt in Hn. apply Z.ltb_lt. lia.
Qed.

Lemma enumeratedFrom_snoc (keys : list string) k :
  arrayIndex k = None ->
  forall lower, enumeratedFrom lower keys = true ->
  enumeratedFrom lower (keys ++ [k])%list = true.
Proof.
  intros Hk. induction keys as [|k' rest IH]; intros lower; cbn [app enumeratedFrom].
  - now rewrite Hk.
  - destruct (arrayIndex k') as [n|].
    + intros [Hn Hrest]%andb_prop. rewrite Hn. exact (IH n Hrest).
    + intros Hrest. rewrite forallb_app, Hrest. cbn [forallb]. now rewrite Hk.
Qed.

Lemma enumeratedFrom_insertIndexed o k n v :
  arrayIndex k = Some n -> ~ In k (map fst o) ->
  forall lower, lower < n ->
  enumeratedFrom lower (map fst o) = true ->
  enumeratedFrom lower (map fst (insertIndexed o n k v)) = true.
Proof.
  intros Hk. induction o as [|[k' v'] o IH]; intros Hfresh lower Hlow;
    cbn [insertIndexed map fst enumeratedFrom].
  - intros _. rewrite Hk. apply andb_true_iff. split; [now apply Z.ltb_lt|reflexivity].
  - cbn [map fst In] in Hfresh.
    destruct (arrayIndex k') as [n'|] eqn:Hk'.
    + intros [Hn' Hrest]%andb_prop.
      destruct (Z.ltb_spec n' n) as [Hlt|Hge]; cbn [map fst enumeratedFrom].
      * rewrite Hk', Hn'. apply IH; [tauto|exact Hlt|exact Hrest].
      * rewrite Hk, Hk', Hrest, andb_true_r.
        apply andb_true_iff. split; apply Z.ltb_lt; [exact Hlow|].
        assert (n <> n'); [|lia].
        intros ->. apply Hfresh. left.
        destruct (arrayIndex_spec _ _ Hk) as [_ ->].
        now destruct (arrayIndex_spec _ _ Hk') as [_ ->].
    + intros Hrest. cbn [map fst enumeratedFrom]. rewrite Hk, Hk'.
      apply andb_true_iff. split; [now apply Z.ltb_lt|exact Hrest].
Qed.

(** An assignment keeps the order of enumeration. *)
Lemma enumeratedFrom_objSet o k v :
  enumeratedFrom (-1) (map fst o) = true ->
  enumeratedFrom (-1) (map fst (objSet o k v)) = true.
Proof.
  intros Ho. unfold objSet. destruct (String.eqb k "__proto__"); [exact Ho|].
  rewrite hasOwn_objLookup.
  destruct (objLookup o k) as [v0|] eqn:El.
  - now rewrite replaceOwn_keys.
  - assert (Hfresh : ~ In k (map fst o)).
    { intros Hin. apply objLookup_In in Hin. now apply Hin. }
    destruct (arrayIndex k) as [n|] eqn:Hk.
    + apply enumeratedFrom_insertIndexed; try assumption.
      destruct (arrayIndex_spec _ _ Hk) as [Hn _]. lia.
    + rewrite map_app. now apply enumeratedFrom_snoc.
Qed.
End EnumerationOrder.

Lemma countField_enumerated host skip field profiles :
  enumeratedFrom (-1) (map fst (countField host skip field profiles)) = true.
Proof.
  induction profiles as [|entry profiles IH] using rev_ind; [reflexivity|].
  rewrite countField_snoc. cbv zeta.
  destruct (skip (field (snd entry))); [exact IH|].
  unfold bump. now apply enumeratedFrom_objSet.
Qed.

(** X6. The buckets of each of the six breakdowns are enumerated, and so
    drawn, with those whose text is an array index first, in ascending order
    of the number and each once, before the others: whatever the order of
    the sheet. *)
Theorem countField_enumeration host profiles :
  let enumerated (bucket : list (string * tally)) :=
    enumeratedFrom (-1) (map fst bucket) = true in
  enumerated (countyCounts host profiles)
  /\ enumerated (gradeCounts host profiles)
  /\ enumerated (genderCounts host profiles)
  /\ enumerated (zipCounts host profiles)
  /\ enumerated (schoolCounts host profiles)
  /\ enumerated (ageCounts host profiles).
Proof. cbv zeta. repeat split; apply countField_enumerated. Qed.

Lemma countField_key_source host skip field profiles k :
  In k (map fst (countField host skip field profiles)) ->
  exists entry, In entry profiles /\ skip (field (snd entry)) = false
                /\ valueToString host (field (snd entry)) = k.
Proof.
  induction profiles as [|entry profiles IH] using rev_ind; [contradiction|].
  rewrite countField_snoc. cbv zeta. intros Hin.
  assert (Hrest : In k (map fst (countField host skip field profiles)) ->
                  exists entry0, In entry0 (profiles ++ [entry])%list
                                 /\ skip (field (snd entry0)) = false
                                 /\ valueToString host (field (snd entry0)) = k).
  { intros H. destruct (IH H) as (e & He & Hs). exists e.
    split; [apply in_or_app; now left|exact Hs]. }
  destruct (skip (field (snd entry))) eqn:Hskip; [exact (Hrest Hin)|].
  apply objLookup_In in Hin. unfold bump in Hin. rewrite objLookup_objSet in Hin.
  destruct (String.eqb (valueToString host (field (snd entry))) "__proto__");
    [apply Hrest, objLookup_In, Hin|].
  destruct (String.eqb (valueToString host (field (snd entry))) k) eqn:E;
    [|apply Hrest, objLookup_In, Hin].
  apply String.eqb_eq in E. exists entry.
  split; [apply in_or_app; right; now left|]. now split.
Qed.

Lemma countField_key_present host skip field profiles entry :
  In entry profiles -> skip (field (snd entry)) = false ->
  valueToString host (field (snd entry)) <> "__proto__" ->
  In (valueToString host (field (snd entry)))
     (map fst (countField host skip field profiles)).
Proof.
  intros Hin Hskip Hproto. apply String.eqb_neq in Hproto.
  induction profiles as [|entry' profiles IH] using rev_ind; [contradiction|].
  rewrite countField_snoc. cbv zeta. apply objLookup_In.
  apply in_app_or in Hin as [Hin|[->|[]]].
  - specialize (IH Hin). apply objLookup_In in IH.
    destruct (skip (field (snd entry'))); [exact IH|].
    unfold bump. rewrite objLookup_objSet.
    destruct (String.eqb (valueToString host (field (snd entry'))) "__proto__");
      [exact IH|].
    destruct (String.eqb (valueToString host (field (snd entry')))
                (valueToString host (field (snd entry)))); [discriminate|exact IH].
  - rewrite Hskip. unfold bump. rewrite objLookup_objSet, Hproto, String.eqb_refl.
    discriminate.
Qed.

Lemma enumerated_indices (keys : list string) :
  forall lower,
    enumeratedFrom lower keys = true ->
    Forall (fun k => arrayIndex k <> None) keys ->
    exists ns, keys = map Js.stringOfZ ns /\ StronglySorted Z.lt ns
               /\ Forall (fun n => lower < n) ns.
Proof.
  induction keys as [|k rest IH]; intros lower Henum Hall.
  - exists []. repeat split; constructor.
  - cbn [enumeratedFrom] in Henum. inversion Hall as [|? ? Hk Hrest]; subst.
    destruct (arrayIndex k) as [n|] eqn:Ek; [|congruence].
    apply andb_prop in Henum as [Hn Henum]. apply Z.ltb_lt in Hn.
    destruct (IH n Henum Hrest) as (ns & -> & Hsorted & Hlow).
    exists (n :: ns). destruct (arrayIndex_spec _ _ Ek) as [_ ->].
    repeat split.
    + constructor; assumption.
    + constructor; [exact Hn|].
      eapply Forall_impl; [|exact Hlow]. cbv beta. intros; lia.
Qed.

(** X7. When the ages are whole numbers that are array indices (or are
    absent), the buckets of the age breakdown are the distinct ages in
    ascending order, whatever the order of the sheet. *)
Theorem ageCounts_ascending host profiles :
  agesAreIndices profiles = true ->
  exists ages,
    map fst (ageCounts host profiles) = map Js.stringOfZ ages
    /\ StronglySorted Z.lt ages
    /\ forall n, In n ages <->
                 exists entry, In entry profiles /\ Profile.age (snd entry) = VNum n.
Proof.
  intros Hages. unfold agesAreIndices in Hages.
  rewrite forallb_forall in Hages.
  assert (Hsrc : forall k, In k (map fst (ageCounts host profiles)) ->
                 exists entry (n : Z), In entry profiles /\ Profile.age (snd entry) = VNum n
                                 /\ 0 <= n < 4294967295 /\ k = Js.stringOfZ n).
  { intros k Hk. apply countField_key_source in Hk as (e & He & Hskip & Hk).
    specialize (Hages e He). exists e.
    destruct (Profile.age (snd e)) as [| | |[n|text]| |]; try discriminate.
    exists n. apply andb_prop in Hages as [H0 H1].
    apply Z.leb_le in H0. apply Z.ltb_lt in H1. cbn [valueToString] in Hk.
    repeat split; (lia || auto). }
  destruct (enumerated_indices (map fst (ageCounts host profiles)) (-1)) as
    (ages & Hkeys & Hsorted & _).
  - apply countField_enumerated.
  - apply Forall_forall. intros k Hk.
    destruct (Hsrc k Hk) as (e & n & _ & _ & Hn & ->).
    rewrite (arrayIndex_stringOfZ n Hn). discriminate.
  - exists ages. split; [exact Hkeys|]. split; [exact Hsorted|].
    intros n. split.
    + intros Hn. apply (in_map Js.stringOfZ) in Hn. rewrite <- Hkeys in Hn.
      destruct (Hsrc _ Hn) as (e & m & He & Hage & _ & Heq).
      apply stringOfZ_inj in Heq. subst m. now exists e.
    + intros (e & He & Hage).
      assert (Hin : In (Js.stringOfZ n) (map fst (ageCounts host profiles))).
      { pose proof (countField_key_present host isNullish Profile.age profiles e He) as H.
        rewrite Hage in H. apply H; [reflexivity|].
        intros Heq. cbn [valueToString numberToString] in Heq.
        specialize (Hages e He). rewrite Hage in Hages.
        apply andb_prop in Hages as [H0 _]. apply Z.leb_le in H0.
        destruct (digitsValue_stringOfZ n H0) as [_ Hd].
        rewrite Heq in Hd. discriminate Hd. }
      rewrite Hkeys in Hin. apply in_map_iff in Hin as (m & Heq & Hm).
      apply stringOfZ_inj in Heq. now subst m.
Qed.

Lemma ageCounts_ascending_witness :
  agesAreIndices agesOutOfOrder = true /\
  exists ages,
    map fst (ageCounts utcHost agesOutOfOrder) = map Js.stringOfZ ages
    /\ StronglySorted Z.lt ages
    /\ forall n, In n ages <->
                 exists entry, In entry agesOutOfOrder /\ Profile.age (snd entry) = VNum n.
Proof.
  split; [reflexivity|].
  exact (ageCounts_ascending utcHost agesOutOfOrder eq_refl).
Defined.

(* ================================================================== *)
(** * Numbers in text cells *)

(** X8. A whole number up to 2^53 typed as text is read as the number:
    [parseNumber] gives the decimal numeral of such a number, negative
    ones included, the value it gives the numeric cell, and so does the
    coercion of an age. *)
Theorem parseNumber_numeral (host : Host) (n : Z) :
  - maxSafeInteger <= n <= maxSafeInteger ->
  parseNumber host (CStr (Js.stringOfZ n)) = Some (Int n)
  /\ coerceField host age (CStr (cellToString host (CNum n)))
     = coerceField host age (CNum n).
Proof.
  intros Hn.
  assert (H : parseNumber host (CStr (Js.stringOfZ n)) = Some (Int n)).
  { unfold parseNumber. cbn [toNumber]. rewrite (stringToNumber_stringOfZ host n Hn).
    destruct (Js.stringOfZ n) eqn:E; [|reflexivity].
    destruct n as [|p|p]; [discriminate E| |discriminate E].
    destruct (stringOfZ_head p) as (c & r & E' & _). congruence. }
  split; [exact H|].
  cbn [coerceField cellToString numberToString]. rewrite H. reflexivity.
Qed.

Lemma parseNumber_numeral_witness :
  parseNumber utcHost (CStr "-9007199254740992") = Some (Int (-9007199254740992))
  /\ coerceField utcHost age (CStr (cellToString utcHost (CNum (-9007199254740992))))
     = coerceField utcHost age (CNum (-9007199254740992)).
Proof.
  apply (parseNumber_numeral utcHost (-9007199254740992)).
  unfold maxSafeInteger. lia.
Defined.

(** Past 2^53 not every whole number is a number of the language: the
    value of the numeral is left to the engine. With a fraction or an
    exponent the numeral is read as the number it denotes. *)
Lemma parseNumber_other_numerals (host : Host) :
  toNumber host (CStr "9007199254740993") = numberOf host "9007199254740993"
  /\ parseNumber host (CStr "12.50") = Some (Other "12.5")
  /\ parseNumber host (CStr "-.5e1") = Some (Int (-5))
  /\ toNumber host (CStr "1e21") = numberOf host "1e21".
Proof. repeat split; reflexivity. Qed.

(** X9. A text cell of white space only, which shows as blank in the
    sheet, is read as the number 0 and not as an absent value: under an age
    header it gives the age 0 and makes the row count as data. *)
Theorem parseNumber_blank (host : Host) (s : string) :
  s <> EmptyString -> Js.trim s = EmptyString ->
  parseNumber host (CStr s) = Some (Int 0)
  /\ coerceField host age (CStr s) = (VNum 0, true).
Proof.
  intros Hs Ht.
  assert (H : parseNumber host (CStr s) = Some (Int 0)).
  { unfold parseNumber. destruct s as [|c r]; [congruence|].
    cbn [toNumber]. unfold stringToNumber. now rewrite Ht. }
  split; [exact H|]. cbn [coerceField]. rewrite H. reflexivity.
Qed.

Lemma parseNumber_blank_witness :
  "  " <> EmptyString /\ Js.trim "  " = EmptyString /\
  coerceField utcHost age (CStr "  ") = (VNum 0, true).
Proof.
  split; [discriminate|]. split; [reflexivity|].
  exact (proj2 (parseNumber_blank utcHost "  " ltac:(discriminate) eq_refl)).
Defined.

(* ================================================================== *)
(** * Totals *)

Lemma filter_length_le {A : Type} (f g : A -> bool) (l : list A) :
  (forall a, In a l -> f a = true -> g a = true) ->
  (List.length (filter f l) <= List.length (filter g l))%nat.
Proof.
  induction l as [|a l IH]; intros H; cbn [filter]; [lia|].
  assert (IH' := IH (fun b Hb => H b (or_intror Hb))).
  destruct (f a) eqn:Ef.
  - rewrite (H a (or_introl eq_refl) Ef). cbn [List.length]. lia.
  - destruct (g a); cbn [List.length]; lia.
Qed.

Lemma uniqueProfiles_length (students : list StudentRecord) :
  (List.length (uniqueProfiles students) <= List.length (filter profiled students))%nat.
Proof.
  induction students as [|s students IH] using rev_ind; [cbn; lia|].
  rewrite uniqueProfiles_snoc, uniqueProfilesStep_eq, filter_app, length_app.
  cbn [filter]. destruct (profiled s); cbn [andb List.length].
  - destruct (negb (mapHas (uniqueProfiles students) (profileKey s)));
      [rewrite length_app; cbn [List.length]|]; lia.
  - lia.
Qed.

(** X10. When every row is flagged as checked in, the number of unique
    students is at most the number of check-ins: both are taken from the
    rows with a name and a valid check-in date, which the first counts once
    per identity and the second once per row. *)
Theorem uniqueStudentsCount_le_totalCheckIns (students : list StudentRecord) :
  Forall (fun s => isTrue (getProp s checkedIn) = true) students ->
  (uniqueStudentsCount students <= totalCheckIns students)%nat.
Proof.
  intros Hall. unfold uniqueStudentsCount, totalCheckIns.
  etransitivity; [apply uniqueProfiles_length|].
  apply filter_length_le. intros s Hin Hp.
  rewrite Forall_forall in Hall. rewrite (Hall s Hin).
  unfold profiled in Hp.
  apply andb_prop in Hp as [[Hname Hdate]%andb_prop _].
  now rewrite Hname, Hdate.
Qed.

Lemma uniqueStudentsCount_le_totalCheckIns_witness :
  Forall (fun s => isTrue (getProp s checkedIn) = true)
    [annLeeVisit 0 VNull; annLeeVisit 86400000 VNull]
  /\ (uniqueStudentsCount [annLeeVisit 0 VNull; annLeeVisit 86400000 VNull]
      <= totalCheckIns [annLeeVisit 0 VNull; annLeeVisit 86400000 VNull])%nat.
Proof.
  assert (H : Forall (fun s => isTrue (getProp s checkedIn) = true)
                [annLeeVisit 0 VNull; annLeeVisit 86400000 VNull])
    by (repeat constructor).
  split; [exact H|].
  exact (uniqueStudentsCount_le_totalCheckIns _ H).
Defined.

(* ================================================================== *)
(** * The record preview *)

Lemma setHas_In (seen : list string) (key : string) :
  setHas seen key = true <-> In key seen.
Proof.
  unfold setHas. rewrite existsb_exists. split.
  - intros (k & Hk & E). apply String.eqb_eq in E. now subst.
  - intros H. exists key. split; [exact H|apply String.eqb_refl].
Qed.

Lemma firstRows_snoc (students : list StudentRecord) (s : StudentRecord) :
  fold_left firstRowsStep (students ++ [s])%list ([], [])
  = firstRowsStep (fold_left firstRowsStep students ([], [])) s.
Proof. now rewrite fold_left_app. Qed.

(** The set [seen] holds the keys of [firstRows], in the same order. *)
Lemma firstRows_seen (students : list StudentRecord) :
  snd (fold_left firstRowsStep students ([], []))
  = map previewKey (fst (fold_left firstRowsStep students ([], []))).
Proof.
  induction students as [|s students IH] using rev_ind; [reflexivity|].
  rewrite firstRows_snoc.
  destruct (fold_left firstRowsStep students ([], [])) as [rows seen].
  cbn [fst snd] in IH. unfold firstRowsStep.
  destruct (negb (hasRequired s)); [exact IH|].
  destruct (setHas seen (previewKey s)); [exact IH|].
  cbn [fst snd]. now rewrite map_app, IH.
Qed.

Lemma firstRows_step (students : list StudentRecord) (s : StudentRecord) :
  firstRows (students ++ [s])%list
  = if hasRequired s
       && negb (setHas (map previewKey (firstRows students)) (previewKey s))
    then (firstRows students ++ [s])%list else firstRows students.
Proof.
  unfold firstRows. rewrite firstRows_snoc.
  pose proof (firstRows_seen students) as Hseen.
  destruct (fold_left firstRowsStep students ([], [])) as [rows seen].
  cbn [fst snd] in *. subst seen. unfold firstRowsStep.
  destruct (hasRequired s); cbn [negb andb]; [|reflexivity].
  now destruct (setHas (map previewKey rows) (previewKey s)).
Qed.

Lemma previewCount_state (students : list StudentRecord) :
  fold_left previewCountStep students ([], 0)
  = (map previewKey (firstRows students), Z.of_nat (List.length (firstRows students))).
Proof.
  induction students as [|s students IH] using rev_ind; [reflexivity|].
  rewrite fold_left_app. cbn [fold_left]. rewrite IH, firstRows_step.
  unfold previewCountStep.
  destruct (hasRequired s); cbn [negb andb]; [|reflexivity].
  destruct (setHas (map previewKey (firstRows students)) (previewKey s));
    cbn [negb]; [reflexivity|].
  rewrite map_app, length_app. cbn [map List.length]. f_equal. lia.
Qed.

(** X11. The note "Showing first 20 records." is displayed exactly when
    the table leaves rows out: the count of the second pass over the
    records is the number of rows that the first pass collected. *)
Theorem preview_note_iff_truncated (students : list StudentRecord) :
  previewCount students = Z.of_nat (List.length (firstRows students))
  /\ (showsFirst20Note students = true
      <-> previewRows students <> firstRows students).
Proof.
  assert (Hcount : previewCount students = Z.of_nat (List.length (firstRows students))).
  { unfold previewCount. now rewrite previewCount_state. }
  split; [exact Hcount|].
  unfold showsFirst20Note, previewRows, sliceTo. rewrite Hcount.
  change (20 <? 0) with false. cbv iota.
  split.
  - intros H%Z.ltb_lt Heq.
    apply (f_equal (@List.length _)) in Heq. rewrite length_firstn in Heq. lia.
  - intros Hne. apply Z.ltb_lt.
    destruct (Z.lt_ge_cases 20 (Z.of_nat (List.length (firstRows students))))
      as [Hlt|Hge]; [exact Hlt|].
    exfalso. apply Hne. apply firstn_all2. lia.
Qed.

(** X12. The record preview lists each identity once, by the first of the
    records that have the required fields and its key: for every key, the
    row of that key in the preview is the first such record of the sheet. *)
Theorem firstRows_first_record (students : list StudentRecord) :
  NoDup (map previewKey (firstRows students))
  /\ forall key,
       find (fun r => String.eqb (previewKey r) key) (firstRows students)
       = find (fun r => hasRequired r && String.eqb (previewKey r) key) students.
Proof.
  induction students as [|s students [IHnd IHfind]] using rev_ind.
  - split; [constructor|reflexivity].
  - rewrite firstRows_step.
    destruct (hasRequired s) eqn:Hreq; cbn [andb negb].
    + destruct (setHas (map previewKey (firstRows students)) (previewKey s)) eqn:Hseen;
        cbn [negb].
      * split; [exact IHnd|]. intros key. rewrite find_snoc, <- IHfind.
        destruct (find (fun r => String.eqb (previewKey r) key) (firstRows students))
          as [r|] eqn:Ef; [reflexivity|].
        rewrite Hreq. cbn [andb].
        destruct (String.eqb (previewKey s) key) eqn:Ek; [|reflexivity].
        apply String.eqb_eq in Ek. subst key.
        apply setHas_In, in_map_iff in Hseen as (r & Hr & Hin).
        apply (find_none _ _ Ef) in Hin. rewrite Hr, String.eqb_refl in Hin.
        discriminate Hin.
      * split.
        -- rewrite map_app. cbn [map]. apply NoDup_app. repeat split.
           ++ exact IHnd.
           ++ repeat constructor. intros [].
           ++ intros k Hk [<-|[]]. apply setHas_In in Hk. congruence.
        -- intros key. rewrite !find_snoc, IHfind, Hreq. reflexivity.
    + split; [exact IHnd|]. intros key. rewrite find_snoc, Hreq, <- IHfind.
      cbn [andb].
      now destruct (find (fun r => String.eqb (previewKey r) key) (firstRows students)).
Qed.

(* ================================================================== *)
(** * The details of a record *)

Lemma insertEntry_perm (e : Entry.t) (l : list Entry.t) :
  Permutation (insertEntry e l) (e :: l).
Proof.
  induction l as [|e' l IH]; cbn [insertEntry]; [reflexivity|].
  destruct (entryTime e - entryTime e' <=? 0); [reflexivity|].
  rewrite IH. apply perm_swap.
Qed.

Lemma insertEntry_sorted (e : Entry.t) (l : list Entry.t) :
  StronglySorted entryBefore l -> StronglySorted entryBefore (insertEntry e l).
Proof.
  induction l as [|e' l IH]; cbn [insertEntry]; intros Hl.
  - repeat constructor.
  - inversion Hl as [|? ? Hrest Hall]; subst.
    destruct (Z.leb_spec (entryTime e - entryTime e') 0) as [Hle|Hgt].
    + constructor; [exact Hl|]. constructor; [unfold entryBefore; lia|].
      eapply Forall_impl; [|exact Hall]. unfold entryBefore. intros; lia.
    + constructor; [exact (IH Hrest)|].
      eapply Permutation_Forall; [symmetry; apply insertEntry_perm|].
      constructor; [unfold entryBefore; lia|exact Hall].
Qed.

Lemma recordEntries_perm (key : string) (students : list StudentRecord) :
  Permutation (recordEntries key students)
    (map entryOf (recordsOfKey key students)).
Proof.
  unfold recordEntries, recordsOfKey.
  induction (map entryOf (filter (fun s => String.eqb (previewKey s) key) students))
    as [|e l IH]; cbn [fold_right]; [constructor|].
  rewrite insertEntry_perm. now constructor.
Qed.

(** X13. The details of a record list every row of the sheet that bears
    the key, once each, whether or not the row has the fields that the
    preview requires, in ascending order of time, a row without a valid date
    counting as the epoch. *)
Theorem recordEntries_sorted (key : string) (students : list StudentRecord) :
  StronglySorted entryBefore (recordEntries key students)
  /\ Permutation (recordEntries key students)
       (map entryOf (recordsOfKey key students)).
Proof.
  split; [|apply recordEntries_perm].
  unfold recordEntries.
  induction (map entryOf (filter (fun s => String.eqb (previewKey s) key) students))
    as [|e l IH]; cbn [fold_right]; [constructor|].
  exact (insertEntry_sorted e _ IH).
Qed.

Lemma firstRows_In (students : list StudentRecord) (s : StudentRecord) :
  In s (firstRows students) -> In s students /\ hasRequired s = true.
Proof.
  induction students as [|s' students IH] using rev_ind; [contradiction|].
  rewrite firstRows_step.
  assert (Hrest : In s (firstRows students) ->
                  In s (students ++ [s'])%list /\ hasRequired s = true).
  { intros H. destruct (IH H) as [Hin Hreq]. split; [|exact Hreq].
    apply in_or_app. now left. }
  destruct (hasRequired s') eqn:Hreq; cbn [andb]; [|exact Hrest].
  destruct (setHas (map previewKey (firstRows students)) (previewKey s'));
    cbn [negb]; [exact Hrest|].
  intros [H|[<-|[]]]%in_app_or; [exact (Hrest H)|].
  split; [apply in_or_app; right; now left|exact Hreq].
Qed.

Lemma sliceTo_In {A : Type} (l : list A) (end_ : Z) (a : A) :
  In a (sliceTo l end_) -> In a l.
Proof.
  unfold sliceTo. generalize (Z.to_nat
    (if end_ <? 0 then Z.max (Z.of_nat (List.length l) + end_) 0
     else Z.min end_ (Z.of_nat (List.length l)))).
  intros n. revert l. induction n as [|n IH]; intros [|b l]; cbn [firstn In];
    try contradiction.
  intros [->|H]; [now left|right; exact (IH l H)].
Qed.

(** X14. The details opened from a row of the preview are never empty:
    they hold the entry of that row. *)
Theorem preview_row_has_entry (students : list StudentRecord) (s : StudentRecord) :
  In s (previewRows students) ->
  In (entryOf s) (recordEntries (previewKey s) students).
Proof.
  intros Hin. apply sliceTo_In, firstRows_In in Hin as [Hin _].
  eapply Permutation_in; [symmetry; apply recordEntries_perm|].
  unfold recordsOfKey. apply in_map, filter_In. split; [exact Hin|apply String.eqb_refl].
Qed.

Lemma preview_row_has_entry_witness :
  In (annLeeVisit 0 (VNum 45))
     (previewRows [annLeeVisit 0 (VNum 45); annLeeVisit 86400000 VNull])
  /\ In (entryOf (annLeeVisit 0 (VNum 45)))
        (recordEntries (previewKey (annLeeVisit 0 (VNum 45)))
           [annLeeVisit 0 (VNum 45); annLeeVisit 86400000 VNull]).
Proof.
  assert (H : In (annLeeVisit 0 (VNum 45))
                (previewRows [annLeeVisit 0 (VNum 45); annLeeVisit 86400000 VNull]))
    by (left; reflexivity).
  split; [exact H|].
  exact (preview_row_has_entry _ _ H).
Defined.

(* ================================================================== *)
(** * The selected active check-in *)

Lemma latestByKey_ids_nonempty (students : list StudentRecord) (id : string)
  (e : Active.t) :
  In (id, e) (latestByKey students) -> Js.nonEmpty id = true.
Proof.
  induction students as [|r students IH] using rev_ind; [contradiction|].
  rewrite latestByKey_snoc, latestByKeyStep_eq.
  destruct (activeOk r) eqn:Hok; [|exact IH].
  assert (Hid : Js.nonEmpty (activeId r) = true).
  { unfold activeOk in Hok. now apply andb_prop in Hok as [_ Hid]. }
  assert (Hset : In (id, e) (mapSet (latestByKey students) (activeId r) (activeEntry r))
                 -> Js.nonEmpty id = true).
  { intros [[-> _]|H]%In_mapSet; [exact Hid|exact (IH H)]. }
  destruct (mapGet (latestByKey students) (activeId r)) as [existing|]; [|exact Hset].
  destruct (displaces (readDate r checkInDate) existing); [exact Hset|exact IH].
Qed.

Lemma find_by_id (l : list Active.t) (e : Active.t) :
  NoDup (map Active.id l) -> In e l ->
  find (fun a => String.eqb (Active.id a) (Active.id e)) l = Some e.
Proof.
  induction l as [|a l IH]; [contradiction|].
  cbn [map find In]. intros Hnd Hin. inversion Hnd as [|? ? Hnotin Hnd']; subst.
  destruct Hin as [->|Hin]; [now rewrite String.eqb_refl|].
  destruct (String.eqb (Active.id a) (Active.id e)) eqn:E; [|exact (IH Hnd' Hin)].
  apply String.eqb_eq in E. exfalso. apply Hnotin. rewrite E. now apply in_map.
Qed.

Lemma latestByKey_ids (students : list StudentRecord) :
  map Active.id (map snd (latestByKey students)) = map fst (latestByKey students).
Proof.
  destruct (latestByKey_keys students) as [_ Hid].
  induction (latestByKey students) as [|[id e] m IH]; [reflexivity|].
  cbn [map fst snd]. rewrite (Hid id e (or_introl eq_refl)). f_equal.
  apply IH. intros id' e' H. apply Hid. now right.
Qed.

(** X15. Choosing an entry of the active list by its id selects that very
    entry: no two entries of the list share an id. *)
Theorem selectedActive_of_entry (host : Host) (students : list StudentRecord)
  (e : Active.t) :
  In e (activeCheckIns host students) ->
  selectedActive host students (Active.id e) = Some e.
Proof.
  intros Hin. unfold selectedActive. apply find_by_id; [|exact Hin].
  eapply Permutation_NoDup.
  - apply Permutation_map. symmetry. apply activeCheckIns_perm.
  - rewrite latestByKey_ids. apply latestByKey_keys.
Qed.

Lemma selectedActive_of_entry_witness :
  In (activeEntry (abCheckIn 5)) (activeCheckIns utcHost [abCheckIn 0; abCheckIn 5])
  /\ selectedActive utcHost [abCheckIn 0; abCheckIn 5] "a@b.com"
     = Some (activeEntry (abCheckIn 5)).
Proof.
  assert (H : In (activeEntry (abCheckIn 5))
                (activeCheckIns utcHost [abCheckIn 0; abCheckIn 5]))
    by (left; reflexivity).
  split; [exact H|].
  exact (selectedActive_of_entry utcHost _ _ H).
Defined.

(** X16. Before an entry is chosen the selection is empty: the id of the
    initial state, the empty text, is the id of no entry of the list. *)
Theorem selectedActive_initially_none (host : Host) (students : list StudentRecord) :
  selectedActive host students EmptyString = None.
Proof.
  unfold selectedActive.
  destruct (find (fun a => String.eqb (Active.id a) EmptyString)
              (activeCheckIns host students)) as [e|] eqn:Ef; [|reflexivity].
  apply find_some in Ef as [Hin Hid]. apply String.eqb_eq in Hid.
  apply activeCheckIns_In, mapGet_In in Hin. rewrite Hid in Hin.
  apply latestByKey_ids_nonempty in Hin. discriminate Hin.
Qed.

(* ================================================================== *)
(** * The shape of a parsed record *)

Lemma trimEnd_idem (s : string) : Js.trimEnd (Js.trimEnd s) = Js.trimEnd s.
Proof.
  induction s as [|c r IH]; [reflexivity|]. cbn [Js.trimEnd].
  destruct (Js.trimEnd r) as [|c' r'] eqn:E.
  - destruct (Js.isWhiteSpace c) eqn:Hc; [reflexivity|].
    cbn [Js.trimEnd]. now rewrite Hc.
  - cbn [Js.trimEnd] in *. now rewrite IH.
Qed.

Lemma trimStart_head (s : string) :
  match Js.trimStart s with
  | EmptyString => True
  | String c _ => Js.isWhiteSpace c = false
  end.
Proof.
  induction s as [|c r IH]; [exact I|]. cbn [Js.trimStart].
  destruct (Js.isWhiteSpace c) eqn:Hc; [exact IH|exact Hc].
Qed.

Lemma trim_idem (s : string) : Js.trim (Js.trim s) = Js.trim s.
Proof.
  unfold Js.trim. pose proof (trimStart_head s) as Hhead.
  destruct (Js.trimStart s) as [|c r]; [reflexivity|].
  assert (Hstart : Js.trimStart (Js.trimEnd (String c r)) = Js.trimEnd (String c r)).
  { cbn [Js.trimEnd]. rewrite Hhead.
    destruct (Js.trimEnd r); cbn [Js.trimStart]; now rewrite Hhead. }
  rewrite Hstart. apply trimEnd_idem.
Qed.

Lemma columnMap_range (s : string) (k : ColumnKey) :
  columnMap s = Some k ->
  match k with
  | firstName | lastName | yearsWithJsac | heardAbout | visitsPastMonth
  | visitsPastQuarter | visitsPastYear | checkInDates => False
  | _ => True
  end.
Proof.
  unfold columnMap, columnMapEntries. cbn [ownProperty].
  repeat match goal with
         | |- context [String.eqb ?a ?b] => destruct (String.eqb a b)
         end;
    intros [= <-] || discriminate; exact I.
Qed.

Lemma coerceField_shape (host : Host) (k : ColumnKey) (raw : cell) :
  match k with
  | firstName | lastName | yearsWithJsac | heardAbout | visitsPastMonth
  | visitsPastQuarter | visitsPastYear | checkInDates => False
  | _ => True
  end ->
  fieldShape k (fst (coerceField host k raw)) = true.
Proof.
  assert (Htext : forall x, isTrimmed (Js.trim x) = true).
  { intros x. unfold isTrimmed. rewrite trim_idem. apply String.eqb_refl. }
  assert (Hdate : match ofDate (parseDateValue host raw) with
                  | VUndefined | VNull | VDate (ValidDate _) => true
                  | _ => false
                  end = true).
  { destruct (parseDateValue host raw) as [d|] eqn:E; [|reflexivity].
    apply parseDateValue_valid in E. now destruct d. }
  destruct k; try contradiction; intros _; cbn [coerceField fst fieldShape];
    try exact Hdate;
    try (destruct (parseBooleanFlag raw); reflexivity);
    try (destruct (parseNumber host raw); reflexivity);
    try (destruct raw; try reflexivity; apply Htext);
    apply Htext.
Qed.

Lemma parseRow_shape (host : Host) (row : list (string * cell)) (r : StudentRecord) :
  parseRow host row = Some r -> forall k, fieldShape k (getProp r k) = true.
Proof.
  rewrite parseRow_eq. destruct (existsb (entryMaps host) row); [|discriminate].
  intros [= <-] k. rewrite constructedRecord_field. unfold lastCell.
  destruct (find (mapsTo k) (rev row)) as [[key raw]|] eqn:Ef; cbn [option_map snd].
  - apply find_some in Ef as [_ Hmap]. unfold mapsTo in Hmap. cbn [fst] in Hmap.
    destruct (columnMap (normalizeHeaderKey (Js.trim key))) as [k'|] eqn:E;
      [|discriminate].
    apply ColumnKey_beq_eq in Hmap. subst k'.
    apply coerceField_shape. exact (columnMap_range _ _ E).
  - now destruct k.
Qed.

(** X17. Every record of a parsed sheet has the shape the views rely on:
    each flag is a boolean or [null], each numeric field a number or
    [null], each date a valid date or [null], each text field a text
    without white space at either end, the team number being a text and not
    a number, and the fields to which no header is mapped (first and last
    name among them) are absent. *)
Theorem parseSheet_record_shape (host : Host) (rows : list (list cell))
  (students : list StudentRecord) :
  parseSheet host rows = Some students ->
  Forall (fun r => forall k, fieldShape k (getProp r k) = true) students.
Proof.
  unfold parseSheet. destruct rows as [|row0 rest]; [discriminate|].
  intros [= <-]. apply Forall_forall. intros r Hin.
  apply keepSome_In in Hin. apply in_map_iff in Hin as (raw & Hraw & _).
  exact (parseRow_shape host raw r Hraw).
Qed.

Lemma parseSheet_record_shape_witness :
  parseSheet utcHost teamSheet
  = Some [annLee "Robots" "Wake" (JsDate.UTC 2024 0 1 0 0 0 0);
          annLee "ROBOTS" "Wake" (JsDate.UTC 2024 0 5 0 0 0 0)]
  /\ Forall (fun r => forall k, fieldShape k (getProp r k) = true)
       [annLee "Robots" "Wake" (JsDate.UTC 2024 0 1 0 0 0 0);
        annLee "ROBOTS" "Wake" (JsDate.UTC 2024 0 5 0 0 0 0)].
Proof.
  assert (H : parseSheet utcHost teamSheet
              = Some [annLee "Robots" "Wake" (JsDate.UTC 2024 0 1 0 0 0 0);
                      annLee "ROBOTS" "Wake" (JsDate.UTC 2024 0 5 0 0 0 0)])
    by reflexivity.
  split; [exact H|].
  exact (parseSheet_record_shape utcHost teamSheet _ H).
Defined.

(** X18. The name under which the views know a parsed record is its
    student-name field and nothing else: no header fills the first or the
    last name, so the fallback that composes a name from them has nothing to
    compose. *)
Theorem parseSheet_displayName (host : Host) (rows : list (list cell))
  (students : list StudentRecord) :
  parseSheet host rows = Some students ->
  Forall (fun r => displayName r = textOrEmpty (getProp r studentName)) students.
Proof.
  unfold parseSheet. destruct rows as [|row0 rest]; [discriminate|].
  intros [= <-]. apply Forall_forall. intros r Hin.
  apply keepSome_In in Hin. apply in_map_iff in Hin as (raw & Hraw & _).
  pose proof (parseRow_shape host raw r Hraw) as Hshape.
  pose proof (Hshape firstName) as Hf. pose proof (Hshape lastName) as Hl.
  pose proof (Hshape studentName) as Hn.
  unfold displayName, readStr. cbn [fieldShape] in Hf, Hl, Hn.
  destruct (getProp r firstName); try discriminate Hf.
  destruct (getProp r lastName); try discriminate Hl.
  destruct (getProp r studentName) as [| | | |s|]; try discriminate Hn;
    cbn [orString textOrEmpty]; [reflexivity|].
  apply String.eqb_eq in Hn.
  destruct s as [|c s']; [reflexivity|]. cbn [Js.nonEmpty]. exact Hn.
Qed.

Lemma parseSheet_displayName_witness :
  parseSheet utcHost teamSheet
  = Some [annLee "Robots" "Wake" (JsDate.UTC 2024 0 1 0 0 0 0);
          annLee "ROBOTS" "Wake" (JsDate.UTC 2024 0 5 0 0 0 0)]
  /\ Forall (fun r => displayName r = textOrEmpty (getProp r studentName))
       [annLee "Robots" "Wake" (JsDate.UTC 2024 0 1 0 0 0 0);
        annLee "ROBOTS" "Wake" (JsDate.UTC 2024 0 5 0 0 0 0)].
Proof.
  assert (H : parseSheet utcHost teamSheet
              = Some [annLee "Robots" "Wake" (JsDate.UTC 2024 0 1 0 0 0 0);
                      annLee "ROBOTS" "Wake" (JsDate.UTC 2024 0 5 0 0 0 0)])
    by reflexivity.
  split; [exact H|].
  exact (parseSheet_displayName utcHost teamSheet _ H).
Defined.

(* ================================================================== *)
(** * Serial dates *)



(* ================================================================== *)
(** * The weekly map *)













(* ================================================================== *)
(** * The weeks and their labels *)

Section WeekLabels.
Import JsDate JsDateFacts.

Lemma getWeekRange_eq (host : Host) (t : Z) :
  getWeekRange host (ValidDate t) = weekLabel (weekStartMs host t).
Proof.
  unfold getWeekRange, weekLabel, weekStartMs. cbv zeta.
  now rewrite (setUTCDate_shift _ 6).
Qed.

(** X21. The week under which a check-in is counted is the week that
    contains its local calendar day: the key is at most six days before
    that day. This is for a check-in whose local time is a time value at
    least seven days above the low end of the range of [Date]: the
    midnight of its local day and the key are then time values too, and
    no step of the computation leaves the range. (Years 0 to 99 aside.) *)
Theorem weekStartMs_contains_local_day (host : Host) (t : Z) :
  timeInRange t ->
  - maxTime + 7 * msPerDay <= LocalTime host t <= maxTime ->
  ~ (0 <= YearFromTime (LocalTime host t) <= 99) ->
  weekStartMs host t <= Day (LocalTime host t) * msPerDay
  < weekStartMs host t + 7 * msPerDay
  /\ timeInRange (Day (LocalTime host t) * msPerDay)
  /\ timeInRange (weekStartMs host t).
Proof.
  intros _ Hlocal Hy. rewrite (weekStartMs_of_local_day host t Hy).
  revert Hlocal. generalize (LocalTime host t). intros local Hlocal.
  assert (Hday : Day local * msPerDay <= local < Day local * msPerDay + msPerDay)
    by (unfold Day; divlia).
  pose proof (Z.mod_pos_bound (Day local + 3) 7 ltac:(lia)).
  unfold timeInRange, maxTime, msPerDay in *. lia.
Qed.

(** The Monday of the local day of a Monday key: the key itself east of
    UTC, the Monday before it west of UTC. *)
Lemma week_key_shift (key tz : Z) :
  (Day key + 4) mod 7 = 1 -> TimeWithinDay key = 0 ->
  - msPerDay <= tz < msPerDay ->
  (Day (key + tz) - (Day (key + tz) + 3) mod 7) * msPerDay
  = if 0 <=? tz then key else key - 7 * msPerDay.
Proof.
  unfold Day, TimeWithinDay. intros Hmon Hmid Htz.
  destruct (Z.leb_spec 0 tz); divlia.
Qed.

(** X22. The label of a week is computed from the local day of its key,
    which is a Monday at 00:00 UTC: on a host at or east of UTC it names the
    week of the key, and on a host west of UTC, where that instant is still
    Sunday, it names the week before, so that every check-in is shown under
    the week before its own. This is for a key at least seven days above
    the low end of the range of [Date] and six days below its high end:
    the midnight of the local day of the key, the first day of the
    labelled week and its last day are then time values. (Offsets of less
    than a day; years 0 to 99 aside.) *)
Theorem getWeekRange_of_week_key (host : Host) (t : Z) :
  - msPerDay <= tzOffsetMs host < msPerDay ->
  ~ (0 <= YearFromTime (LocalTime host (weekStartMs host t)) <= 99) ->
  - maxTime + 7 * msPerDay <= weekStartMs host t <= maxTime - 6 * msPerDay ->
  getWeekRange host (ValidDate (weekStartMs host t))
  = (if 0 <=? tzOffsetMs host then weekLabel (weekStartMs host t)
     else weekLabel (weekStartMs host t - 7 * msPerDay))
  /\ timeInRange (Day (LocalTime host (weekStartMs host t)) * msPerDay)
  /\ timeInRange (if 0 <=? tzOffsetMs host then weekStartMs host t
                  else weekStartMs host t - 7 * msPerDay)
  /\ timeInRange ((if 0 <=? tzOffsetMs host then weekStartMs host t
                   else weekStartMs host t - 7 * msPerDay) + 6 * msPerDay).
Proof.
  intros Htz Hy Hrange. rewrite getWeekRange_eq.
  destruct (weekStartMs_monday host t) as [Hmon Hmid].
  revert Hy Hrange Hmon Hmid. generalize (weekStartMs host t).
  intros key Hy Hrange Hmon Hmid.
  rewrite (weekStartMs_of_local_day host key Hy). unfold LocalTime.
  rewrite (week_key_shift key (tzOffsetMs host) Hmon Hmid Htz).
  assert (Hday : key - msPerDay <= Day (key + tzOffsetMs host) * msPerDay <= key).
  { revert Hmid Htz. generalize (tzOffsetMs host). intros tz Hmid Htz.
    unfold Day, TimeWithinDay in *. divlia. }
  split; [now destruct (0 <=? tzOffsetMs host)|].
  unfold timeInRange, maxTime, msPerDay in *.
  destruct (0 <=? tzOffsetMs host); lia.
Qed.
End WeekLabels.

Lemma weekStartMs_contains_local_day_witness :
  JsDate.timeInRange 1704301200000
  /\ - JsDate.maxTime + 7 * JsDate.msPerDay <= LocalTime easternHost 1704301200000
     <= JsDate.maxTime
  /\ ~ (0 <= JsDate.YearFromTime (LocalTime easternHost 1704301200000) <= 99)
  /\ weekStartMs easternHost 1704301200000
     <= JsDate.Day (LocalTime easternHost 1704301200000) * JsDate.msPerDay
     < weekStartMs easternHost 1704301200000 + 7 * JsDate.msPerDay
  /\ JsDate.timeInRange
       (JsDate.Day (LocalTime easternHost 1704301200000) * JsDate.msPerDay)
  /\ JsDate.timeInRange (weekStartMs easternHost 1704301200000).
Proof.
  assert (H0 : JsDate.timeInRange 1704301200000)
    by (vm_compute; split; discriminate).
  assert (H1 : - JsDate.maxTime + 7 * JsDate.msPerDay
               <= LocalTime easternHost 1704301200000 <= JsDate.maxTime)
    by (vm_compute; split; discriminate).
  assert (H : ~ (0 <= JsDate.YearFromTime (LocalTime easternHost 1704301200000) <= 99))
    by (vm_compute; intros [_ H]; apply H; reflexivity).
  split; [exact H0|]. split; [exact H1|]. split; [exact H|].
  exact (weekStartMs_contains_local_day easternHost 1704301200000 H0 H1 H).
Defined.

Lemma getWeekRange_of_week_key_witness :
  - JsDate.msPerDay <= tzOffsetMs easternHost < JsDate.msPerDay
  /\ ~ (0 <= JsDate.YearFromTime
               (LocalTime easternHost (weekStartMs easternHost 1704301200000)) <= 99)
  /\ - JsDate.maxTime + 7 * JsDate.msPerDay <= weekStartMs easternHost 1704301200000
     <= JsDate.maxTime - 6 * JsDate.msPerDay
  /\ weekStartMs easternHost 1704301200000 = JsDate.UTC 2024 0 1 0 0 0 0
  /\ getWeekRange easternHost (ValidDate (weekStartMs easternHost 1704301200000))
     = "12/25/2023 - 12/31/2023".
Proof.
  assert (H1 : - JsDate.msPerDay <= tzOffsetMs easternHost < JsDate.msPerDay)
    by (vm_compute; split; [discriminate|reflexivity]).
  assert (H2 : ~ (0 <= JsDate.YearFromTime
                         (LocalTime easternHost (weekStartMs easternHost 1704301200000))
                  <= 99))
    by (vm_compute; intros [_ H]; apply H; reflexivity).
  assert (H3 : - JsDate.maxTime + 7 * JsDate.msPerDay
               <= weekStartMs easternHost 1704301200000
               <= JsDate.maxTime - 6 * JsDate.msPerDay)
    by (vm_compute; split; discriminate).
  split; [exact H1|]. split; [exact H2|]. split; [exact H3|].
  split; [vm_compute; reflexivity|].
  exact (proj1 (getWeekRange_of_week_key easternHost 1704301200000 H1 H2 H3)).
Defined.

(** At the high end of the range the week of the key would end past it:
    the key of the last time value is within six days of the end, and the
    label of its week is not taken from the embedding. *)
Lemma week_key_at_range_end :
  weekStartMs utcHost JsDate.maxTime = JsDate.maxTime - 5 * JsDate.msPerDay
  /\ ~ JsDate.timeInRange (weekStartMs utcHost JsDate.maxTime + 6 * JsDate.msPerDay).
Proof.
  split; [vm_compute; reflexivity|].
  vm_compute. intros [_ H]. apply H. reflexivity.
Qed.

(* ================================================================== *)
(** * The order of the active list *)

Lemma insertByName_sorted (host : Host) (e : Active.t) (l : list Active.t) :
  collates host ->
  StronglySorted (nameBefore host) l ->
  StronglySorted (nameBefore host) (insertByName host e l).
Proof.
  intros [Htotal Htrans].
  induction l as [|e' l IH]; cbn [insertByName]; intros Hl.
  - repeat constructor.
  - inversion Hl as [|? ? Hrest Hall]; subst.
    destruct (Z.leb_spec (localeCompare host (Active.name e) (Active.name e')) 0)
      as [Hle|Hgt].
    + constructor; [exact Hl|]. constructor; [exact Hle|].
      eapply Forall_impl; [|exact Hall]. unfold nameBefore.
      intros a Ha. exact (Htrans _ _ _ Hle Ha).
    + constructor; [exact (IH Hrest)|].
      eapply Permutation_Forall; [symmetry; apply insertByName_perm|].
      constructor; [|exact Hall]. unfold nameBefore.
      destruct (Htotal (Active.name e) (Active.name e')); [lia|assumption].
Qed.

(** X23. When the comparison of the host orders the names, the active
    list is in the order of the names. *)
Theorem activeCheckIns_sorted (host : Host) (students : list StudentRecord) :
  collates host ->
  StronglySorted (nameBefore host) (activeCheckIns host students).
Proof.
  intros Hhost. unfold activeCheckIns.
  induction (map snd (latestByKey students)) as [|e l IH]; cbn [fold_right].
  - constructor.
  - exact (insertByName_sorted host e _ Hhost IH).
Qed.

Lemma ascii_compare_cases (a b : ascii) :
  match Ascii.compare a b with
  | Lt => (N_of_ascii a < N_of_ascii b)%N
  | Eq => a = b
  | Gt => (N_of_ascii b < N_of_ascii a)%N
  end.
Proof.
  unfold Ascii.compare. destruct (N.compare_spec (N_of_ascii a) (N_of_ascii b)) as [H|H|H];
    try exact H.
  rewrite <- (ascii_N_embedding a), <- (ascii_N_embedding b). now rewrite H.
Qed.

Lemma string_compare_trans (a : string) :
  forall b c, String.compare a b <> Gt -> String.compare b c <> Gt ->
              String.compare a c <> Gt.
Proof.
  induction a as [|x a IH]; intros [|y b] [|z c]; cbn [String.compare];
    try congruence.
  pose proof (ascii_compare_cases x y) as Hxy.
  pose proof (ascii_compare_cases y z) as Hyz.
  pose proof (ascii_compare_cases x z) as Hxz.
  destruct (Ascii.compare x y) eqn:Exy.
  - subst y. clear Hyz Exy.
    destruct (Ascii.compare x z); [apply IH | intros _ _; discriminate | tauto].
  - intros _. destruct (Ascii.compare y z) eqn:Eyz.
    + subst z. rewrite Exy. intros _. discriminate.
    + intros _. destruct (Ascii.compare x z); [subst z; lia | discriminate | lia].
    + congruence.
  - congruence.
Qed.

Lemma utcHost_collates : collates utcHost.
Proof.
  assert (Hle : forall a b, localeCompare utcHost a b <= 0 <-> String.compare a b <> Gt).
  { intros a b. cbn [localeCompare utcHost].
    destruct (String.compare a b); split; intros; (lia || congruence). }
  split.
  - intros a b. rewrite !Hle, (String.compare_antisym a b).
    destruct (String.compare b a); cbn [CompOpp]; [left|right|left]; congruence.
  - intros a b c. rewrite !Hle. apply string_compare_trans.
Qed.

Lemma activeCheckIns_sorted_witness :
  collates utcHost
  /\ StronglySorted (nameBefore utcHost)
       (activeCheckIns utcHost [abCheckIn 0; annLeeVisit 5 VNull]).
Proof.
  split; [exact utcHost_collates|].
  exact (activeCheckIns_sorted utcHost _ utcHost_collates).
Defined.

(* ================================================================== *)
(** * From the rows of the sheet to the records *)

Lemma bestHeaderIndex_in_range (rows : list (list cell)) :
  rows <> [] -> (bestHeaderIndex rows < List.length rows)%nat.
Proof.
  intros Hne. unfold bestHeaderIndex.
  destruct (detectFrom_spec rows 0 0 (-1)) as [[-> _]|(j & row & Hj & -> & _)];
    cbn [fst Nat.add].
  - destruct rows; [congruence|cbn; lia].
  - apply nth_error_Some. congruence.
Qed.

Lemma keepSome_length {A : Type} (l : list (option A)) :
  (List.length (keepSome l) <= List.length l)%nat.
Proof.
  induction l as [|[a|] l IH]; cbn [keepSome List.length]; lia.
Qed.

Lemma filter_length_bound {A : Type} (f : A -> bool) (l : list A) :
  (List.length (filter f l) <= List.length l)%nat.
Proof.
  induction l as [|a l IH]; cbn [filter]; [lia|].
  destruct (f a); cbn [List.length]; lia.
Qed.

Lemma In_skipn_nth {A : Type} (n : nat) (l : list A) (x : A) :
  In x (skipn n l) -> exists i, (n <= i)%nat /\ nth_error l i = Some x.
Proof.
  revert l. induction n as [|n IH]; intros l Hin.
  - apply In_nth_error in Hin as [i Hi]. exists i. split; [lia|exact Hi].
  - destruct l as [|a l]; [contradiction|]. cbn [skipn] in Hin.
    destruct (IH l Hin) as (i & Hle & Hi). exists (S i). split; [lia|exact Hi].
Qed.

(** X24. The records of a sheet come from the rows below the header row,
    one at most per row: the header row and the rows above it give none,
    and each record is a row with some text, parsed under the labels of the
    header row. *)
Theorem parseSheet_rows_below_header (host : Host) (rows : list (list cell))
  (students : list StudentRecord) :
  parseSheet host rows = Some students ->
  (List.length students + bestHeaderIndex rows < List.length rows)%nat
  /\ forall r, In r students ->
       exists i row,
         (bestHeaderIndex rows < i)%nat /\ nth_error rows i = Some row
         /\ existsb hasText row = true
         /\ parseRow host (rawRecordFrom (headerLabelsOf rows) 0 row []) = Some r.
Proof.
  unfold parseSheet. destruct rows as [|row0 rest] eqn:Erows; [discriminate|].
  rewrite <- Erows. intros [= <-].
  assert (Hbest : (bestHeaderIndex rows < List.length rows)%nat)
    by (apply bestHeaderIndex_in_range; rewrite Erows; discriminate).
  split.
  - pose proof (keepSome_length (map (parseRow host) (rawRecords rows))) as H1.
    rewrite length_map in H1. unfold rawRecords in H1.
    pose proof (filter_length_bound
                  (fun record => existsb (fun kv => hasText (snd kv)) record)
                  (map (fun row => rawRecordFrom
                                     (map cellLabel (nth (bestHeaderIndex rows) rows []))
                                     0 row [])
                     (filter (fun row => existsb hasText row)
                        (skipn (S (bestHeaderIndex rows)) rows)))) as H2.
    rewrite length_map in H2.
    pose proof (filter_length_bound (fun row => existsb hasText row)
                  (skipn (S (bestHeaderIndex rows)) rows)) as H3.
    rewrite length_skipn in H3. cbv zeta in H1.
    unfold rawRecords. cbv zeta. lia.
  - intros r Hin. apply keepSome_In in Hin.
    apply in_map_iff in Hin as (raw & Hraw & Hin).
    unfold rawRecords in Hin. cbv zeta in Hin.
    apply filter_In in Hin as [Hin _].
    apply in_map_iff in Hin as (row & <- & Hin).
    apply filter_In in Hin as [Hin Htext].
    apply In_skipn_nth in Hin as (i & Hle & Hi).
    exists i, row. repeat split; assumption.
Qed.

Lemma parseSheet_rows_below_header_witness :
  parseSheet utcHost teamSheet
  = Some [annLee "Robots" "Wake" (JsDate.UTC 2024 0 1 0 0 0 0);
          annLee "ROBOTS" "Wake" (JsDate.UTC 2024 0 5 0 0 0 0)]
  /\ (2 + bestHeaderIndex teamSheet < List.length teamSheet)%nat.
Proof.
  assert (H : parseSheet utcHost teamSheet
              = Some [annLee "Robots" "Wake" (JsDate.UTC 2024 0 1 0 0 0 0);
                      annLee "ROBOTS" "Wake" (JsDate.UTC 2024 0 5 0 0 0 0)])
    by reflexivity.
  split; [exact H|].
  exact (proj1 (parseSheet_rows_below_header utcHost teamSheet _ H)).
Defined.

Lemma rawRecordFrom_lookup (h : string) (headerLabels : list string) :
  h <> EmptyString -> h <> "__proto__" ->
  forall (columnIndex : nat) (row : list cell) (record : list (string * cell)),
    objLookup (rawRecordFrom headerLabels columnIndex row record) h
    = match cellUnder h headerLabels (skipn columnIndex row) with
      | Some v => Some v
      | None => objLookup record h
      end.
Proof.
  intros Hne Hproto. unfold cellUnder.
  induction headerLabels as [|header rest IH]; intros columnIndex row record;
    cbn [rawRecordFrom].
  - reflexivity.
  - rewrite IH.
    assert (Hskip : skipn (S columnIndex) row = tl (skipn columnIndex row)).
    { clear. revert row. induction columnIndex as [|n IHn]; intros [|c row];
        try reflexivity. cbn [skipn] in *. now rewrite <- IHn. }
    assert (Hnth : nth_error row columnIndex = hd_error (skipn columnIndex row)).
    { clear. revert row. induction columnIndex as [|n IHn]; intros [|c row];
        try reflexivity. cbn [skipn nth_error]. apply IHn. }
    rewrite Hskip, Hnth. clear Hskip Hnth.
    destruct (skipn columnIndex row) as [|c cells]; cbn [tl hd_error combine rev].
    + destruct rest; cbn [combine rev find option_map];
        now destruct (negb (Js.nonEmpty header)).
    + rewrite find_snoc. cbn [fst snd].
      destruct (find _ (rev (combine rest cells))) as [p|]; cbn [option_map];
        [reflexivity|].
      destruct (String.eqb header h) eqn:Eh; cbn [andb].
      * apply String.eqb_eq in Eh. subst header.
        destruct h as [|a h']; [congruence|]. cbn [Js.nonEmpty negb].
        assert (Hset : forall v, objLookup (objSet record (String a h') v) (String a h')
                                 = Some v).
        { intros v. rewrite objLookup_objSet, String.eqb_refl.
          destruct (String.eqb (String a h') "__proto__") eqn:E; [|reflexivity].
          apply String.eqb_eq in E. congruence. }
        destruct c; cbn [option_map snd]; try apply Hset. reflexivity.
      * assert (Hother : forall v, objLookup (objSet record header v) h
                                   = objLookup record h).
        { intros v. rewrite objLookup_objSet, Eh.
          destruct (String.eqb header "__proto__"); reflexivity. }
        destruct (negb (Js.nonEmpty header)); [reflexivity|].
        destruct c; try apply Hother; reflexivity.
Qed.

(** X25. Under a header that labels several columns of the sheet, a data
    row holds the cell of the last of them in which it has one: the raw
    record of the row reads, under each header, that cell. *)
Theorem rawRecordFrom_last_column (h : string) (headerLabels : list string)
  (row : list cell) :
  h <> EmptyString -> h <> "__proto__" ->
  objLookup (rawRecordFrom headerLabels 0 row []) h = cellUnder h headerLabels row.
Proof.
  intros Hne Hproto.
  rewrite (rawRecordFrom_lookup h headerLabels Hne Hproto 0 row []).
  cbn [skipn objLookup]. now destruct (cellUnder h headerLabels row).
Qed.

Lemma rawRecordFrom_last_column_witness :
  "Name" <> EmptyString /\ "Name" <> "__proto__"
  /\ objLookup
       (rawRecordFrom ["Name"; "Age"; "Name"; "Name"] 0
          [CStr "Ann"; CNum 12; CStr "Ann Lee"] []) "Name"
     = Some (CStr "Ann Lee").
Proof.
  split; [discriminate|]. split; [discriminate|].
  exact (rawRecordFrom_last_column "Name" ["Name"; "Age"; "Name"; "Name"]
           [CStr "Ann"; CNum 12; CStr "Ann Lee"] ltac:(discriminate) ltac:(discriminate)).
Defined.

(* ================================================================== *)
(** * Flags in any letter case *)

Lemma isWhiteSpace_toLowerChar (c : ascii) :
  Js.isWhiteSpace (Js.toLowerChar c) = Js.isWhiteSpace c.
Proof. destruct c as [[] [] [] [] [] [] [] []]; reflexivity. Qed.

Lemma trimStart_toLowerCase (s : string) :
  Js.trimStart (Js.toLowerCase s) = Js.toLowerCase (Js.trimStart s).
Proof.
  induction s as [|c r IH]; [reflexivity|].
  cbn [Js.toLowerCase Js.trimStart]. rewrite isWhiteSpace_toLowerChar.
  now destruct (Js.isWhiteSpace c).
Qed.

Lemma trimEnd_toLowerCase (s : string) :
  Js.trimEnd (Js.toLowerCase s) = Js.toLowerCase (Js.trimEnd s).
Proof.
  induction s as [|c r IH]; [reflexivity|].
  cbn [Js.toLowerCase Js.trimEnd]. rewrite IH, isWhiteSpace_toLowerChar.
  destruct (Js.trimEnd r); cbn [Js.toLowerCase]; [|reflexivity].
  now destruct (Js.isWhiteSpace c).
Qed.

Lemma trim_toLowerCase (s : string) :
  Js.trim (Js.toLowerCase s) = Js.toLowerCase (Js.trim s).
Proof. unfold Js.trim. now rewrite trimStart_toLowerCase, trimEnd_toLowerCase. Qed.

(** X26. A flag is read without regard to letter case: two texts that
    differ in the case of their letters only give the same flag, and the
    same checked-in field. *)
Theorem parseBooleanFlag_ignores_case (host : Host) (s1 s2 : string) :
  Js.toLowerCase s1 = Js.toLowerCase s2 ->
  parseBooleanFlag (CStr s1) = parseBooleanFlag (CStr s2)
  /\ coerceField host checkedIn (CStr s1) = coerceField host checkedIn (CStr s2).
Proof.
  intros Hsame.
  assert (H : parseBooleanFlag (CStr s1) = parseBooleanFlag (CStr s2)).
  { assert (Hnorm : Js.toLowerCase (Js.trim s1) = Js.toLowerCase (Js.trim s2))
      by now rewrite <- !trim_toLowerCase, Hsame.
    destruct s1 as [|c1 r1], s2 as [|c2 r2]; try discriminate Hsame;
      [reflexivity|].
    cbn [parseBooleanFlag]. now rewrite Hnorm. }
  split; [exact H|]. cbn [coerceField]. now rewrite H.
Qed.

Lemma parseBooleanFlag_ignores_case_witness :
  Js.toLowerCase "YES" = Js.toLowerCase "yes"
  /\ coerceField utcHost checkedIn (CStr "YES") = (VBool true, true).
Proof.
  split; [reflexivity|].
  exact (proj2 (parseBooleanFlag_ignores_case utcHost "YES" "yes" eq_refl)).
Defined.

(* ================================================================== *)
(** * The name of an active entry *)

(** X27. An active entry of a parsed sheet is named by the student name
    of its record and, when the record has none, by a single space: the
    text composed of the first and last names is never empty, so the
    fallbacks on the e-mail and on "Unknown" are never reached, and an entry
    known by its e-mail only has a blank name. *)
Theorem activeName_of_parsed_record (host : Host) (rows : list (list cell))
  (students : list StudentRecord) :
  parseSheet host rows = Some students ->
  Forall
    (fun r =>
       activeName r
       = if Js.nonEmpty (textOrEmpty (getProp r studentName))
         then textOrEmpty (getProp r studentName) else " ")
    students.
Proof.
  unfold parseSheet. destruct rows as [|row0 rest]; [discriminate|].
  intros [= <-]. apply Forall_forall. intros r Hin.
  apply keepSome_In in Hin. apply in_map_iff in Hin as (raw & Hraw & _).
  pose proof (parseRow_shape host raw r Hraw) as Hshape.
  pose proof (Hshape firstName) as Hf. pose proof (Hshape lastName) as Hl.
  pose proof (Hshape studentName) as Hn.
  unfold activeName, readStr. cbn [fieldShape] in Hf, Hl, Hn.
  destruct (getProp r firstName); try discriminate Hf.
  destruct (getProp r lastName); try discriminate Hl.
  destruct (getProp r studentName) as [| | | |s|]; try discriminate Hn;
    cbn [orString textOrEmpty]; [reflexivity|].
  now destruct s.
Qed.

Lemma activeName_of_parsed_record_witness :
  parseSheet utcHost [[CStr "Email"; CStr "Checked In"]; [CStr "a@b.com"; CStr "yes"]]
  = Some [[(email, VStr "a@b.com"); (checkedIn, VBool true)]]
  /\ Forall (fun r => activeName r = " ")
       [[(email, VStr "a@b.com"); (checkedIn, VBool true)]].
Proof.
  assert (H : parseSheet utcHost
                [[CStr "Email"; CStr "Checked In"]; [CStr "a@b.com"; CStr "yes"]]
              = Some [[(email, VStr "a@b.com"); (checkedIn, VBool true)]])
    by reflexivity.
  split; [exact H|].
  pose proof (activeName_of_parsed_record utcHost _ _ H) as Hall.
  inversion Hall as [|r l Hname _]. constructor; [exact Hname|constructor].
Defined.

(* ================================================================== *)
(** * A header that names an inherited member *)

(** X28. A header that normalises to "constructor" is taken for a field,
    though the column map has no such entry: the lookup finds the member
    that every object inherits. Such a header counts in the score of a
    header row, and a row whose only cell with text stands under it gives a
    record. *)
Theorem constructor_header_is_recognised (host : Host) (key : string) (raw : cell) :
  normalizeHeaderKey (Js.trim key) = "constructor" ->
  raw <> CUndefined -> raw <> CNull ->
  Js.nonEmpty (Js.trim (cellToString host raw)) = true ->
  ownProperty "constructor" columnMapEntries = None
  /\ recognisedLabel (Js.trim key) = true
  /\ parseRow host [(key, raw)]
     = Some [(inheritedConstructor, VStr (Js.trim (cellToString host raw)))].
Proof.
  intros Hkey Hu Hn Htext. split; [reflexivity|].
  assert (Hmap : columnMap (normalizeHeaderKey (Js.trim key)) = Some inheritedConstructor)
    by now rewrite Hkey.
  split.
  - unfold recognisedLabel. now rewrite Hmap.
  - unfold parseRow. cbn [fold_left].
    rewrite (parseRowStep_recognised host _ _ _ _ _ Hmap).
    assert (Hv : fst (coerceField host inheritedConstructor raw)
                 = VStr (Js.trim (cellToString host raw)))
      by (destruct raw; try reflexivity; congruence).
    rewrite Hv. cbn [isPresent].
    destruct (Js.trim (cellToString host raw)) eqn:E; [discriminate Htext|].
    reflexivity.
Qed.

Lemma constructor_header_is_recognised_witness :
  normalizeHeaderKey (Js.trim "Constructor") = "constructor"
  /\ parseRow utcHost [("Constructor", CStr "Acme")]
     = Some [(inheritedConstructor, VStr "Acme")].
Proof.
  split; [reflexivity|].
  exact (proj2 (proj2 (constructor_header_is_recognised utcHost "Constructor" (CStr "Acme")
                         eq_refl ltac:(discriminate) ltac:(discriminate) eq_refl))).
Defined.
